(** * Batched Monte Carlo portfolio engine (Monte_Carlo_SIM.py)

    A shallow embedding of [MonteCarloEngine5M]: the batch simulator
    [simulate_portfolio_batch], the batch loop of [run_5M_simulation], the
    risk metrics of [_calculate_metrics] and the percentile table of
    [export_results], with the numpy functions they call.

    Numeric convention.  A Python [float] / numpy [float64] is read as a
    real number and its operations as the exact operations of [R]:
    rounding is not part of the model, and neither are infinities.  The
    one float that is not a number and that the metrics produce from
    finite inputs, the mean of an empty slice, is kept apart as [None].
    The quotient [(value - initial) / initial] of the returns is the real
    quotient; statements about returns assume a non-zero initial value.
    Python [int]s that count things (simulations, batch size, lengths,
    indices) are [nat]; the [int] obtained from a float by [int(...)] is a
    [Z].  The statements proved under this convention are those that
    rounding leaves intact: which positions of which arrays are read,
    counts, order, exceptions and the formulas that are evaluated; an
    equality between two numbers that the program computes along
    different routes is stated only where both routes perform the same
    operations in the same order.  Module [Binary64] recomputes in
    binary64 arithmetic the float-to-index conversions and the sums, the
    mean and the standard deviation of numpy, to compare the convention
    with the machine on concrete inputs.

    The global generator of [np.random] is a stream of variates fixed by
    the seed, read in order; the state threaded through the calls is the
    number of variates consumed. *)

From Stdlib Require Import Reals Lra Lia List ZArith Arith Bool.
From Stdlib Require Import Permutation Sorted.
From Stdlib Require String.
From Stdlib Require Floats.PrimFloat Floats.SpecFloat Floats.FloatOps.
From Stdlib Require Numbers.Cyclic.Int63.Uint63.
Import String.StringSyntax.
Delimit Scope string_scope with string.
Import ListNotations.
Open Scope R_scope.

(** ** Exceptions and the result of a call *)

Inductive exn : Type :=
| ZeroDivisionError
| LinAlgError
| ValueError
| IndexError.

Inductive outcome (A : Type) : Type :=
| Ok (a : A)
| Raise (e : exn).
Arguments Ok {A} a.
Arguments Raise {A} e.

(** The global generator of [np.random]: after [np.random.seed] it
    delivers a fixed sequence of standard normal variates; the state is the
    number of variates consumed so far. *)
Definition rng := nat.

(** A computation that may raise and that reads the global generator. *)
Definition M (A : Type) : Type := rng -> outcome A * rng.

Definition ret {A} (a : A) : M A := fun s => (Ok a, s).
Definition lift {A} (o : outcome A) : M A := fun s => (o, s).
Definition bind {A B} (m : M A) (k : A -> M B) : M B :=
  fun s => match m s with
           | (Ok a, s') => k a s'
           | (Raise e, s') => (Raise e, s')
           end.

Notation "x <- m ;; k" := (bind m (fun x => k))
  (at level 61, m at next level, right associativity).

Definition obind {A B} (o : outcome A) (k : A -> outcome B) : outcome B :=
  match o with
  | Ok a => k a
  | Raise e => Raise e
  end.

(** ** Python and numpy primitives *)

(** [int(x)] on a float: truncation toward zero. *)
Definition py_int (r : R) : Z :=
  if Rle_dec 0 r then Int_part r else (- Int_part (- r))%Z.

(** [np.ceil]. *)
Definition np_ceil (r : R) : R := IZR (- Int_part (- r)).

(** [a[i]] on a one-dimensional array, for [i >= 0]. *)
Definition getitem (a : list R) (i : nat) : outcome R :=
  match nth_error a i with
  | Some x => Ok x
  | None => Raise IndexError
  end.

(** [np.sum] of a one-dimensional array. *)
Definition np_sum (l : list R) : R := fold_left Rplus l 0.

(** [np.zeros(n)]. *)
Definition np_zeros (n : nat) : list R := repeat 0 n.

(** An n-dimensional array: its shape and its elements in C order. *)
Record ndarray : Type := mk_ndarray { shape : list nat; data : list R }.

(** A two-dimensional array given by its rows (the correlation matrix and
    its Cholesky factor). *)
Definition matrix := list (list R).

Definition entry (m : matrix) (i j : nat) : R := nth j (nth i m []) 0.

Definition is_square (m : matrix) : bool :=
  forallb (fun row => Nat.eqb (length row) (length m)) m.

(** [m.T] of a square matrix. *)
Definition transpose (m : matrix) : matrix :=
  map (fun j => map (fun i => entry m i j) (seq 0 (length m)))
      (seq 0 (length m)).

(** [a.reshape(-1, n)]: the unknown dimension is [size / n]; numpy refuses
    [n = 0] and a size that [n] does not divide. *)
Definition reshape_rows (a : ndarray) (n : nat) : outcome ndarray :=
  let sz := length (data a) in
  if Nat.eqb n 0 then Raise ValueError
  else if Nat.eqb (sz mod n) 0
       then Ok (mk_ndarray [(sz / n)%nat; n] (data a))
       else Raise ValueError.

(** [a.reshape(b, t, n)]. *)
Definition reshape3 (a : ndarray) (b t n : nat) : outcome ndarray :=
  if Nat.eqb (length (data a)) (b * t * n)
  then Ok (mk_ndarray [b; t; n] (data a))
  else Raise ValueError.

(** [a @ m] for a two-dimensional [a] of shape (r, k) and a square [m]. *)
Definition matmul (a : ndarray) (m : matrix) : outcome ndarray :=
  match shape a with
  | [r; k] =>
      if Nat.eqb k (length m)
      then Ok (mk_ndarray [r; k]
                 (map (fun idx =>
                         np_sum (map (fun l => nth ((idx / k) * k + l) (data a) 0
                                                * entry m l (idx mod k))
                                     (seq 0 k)))
                      (seq 0 (r * k))))
      else Raise ValueError
  | _ => Raise ValueError
  end.

(** [a[:, :, i]] of a three-dimensional array, as a (b, t) array. *)
Definition slice_last (a : ndarray) (i : nat) : ndarray :=
  match shape a with
  | [b; t; n] =>
      mk_ndarray [b; t] (map (fun idx => nth (idx * n + i) (data a) 0)
                             (seq 0 (b * t)))
  | _ => mk_ndarray [] []
  end.

(** [np.sum(a, axis=1)] of a (b, t) array. *)
Definition sum_axis1 (a : ndarray) : list R :=
  match shape a with
  | [b; t] =>
      map (fun p => np_sum (map (fun s => nth (p * t + s) (data a) 0) (seq 0 t)))
          (seq 0 b)
  | _ => []
  end.

(** Elementwise map over an array of any shape. *)
Definition nd_map (f : R -> R) (a : ndarray) : ndarray :=
  mk_ndarray (shape a) (map f (data a)).

(** Elementwise [u + v] of two one-dimensional arrays of equal length. *)
Fixpoint add_arrays (u v : list R) : list R :=
  match u, v with
  | x :: u', y :: v' => (x + y) :: add_arrays u' v'
  | _, _ => []
  end.

(** *** [np.linalg.cholesky]

    The lower factor is built row by row from the lower triangle of the
    input; the decomposition fails when a pivot is not positive. *)

Definition dot (u v : list R) : R :=
  np_sum (map (fun p => fst p * snd p) (combine u v)).

(** Entries [L[i][0..i-1]] of row [i], from row [i] of the input and the
    rows of the factor already built. *)
Definition chol_offdiag (Ai : list R) (Lprev : matrix) : list R :=
  fold_left (fun acc Lj =>
               acc ++ [(nth (length acc) Ai 0 - dot acc Lj)
                       / nth (length acc) Lj 0])
            Lprev [].

Definition chol_row (n : nat) (Ai : list R) (Lprev : matrix)
  : option (list R) :=
  let i := length Lprev in
  let acc := chol_offdiag Ai Lprev in
  let d := nth i Ai 0 - dot acc acc in
  if Rlt_dec 0 d
  then Some (acc ++ sqrt d :: repeat 0 (n - i - 1))
  else None.

Fixpoint chol_rows (n : nat) (A : matrix) (Lprev : matrix) : option matrix :=
  match A with
  | [] => Some Lprev
  | Ai :: A' =>
      match chol_row n Ai Lprev with
      | Some r => chol_rows n A' (Lprev ++ [r])
      | None => None
      end
  end.

Definition cholesky (A : matrix) : outcome matrix :=
  if is_square A
  then match chol_rows (length A) A [] with
       | Some L => Ok L
       | None => Raise LinAlgError
       end
  else Raise LinAlgError.

(** *** Order statistics and moments *)

(** [np.sort]: the elements in non-decreasing order. *)
Fixpoint insert_sorted (x : R) (l : list R) : list R :=
  match l with
  | [] => [x]
  | y :: l' => if Rle_dec x y then x :: l else y :: insert_sorted x l'
  end.

Definition np_sort (l : list R) : list R := fold_right insert_sorted [] l.

(** [np.mean]: not a number on an empty array. *)
Definition np_mean (l : list R) : option R :=
  match l with
  | [] => None
  | _ => Some (np_sum l / INR (length l))
  end.

(** [np.std] (population standard deviation). *)
Definition np_std (l : list R) : option R :=
  match np_mean l with
  | Some m => option_map sqrt (np_mean (map (fun x => Rabs (x - m) ^ 2) l))
  | None => None
  end.

(** [np.median]. *)
Definition np_median (l : list R) : option R :=
  let s := np_sort l in
  let n := length s in
  if Nat.eqb n 0 then None
  else if Nat.even n
       then Some ((nth (n / 2 - 1) s 0 + nth (n / 2) s 0) / 2)
       else Some (nth (n / 2) s 0).

(** [np.percentile(a, q)] with numpy's default, linear interpolation
    between the order statistics around the rank [(n - 1) * q / 100]. *)
Definition np_percentile (a : list R) (q : R) : option R :=
  let s := np_sort a in
  let n := length s in
  if Nat.eqb n 0 then None
  else
    let virtual_index := INR (n - 1) * (q / 100) in
    let previous := Z.to_nat (Int_part virtual_index) in
    let next := Nat.min (previous + 1) (n - 1) in
    let gamma := virtual_index - INR previous in
    Some (nth previous s 0 + (nth next s 0 - nth previous s 0) * gamma).

(** [np.sum(cond) / n] for a boolean array: the fraction of elements that
    satisfy the condition. *)
Definition fraction (cond : R -> bool) (l : list R) (n : nat) : option R :=
  if Nat.eqb n 0 then None
  else Some (INR (length (filter cond l)) / INR n).

Definition lt_b (x y : R) : bool := if Rlt_dec x y then true else false.

(** ** The engine *)

Section Engine.

(** The variates delivered by the global generator after
    [np.random.seed(42)], in the order in which they are drawn. *)
Variable gauss : nat -> R.

(** [np.random.standard_normal((b, t, n))]: the next [b*t*n] variates, laid
    out in C order; a negative dimension is refused. *)
Definition standard_normal (b : nat) (t : Z) (n : nat) : M ndarray :=
  fun s =>
    if (t <? 0)%Z then (Raise ValueError, s)
    else
      let sz := (b * Z.to_nat t * n)%nat in
      (Ok (mk_ndarray [b; Z.to_nat t; n]
             (map (fun j => gauss (s + j)) (seq 0 sz))),
       (s + sz)%nat).

Section Batch.

Variables weights initial_prices expected_returns volatilities : list R.
Variable correlation_matrix : matrix.
Variable T : R.

Definition dt : R := 1 / 252.

(** The body of [for i in range(n_assets)], run over the indices [idxs]
    with the accumulator [portfolio_final_values]. *)
Fixpoint asset_loop (Z_corr : ndarray) (idxs : list nat)
    (portfolio_final_values : list R) : outcome (list R) :=
  match idxs with
  | [] => Ok portfolio_final_values
  | i :: rest =>
      obind (getitem expected_returns i) (fun mu =>
      obind (getitem volatilities i) (fun sigma =>
      let returns :=
        nd_map (fun z => (mu - 0.5 * sigma ^ 2) * dt + sigma * sqrt dt * z)
               (slice_last Z_corr i) in
      let cumulative_return := sum_axis1 returns in
      obind (getitem initial_prices i) (fun p0 =>
      let final_prices := map (fun c => p0 * exp c) cumulative_return in
      obind (getitem weights i) (fun w =>
      asset_loop Z_corr rest
        (add_arrays portfolio_final_values
                    (map (fun x => x * w) final_prices))))))
  end.

Definition simulate_portfolio_batch (batch_n_sims : nat) : M (list R) :=
  let n_assets := length weights in
  let n_steps := py_int (T * 252) in
  L <- lift (cholesky correlation_matrix) ;;
  Z_indep <- standard_normal batch_n_sims n_steps n_assets ;;
  Z_flat <- lift (reshape_rows Z_indep n_assets) ;;
  ZL <- lift (matmul Z_flat (transpose L)) ;;
  Z_corr <- lift (reshape3 ZL batch_n_sims (Z.to_nat n_steps) n_assets) ;;
  lift (asset_loop Z_corr (seq 0 n_assets) (np_zeros batch_n_sims)).

End Batch.

(** *** [MonteCarloEngine5M.__init__] *)

Record engine : Type := mk_engine {
  n_simulations : nat;
  batch_size : nat;
  n_batches : Z
}.

(** [n_simulations / batch_size] is Python's true division, which raises on
    a zero divisor; [np.random.seed(42)] rewinds the generator. *)
Definition engine_init (n_sims b_size : nat) : M engine :=
  fun s =>
    if Nat.eqb b_size 0 then (Raise ZeroDivisionError, s)
    else (Ok (mk_engine n_sims b_size
                (py_int (np_ceil (INR n_sims / INR b_size)))),
          0%nat).

(** *** Portfolio configuration (the dictionary [portfolio_config]) *)

Record config : Type := mk_config {
  cfg_tickers : list String.string;
  cfg_weights : list R;
  cfg_initial_prices : list R;
  cfg_expected_returns : list R;
  cfg_volatilities : list R;
  cfg_correlation_matrix : matrix
}.

(** Elementwise [u * v] with numpy's broadcasting of a length-one operand. *)
Definition mul_arrays (u v : list R) : outcome (list R) :=
  if Nat.eqb (length u) (length v)
  then Ok (map (fun p => fst p * snd p) (combine u v))
  else if Nat.eqb (length u) 1 then Ok (map (fun y => hd 0 u * y) v)
  else if Nat.eqb (length v) 1 then Ok (map (fun x => x * hd 0 v) u)
  else Raise ValueError.

(** [a[start:stop] = v]: the slice is clipped to the array, [v] must have
    the length of the slice or length one. *)
Definition set_slice (a : list R) (start stop : nat) (v : list R)
  : outcome (list R) :=
  let stop' := Nat.min stop (length a) in
  let start' := Nat.min start stop' in
  let len := (stop' - start')%nat in
  if Nat.eqb (length v) len
  then Ok (firstn start' a ++ v ++ skipn stop' a)
  else if Nat.eqb (length v) 1
       then Ok (firstn start' a ++ repeat (hd 0 v) len ++ skipn stop' a)
       else Raise ValueError.

Section Run.

Variable self : engine.
Variable portfolio_config : config.
Variable time_horizon : R.

(** The index range of batch [batch_idx]. *)
Definition batch_start (batch_idx : nat) : nat :=
  (batch_idx * batch_size self)%nat.
Definition batch_end (batch_idx : nat) : nat :=
  Nat.min (batch_start batch_idx + batch_size self) (n_simulations self).

(** The body of [for batch_idx in range(self.n_batches)] over the batch
    indices [idxs]; [trace] records the range and the path count of every
    batch that was simulated and stored. *)
Fixpoint batch_loop (idxs : list nat) (all_final_values : list R)
    (trace : list (nat * nat * nat)) : M (list R * list (nat * nat * nat)) :=
  match idxs with
  | [] => ret (all_final_values, trace)
  | batch_idx :: rest =>
      let b_start := batch_start batch_idx in
      let b_end := batch_end batch_idx in
      let batch_n_sims := (b_end - b_start)%nat in
      batch_final_values <-
        simulate_portfolio_batch
          (cfg_weights portfolio_config)
          (cfg_initial_prices portfolio_config)
          (cfg_expected_returns portfolio_config)
          (cfg_volatilities portfolio_config)
          (cfg_correlation_matrix portfolio_config)
          time_horizon batch_n_sims ;;
      all' <- lift (set_slice all_final_values b_start b_end
                              batch_final_values) ;;
      batch_loop rest all' (trace ++ [(b_start, b_end, batch_n_sims)])
  end.


(** *** [_calculate_skewness], [_calculate_kurtosis] *)

Definition _calculate_skewness (returns : list R) : option R :=
  match np_mean returns, np_std returns with
  | Some mean, Some std =>
      if Req_dec_T std 0 then Some 0
      else np_mean (map (fun r => ((r - mean) / std) ^ 3) returns)
  | _, _ => None
  end.

Definition _calculate_kurtosis (returns : list R) : option R :=
  match np_mean returns, np_std returns with
  | Some mean, Some std =>
      if Req_dec_T std 0 then Some 0
      else option_map (fun m => m - 3)
             (np_mean (map (fun r => ((r - mean) / std) ^ 4) returns))
  | _, _ => None
  end.

(** *** [_calculate_metrics] *)

Record metrics : Type := mk_metrics {
  mean_return : option R;
  median_return : option R;
  std_return : option R;
  percentile_1 : R;
  percentile_5 : R;
  percentile_25 : R;
  percentile_75 : R;
  percentile_95 : R;
  percentile_99 : R;
  VaR_95 : R;
  VaR_99 : R;
  VaR_999 : R;
  CVaR_95 : option R;
  CVaR_99 : option R;
  CVaR_999 : option R;
  prob_loss : option R;
  prob_loss_10 : option R;
  prob_loss_20 : option R;
  prob_loss_50 : option R;
  prob_profit : option R;
  prob_profit_10 : option R;
  prob_profit_20 : option R;
  prob_profit_50 : option R;
  skewness : option R;
  kurtosis : option R;
  sharpe_ratio : option R
}.

(** [returns_sorted[int(n * p)]]. *)
Definition rank_item (returns_sorted : list R) (n : nat) (p : R) : outcome R :=
  getitem returns_sorted (Z.to_nat (py_int (INR n * p))).

(** [np.mean(returns_sorted[:int(n * p)])]. *)
Definition tail_mean (returns_sorted : list R) (n : nat) (p : R) : option R :=
  np_mean (firstn (Z.to_nat (py_int (INR n * p))) returns_sorted).

Definition _calculate_metrics (returns : list R) : outcome metrics :=
  let returns_sorted := np_sort returns in
  let n := length returns_sorted in
  obind (rank_item returns_sorted n 0.01) (fun p1 =>
  obind (rank_item returns_sorted n 0.05) (fun p5 =>
  obind (rank_item returns_sorted n 0.25) (fun p25 =>
  obind (rank_item returns_sorted n 0.75) (fun p75 =>
  obind (rank_item returns_sorted n 0.95) (fun p95 =>
  obind (rank_item returns_sorted n 0.99) (fun p99 =>
  obind (rank_item returns_sorted n 0.05) (fun v95 =>
  obind (rank_item returns_sorted n 0.01) (fun v99 =>
  obind (rank_item returns_sorted n 0.001) (fun v999 =>
  Ok {|
    mean_return := np_mean returns;
    median_return := np_median returns;
    std_return := np_std returns;
    percentile_1 := p1;
    percentile_5 := p5;
    percentile_25 := p25;
    percentile_75 := p75;
    percentile_95 := p95;
    percentile_99 := p99;
    VaR_95 := v95;
    VaR_99 := v99;
    VaR_999 := v999;
    CVaR_95 := tail_mean returns_sorted n 0.05;
    CVaR_99 := tail_mean returns_sorted n 0.01;
    CVaR_999 := tail_mean returns_sorted n 0.001;
    prob_loss := fraction (fun r => lt_b r 0) returns n;
    prob_loss_10 := fraction (fun r => lt_b r (-0.10)) returns n;
    prob_loss_20 := fraction (fun r => lt_b r (-0.20)) returns n;
    prob_loss_50 := fraction (fun r => lt_b r (-0.50)) returns n;
    prob_profit := fraction (fun r => lt_b 0 r) returns n;
    prob_profit_10 := fraction (fun r => lt_b 0.10 r) returns n;
    prob_profit_20 := fraction (fun r => lt_b 0.20 r) returns n;
    prob_profit_50 := fraction (fun r => lt_b 0.50 r) returns n;
    skewness := _calculate_skewness returns;
    kurtosis := _calculate_kurtosis returns;
    sharpe_ratio :=
      match np_mean returns, np_std returns with
      | Some m, Some sd => if Rlt_dec 0 sd then Some (m / sd) else Some 0
      | _, _ => Some 0
      end
  |}))))))))).


(** *** [run_5M_simulation]

    The dictionary it returns, without the wall-clock entries
    [elapsed_time] and [speed]; [batch_log] records the batches that
    were executed, in order: the range of each and the number of paths it
    simulated (the number shown by its progress line). *)

Record results : Type := mk_results {
  final_values : list R;
  returns_of : list R;
  metrics_of : metrics;
  config_of : config;
  batch_log : list (nat * nat * nat)
}.

Definition run_5M_simulation : M results :=
  let weights := cfg_weights portfolio_config in
  let initial_prices := cfg_initial_prices portfolio_config in
  products <- lift (mul_arrays weights initial_prices) ;;
  let initial_portfolio_value := np_sum products in
  let all_final_values := np_zeros (n_simulations self) in
  filled <- batch_loop (seq 0 (Z.to_nat (n_batches self)))
                       all_final_values [] ;;
  let all_final_values := fst filled in
  let returns :=
    map (fun v => (v - initial_portfolio_value) / initial_portfolio_value)
        all_final_values in
  m <- lift (_calculate_metrics returns) ;;
  ret (mk_results all_final_values returns m portfolio_config (snd filled)).

End Run.

(** *** [export_results]

    Of the three files it writes, the percentile table: its rows, as pairs
    of the percentile and the [Value] column.  (The metrics file repeats
    the metrics record and the sample file is a random sample of the
    returns; neither is modelled.) *)
Definition export_results (res : results) : list (nat * option R) :=
  map (fun pct => (pct, np_percentile (returns_of res) (INR pct)))
      [1; 5; 10; 25; 50; 75; 90; 95; 99]%nat.

(** A whole run: build the engine, then simulate. *)
Definition run (n_sims b_size : nat) (cfg : config) (time_horizon : R)
  : M results :=
  e <- engine_init n_sims b_size ;;
  run_5M_simulation e cfg time_horizon.

End Engine.

(** * Specification-side definitions

    The formulas of the design document, written as it states them; the
    theorems below compare them with what the code computes. *)

(** The finite sum of [f 0 .. f (n-1)]. *)
Fixpoint big_sum (f : nat -> R) (n : nat) : R :=
  match n with
  | O => 0
  | S n' => big_sum f n' + f n'
  end.

(** Correlated shock of asset [i] at step [t] of path [p] of a batch that
    starts reading the generator at [s]: row [(p, t)] of the independent
    draws times the transpose of the factor [L]. *)
Definition corr_shock (gauss : nat -> R) (L : matrix) (steps n_assets : nat)
    (s p t i : nat) : R :=
  big_sum (fun k => gauss (s + ((p * steps + t) * n_assets + k))%nat
                    * entry L i k) n_assets.

(** Per-step log-return: (mu - sigma^2/2) dt + sigma sqrt(dt) Z. *)
Definition step_log_return (mu sigma z : R) : R :=
  (mu - sigma ^ 2 / 2) * (1 / 252) + sigma * sqrt (1 / 252) * z.

(** Terminal log-return: the sum of the per-step log-returns. *)
Definition terminal_log_return (mu sigma : R) (steps : nat)
    (shock : nat -> R) : R :=
  big_sum (fun t => step_log_return mu sigma (shock t)) steps.

(** Terminal price: P0 exp(terminal log-return). *)
Definition terminal_price (p0 mu sigma : R) (steps : nat)
    (shock : nat -> R) : R :=
  p0 * exp (terminal_log_return mu sigma steps shock).

(** Terminal portfolio value of one path: the weighted sum of the terminal
    prices of the assets. *)
Definition portfolio_value (w p0 mu sigma : list R) (steps : nat)
    (shock : nat -> nat -> R) : R :=
  big_sum (fun i => terminal_price (nth i p0 0) (nth i mu 0) (nth i sigma 0)
                      steps (fun t => shock t i)
                    * nth i w 0)
          (length w).

(** Initial portfolio value: the weighted sum of the initial prices. *)
Definition initial_value (w p0 : list R) : R :=
  big_sum (fun i => nth i w 0 * nth i p0 0) (length w).

(** Terminal value of the path with global index [g] of a run whose
    generator starts at the seed: the path reads the variates
    [g * steps * n .. (g + 1) * steps * n - 1]. *)
Definition path_value (gauss : nat -> R) (cfg : config) (L : matrix)
    (steps g : nat) : R :=
  portfolio_value (cfg_weights cfg) (cfg_initial_prices cfg)
    (cfg_expected_returns cfg) (cfg_volatilities cfg) steps
    (fun t i => corr_shock gauss L steps (length (cfg_weights cfg)) 0 g t i).

(** The partition of [0, S) into ceil(S/K) contiguous ranges of length [K],
    the last possibly shorter: start, end and length of every range. *)
Definition ceil_div (S K : nat) : nat := ((S + K - 1) / K)%nat.

Definition batch_range (S K b : nat) : nat * nat * nat :=
  ((b * K)%nat, Nat.min (b * K + K) S, (Nat.min (b * K + K) S - b * K)%nat).

Definition batch_ranges (S K : nat) : list (nat * nat * nat) :=
  map (batch_range S K) (seq 0 (ceil_div S K)).

(** The number of paths covered by the first [b] ranges. *)
Definition filled (S K b : nat) : nat := Nat.min (b * K) S.

(** A configuration on which every call of the batch simulator succeeds:
    the correlation matrix has the Cholesky factor [L] and as many rows
    as there are weights, every asset has a price, an expected return and
    a volatility, and the horizon gives a non-negative number of steps. *)
Definition sim_ready (cfg : config) (L : matrix) (T : R) : Prop :=
  cholesky (cfg_correlation_matrix cfg) = Ok L /\
  length (cfg_correlation_matrix cfg) = length (cfg_weights cfg) /\
  (0 < length (cfg_weights cfg))%nat /\
  (length (cfg_weights cfg) <= length (cfg_initial_prices cfg))%nat /\
  (length (cfg_weights cfg) <= length (cfg_expected_returns cfg))%nat /\
  (length (cfg_weights cfg) <= length (cfg_volatilities cfg))%nat /\
  (0 <= py_int (T * 252))%Z.

(** A well-formed configuration: the batch simulator succeeds on it and
    there is exactly one price per weight. *)
Definition well_formed (cfg : config) (L : matrix) (T : R) : Prop :=
  cholesky (cfg_correlation_matrix cfg) = Ok L /\
  length (cfg_correlation_matrix cfg) = length (cfg_weights cfg) /\
  (0 < length (cfg_weights cfg))%nat /\
  length (cfg_initial_prices cfg) = length (cfg_weights cfg) /\
  (length (cfg_weights cfg) <= length (cfg_expected_returns cfg))%nat /\
  (length (cfg_weights cfg) <= length (cfg_volatilities cfg))%nat /\
  (0 <= py_int (T * 252))%Z.

(** The arrays and the metrics of a run, or the exception it raised. *)
Definition result_arrays (o : outcome results)
  : outcome (list R * list R * metrics) :=
  match o with
  | Ok r => Ok (final_values r, returns_of r, metrics_of r)
  | Raise e => Raise e
  end.

(** Nearest-rank index of the design document: floor(n p). *)
Definition floor_rank (n : nat) (p : R) : nat :=
  Z.to_nat (Int_part (INR n * p)).

(** The nearest-rank percentile: [sorted_returns[floor(n p)]]. *)
Definition nearest_rank (sorted_returns : list R) (p : R) : R :=
  nth (floor_rank (length sorted_returns) p) sorted_returns 0.





(** The weighted aggregate of the deterministic terminal prices
    P0 exp(mu tau) after the time [tau] (in years). *)
Definition deterministic_value (w p0 mu : list R) (tau : R) : R :=
  big_sum (fun i => nth i p0 0 * exp (nth i mu 0 * tau) * nth i w 0)
          (length w).

Definition all_zero (l : list R) : Prop := Forall (fun x => x = 0) l.

(** ** Binary64 counterparts

    The places where the program turns a float into an index,
    [int(n * p)] and [int(T * 252)], computed with the binary64 product
    instead of the exact one, and the sums of numpy with the order in
    which they add; they serve to compare the numeric convention with the
    machine arithmetic on concrete inputs. *)

Module Binary64.

Import PrimFloat SpecFloat FloatOps.

(** [int(f)] of a binary64 value: truncation toward zero (0 on a value
    that is not finite). *)
Definition float_int (f : float) : Z :=
  match Prim2SF f with
  | S754_finite sgn m e =>
      let a := match e with
               | Z0 => Zpos m
               | Zpos k => Z.shiftl (Zpos m) (Zpos k)
               | Zneg k => Z.shiftr (Zpos m) (Zpos k)
               end in
      if sgn then (- a)%Z else a
  | _ => 0%Z
  end.

(** [int(n * p)] for an integer [n] below 2^63 and a binary64 [p]. *)
Definition float_rank (n : Z) (p : float) : Z :=
  float_int (PrimFloat.mul (PrimFloat.of_uint63 (Uint63.of_Z n)) p).

Set Warnings "-inexact-float".

(** The tail and percentile fractions of [_calculate_metrics], each with
    the numerator and denominator of the decimal it is written as. *)
Definition metric_fractions : list (float * Z * Z) :=
  [(0.01%float, 1%Z, 100%Z); (0.05%float, 5%Z, 100%Z);
   (0.25%float, 25%Z, 100%Z); (0.75%float, 75%Z, 100%Z);
   (0.95%float, 95%Z, 100%Z); (0.99%float, 99%Z, 100%Z);
   (0.001%float, 1%Z, 1000%Z)].

(** Whether the binary64 rank equals the exact one for every fraction. *)
Definition ranks_agree (n : Z) : bool :=
  forallb (fun '(p, a, b) => Z.eqb (float_rank n p) (n * a / b)%Z)
          metric_fractions.

(** [int(np.ceil(S / K))] in binary64, for positive [S] and [K] below
    2^53 (which the conversion to binary64 leaves unchanged). *)
Definition float_batches (S K : Z) : Z :=
  let q := PrimFloat.div (PrimFloat.of_uint63 (Uint63.of_Z S))
                         (PrimFloat.of_uint63 (Uint63.of_Z K)) in
  let t := float_int q in
  if PrimFloat.eqb (PrimFloat.of_uint63 (Uint63.of_Z t)) q
  then t else (t + 1)%Z.

(** Whether the binary64 batch count is the exact ceiling of [S / K]. *)
Definition batches_agree (S K : Z) : bool :=
  Z.eqb (float_batches S K) ((S + K - 1) / K)%Z.

(** [int(T * 252)] in binary64 for the horizons 0.1, 1 and 2 years. *)
Definition float_steps : list Z :=
  map (fun T => float_int (PrimFloat.mul T 252%float))
      [0.1%float; 1%float; 2%float].

Set Warnings "+inexact-float".

(** *** Sums, mean and standard deviation in binary64

    [np.sum] on a contiguous [float64] array starts from 0 and adds
    numpy's pairwise sum of the elements: fewer than 8 elements are added
    one after the other, up to 128 elements go through 8 running sums
    that are combined as a tree before the remaining elements are added,
    and a longer array is split in two. *)

Definition of_nat (n : nat) : float :=
  PrimFloat.of_uint63 (Uint63.of_Z (Z.of_nat n)).

(** [for x in a: res += x]. *)
Definition sum_loop (res : float) (a : list float) : float :=
  fold_left PrimFloat.add a res.

(** The 8 running sums [r[0..7]], each increased by the matching element
    of every further block of 8. *)
Definition lane8 : Type :=
  (float * float * float * float * float * float * float * float)%type.

Fixpoint lanes (r : lane8) (a : list float) : lane8 :=
  match a with
  | a0 :: a1 :: a2 :: a3 :: a4 :: a5 :: a6 :: a7 :: a' =>
      let '(r0, r1, r2, r3, r4, r5, r6, r7) := r in
      lanes ((r0 + a0)%float, (r1 + a1)%float, (r2 + a2)%float,
             (r3 + a3)%float, (r4 + a4)%float, (r5 + a5)%float,
             (r6 + a6)%float, (r7 + a7)%float) a'
  | _ => r
  end.

(** The branch for 8 to 128 elements. *)
Definition unrolled (a : list float) : float :=
  match a with
  | a0 :: a1 :: a2 :: a3 :: a4 :: a5 :: a6 :: a7 :: rest =>
      let m := (length rest - length rest mod 8)%nat in
      let '(r0, r1, r2, r3, r4, r5, r6, r7) :=
        lanes (a0, a1, a2, a3, a4, a5, a6, a7) (firstn m rest) in
      sum_loop (((r0 + r1) + (r2 + r3)) + ((r4 + r5) + (r6 + r7)))%float
               (skipn m rest)
  | _ => sum_loop 0%float a
  end.

Fixpoint pairwise_sum (fuel : nat) (a : list float) : float :=
  let n := length a in
  if (n <? 8)%nat then sum_loop 0%float a
  else if (n <=? 128)%nat then unrolled a
  else match fuel with
       | O => unrolled a
       | S fuel' =>
           let n2 := (n / 2 - (n / 2) mod 8)%nat in
           (pairwise_sum fuel' (firstn n2 a)
            + pairwise_sum fuel' (skipn n2 a))%float
       end.

Definition np_sum (a : list float) : float :=
  (0 + pairwise_sum (length a) a)%float.

(** [np.mean]: the sum divided by the count. *)
Definition np_mean (a : list float) : float :=
  (np_sum a / of_nat (length a))%float.

(** [np.std]: the square root of the mean of the squared deviations from
    the mean. *)
Definition np_std (a : list float) : float :=
  let arrmean := np_mean a in
  let x := map (fun v => (v - arrmean)%float) a in
  PrimFloat.sqrt (np_sum (map (fun d => (d * d)%float) x)
                  / of_nat (length a))%float.

(** *** The two sums of a run in binary64 *)

(** [initial_portfolio_value = np.sum(weights * initial_prices)]. *)
Definition initial_portfolio_value (weights initial_prices : list float)
  : float :=
  np_sum (map (fun wp => (fst wp * snd wp)%float)
              (combine weights initial_prices)).

(** The entry of one path in [portfolio_final_values] after the loop over
    the assets, which starts from [np.zeros] and adds
    [final_prices * weights[i]] with
    [final_prices = initial_prices[i] * np.exp(cumulative_return)];
    [growth] holds the factor [np.exp(cumulative_return)] of every asset
    on that path. *)
Definition portfolio_final_value (initial_prices growth weights : list float)
  : float :=
  fold_left (fun acc x =>
               (acc + (fst (fst x) * snd (fst x)) * snd x)%float)
            (combine (combine initial_prices growth) weights) 0%float.

(** [(all_final_values - initial_portfolio_value) / initial_portfolio_value]
    for one path. *)
Definition path_return (final_value initial_value : float) : float :=
  ((final_value - initial_value) / initial_value)%float.

Set Warnings "-inexact-float".

(** Eight assets without drift and without volatility: every per-step
    return is 0.0, every cumulative return is 0.0 and every growth factor
    is [np.exp(0.0) = 1.0]. *)
Definition weights_eight : list float :=
  [0.3; 0.2; 0.1; 0.1; 0.1; 0.1; 0.05; 0.05]%float.

Definition prices_eight : list float :=
  [100; 50; 20; 10; 5; 3; 2; 1]%float.

Definition growth_none : list float := repeat 1%float 8.

(** Three equal returns. *)
Definition returns_equal : list float := [0.1; 0.1; 0.1]%float.

Set Warnings "+inexact-float".

End Binary64.

(** ** Sample inputs

    Small configurations and generator streams on which the statements
    below are exercised. *)

(** A generator whose n-th variate is [n]. *)
Definition gauss_ramp : nat -> R := fun n => INR n.

Definition identity2 : matrix := [[1; 0]; [0; 1]].

(** Two uncorrelated assets with equal weights. *)
Definition cfg_two : config :=
  mk_config ["CPI"; "FSR"]%string
            [0.5; 0.5] [100; 50] [0.10; 0.05] [0.20; 0.10] identity2.

(** Two uncorrelated assets without drift and without volatility. *)
Definition cfg_still : config :=
  mk_config ["CPI"; "FSR"]%string [0.5; 0.5] [100; 50] [0; 0] [0; 0] identity2.

(** One asset with drift 1 and no volatility. *)
Definition cfg_drift : config :=
  mk_config ["NPN"]%string [1] [1] [1] [0] [[1]].

(** Two assets whose weights sum to 0.75. *)
Definition cfg_light : config :=
  mk_config ["CPI"; "FSR"]%string
            [0.5; 0.25] [100; 50] [0.10; 0.05] [0.20; 0.10] identity2.



(** Decimal literals as ratios of natural numbers. *)
Ltac decimal_ratio := rewrite !INR_IZR_INZ; simpl; lra.

(** * Code around the engine *)

(** ** [_print_summary]: the portfolio value projections

    The three figures printed under "PORTFOLIO VALUE PROJECTIONS", from
    the metrics and the initial portfolio value handed over by
    [run_5M_simulation]. *)
Record projections : Type := mk_projections {
  mean_final : option R;
  p5_final : R;
  p95_final : R
}.

Definition _print_summary (m : metrics) (initial_value : R) : projections :=
  {| mean_final :=
       option_map (fun mean_return => initial_value * (1 + mean_return))
                  (mean_return m);
     p5_final := initial_value * (1 + percentile_5 m);
     p95_final := initial_value * (1 + percentile_95 m) |}.

(** ** [AnalysisIntegration.run_monte_carlo_simulation]

    The helper of the user interface: it builds an engine and returns a
    dictionary; any exception is caught and answered by the empty
    dictionary. *)
Module Integration.

Inductive py_value : Type :=
| PyInt (z : Z)
| PyFloat (r : R)
| PyStr (s : String.string).

(** A dictionary, as its items in insertion order. *)
Definition dict := list (String.string * py_value).

Fixpoint get (d : dict) (key : String.string) : option py_value :=
  match d with
  | [] => None
  | (k, v) :: d' => if String.eqb k key then Some v else get d' key
  end.

Definition run_monte_carlo_simulation
    (n_simulations : nat) (annual_return annual_volatility : R)
    (initial_value : R) (time_horizon : Z) (batch_size : nat) : M dict :=
  fun s =>
    match engine_init n_simulations batch_size s with
    | (Ok engine, s') =>
        (Ok [("n_simulations"%string, PyInt (Z.of_nat n_simulations));
             ("annual_return"%string, PyFloat annual_return);
             ("annual_volatility"%string, PyFloat annual_volatility);
             ("time_horizon"%string, PyInt time_horizon);
             ("initial_value"%string, PyFloat initial_value);
             ("batch_size"%string, PyInt (Z.of_nat batch_size));
             ("status"%string, PyStr "completed"%string)],
         s')
    | (Raise _, s') => (Ok [], s')
    end.

End Integration.

(** ** [PercentileReportGenerator]

    The report generator reads the percentile table back: the column
    [Percentile] as integers and the column [Value]. *)
Module Report.

Record generator : Type := mk_generator {
  percentiles : list Z;
  returns : list R;
  initial_value : R
}.

(** [__init__], from the rows of the table. *)
Definition init (rows : list (Z * R)) (initial_portfolio_value : R)
  : generator :=
  mk_generator (map fst rows) (map snd rows) initial_portfolio_value.

(** [np.where(a == key)[0][0]]: the first position that holds [key]. *)
Fixpoint np_where_first (a : list Z) (key : Z) : outcome nat :=
  match a with
  | [] => Raise IndexError
  | x :: a' =>
      if Z.eqb x key then Ok 0%nat
      else obind (np_where_first a' key) (fun i => Ok (S i))
  end.

(** [values[np.where(keys == key)[0][0]]]. *)
Definition lookup (g : generator) (key : Z) : outcome R :=
  obind (np_where_first (percentiles g) key) (fun i => getitem (returns g) i).

(** [np.interp(x, xp, fp)] on sample points [xp] in non-decreasing order
    (what numpy requires): the interval search ends at the last sample
    point that is not above [x]. *)
Fixpoint interp_from (x x0 y0 : R) (rest : list (R * R)) : R :=
  match rest with
  | [] => y0
  | (x1, y1) :: rest' =>
      if Rle_dec x1 x then interp_from x x1 y1 rest'
      else if Req_dec_T x0 x then y0
           else (y1 - y0) / (x1 - x0) * (x - x0) + y0
  end.

Definition np_interp (x : R) (xp fp : list R) : outcome R :=
  match combine xp fp with
  | [] => Raise ValueError
  | (x0, y0) :: rest =>
      if Rlt_dec x x0 then Ok y0 else Ok (interp_from x x0 y0 rest)
  end.

Record report_metrics : Type := mk_report_metrics {
  median_return : R;
  median_final_value : R;
  prob_loss : R;
  prob_profit : R;
  var_95 : R;
  var_99 : R;
  best_case : R;
  worst_case : R;
  range : R;
  iqr : R;
  final_values : list R;
  gains_losses : list R
}.

Definition calculate_metrics (self : generator) : outcome report_metrics :=
  obind (lookup self 50) (fun median_return =>
  let returns_pct := map (fun r => r * 100) (returns self) in
  obind (np_interp 0 returns_pct (map IZR (percentiles self)))
        (fun prob_loss_pct =>
  let final_values :=
    map (fun r => initial_value self * (1 + r)) (returns self) in
  let gains_losses := map (fun v => v - initial_value self) final_values in
  obind (lookup self 5) (fun r5 =>
  obind (lookup self 1) (fun r1 =>
  obind (getitem (returns self) (length (returns self) - 1)) (fun last =>
  obind (getitem (returns self) 0) (fun first =>
  obind (lookup self 75) (fun r75 =>
  obind (lookup self 25) (fun r25 =>
  Ok {| median_return := median_return * 100;
        median_final_value := initial_value self * (1 + median_return);
        prob_loss := prob_loss_pct;
        prob_profit := 100 - prob_loss_pct;
        var_95 := r5 * 100;
        var_99 := r1 * 100;
        best_case := last * 100;
        worst_case := first * 100;
        range := (last - first) * 100;
        iqr := (r75 - r25) * 100;
        final_values := final_values;
        gains_losses := gains_losses |})))))))).

(** The rows that [export_results] writes for a table whose values are
    all numbers, as the generator reads them back. *)
Definition rows_of_export (table : list (nat * option R))
  : option (list (Z * R)) :=
  fold_right (fun row acc =>
                match snd row, acc with
                | Some v, Some rows => Some ((Z.of_nat (fst row), v) :: rows)
                | _, _ => None
                end)
             (Some []) table.

End Report.

(** ** Variations of a run *)

(** The generator stream after [k] variates have been consumed. *)
Definition shift_stream (gauss : nat -> R) (k : nat) : nat -> R :=
  fun j => gauss (k + j)%nat.

(** * Auxiliary facts *)

Lemma fold_left_Rplus_acc (l : list R) (a : R) :
  fold_left Rplus l a = a + fold_left Rplus l 0.
Proof.
  revert a; induction l as [|x l IH]; intro a; simpl.
  - lra.
  - rewrite IH, (IH (0 + x)). lra.
Qed.

Lemma np_sum_nil : np_sum [] = 0.
Proof. reflexivity. Qed.

Lemma np_sum_cons (x : R) (l : list R) : np_sum (x :: l) = x + np_sum l.
Proof.
  unfold np_sum; simpl. rewrite fold_left_Rplus_acc. lra.
Qed.

Lemma np_sum_app (l1 l2 : list R) : np_sum (l1 ++ l2) = np_sum l1 + np_sum l2.
Proof.
  induction l1 as [|x l1 IH]; simpl.
  - rewrite np_sum_nil; lra.
  - rewrite !np_sum_cons, IH; lra.
Qed.

Lemma np_sum_map_seq (f : nat -> R) (n : nat) :
  np_sum (map f (seq 0 n)) = big_sum f n.
Proof.
  induction n as [|n IH].
  - reflexivity.
  - rewrite seq_S, map_app, np_sum_app, IH. simpl.
    rewrite np_sum_cons, np_sum_nil. lra.
Qed.

Lemma big_sum_ext (f g : nat -> R) (n : nat) :
  (forall i, (i < n)%nat -> f i = g i) -> big_sum f n = big_sum g n.
Proof.
  induction n as [|n IH]; intro H; simpl.
  - reflexivity.
  - rewrite IH by (intros; apply H; lia). rewrite H by lia. reflexivity.
Qed.

Lemma nth_map_seq {A : Type} (f : nat -> A) (n i : nat) (d : A) :
  (i < n)%nat -> nth i (map f (seq 0 n)) d = f i.
Proof.
  intro H.
  rewrite (nth_indep _ d (f 0%nat)) by (rewrite length_map, length_seq; lia).
  rewrite map_nth, seq_nth by lia. reflexivity.
Qed.

Lemma nth_map_R (f : R -> R) (l : list R) (p : nat) :
  (p < length l)%nat -> nth p (map f l) 0 = f (nth p l 0).
Proof.
  intro H. rewrite (nth_indep _ 0 (f 0)) by (rewrite length_map; exact H).
  apply map_nth.
Qed.

Lemma getitem_ok (a : list R) (i : nat) :
  (i < length a)%nat -> getitem a i = Ok (nth i a 0).
Proof.
  intro H. unfold getitem.
  rewrite (nth_error_nth' a 0 H). reflexivity.
Qed.

Lemma getitem_raise (a : list R) (i : nat) :
  (length a <= i)%nat -> getitem a i = Raise IndexError.
Proof.
  intro H. unfold getitem.
  apply nth_error_None in H. rewrite H. reflexivity.
Qed.

Lemma add_arrays_length (u v : list R) :
  length (add_arrays u v) = Nat.min (length u) (length v).
Proof.
  revert v; induction u as [|x u IH]; intros [|y v]; simpl; auto.
Qed.

Lemma add_arrays_nth (u v : list R) (p : nat) :
  (p < length u)%nat -> (p < length v)%nat ->
  nth p (add_arrays u v) 0 = nth p u 0 + nth p v 0.
Proof.
  revert v p; induction u as [|x u IH]; intros [|y v] [|p]; simpl;
    intros Hu Hv; try lia; auto.
  apply IH; lia.
Qed.

(** ** The per-asset body of the batch simulator *)

Section AssetLoop.

Variables w p0 mu sigma : list R.
Variable Zc : ndarray.
Variables B steps N : nat.
Hypothesis Zc_shape : shape Zc = [B; steps; N].

Lemma cumulative_return_nth (i p : nat) :
  (p < B)%nat ->
  nth p (sum_axis1
           (nd_map (fun z => (nth i mu 0 - 0.5 * nth i sigma 0 ^ 2) * dt
                             + nth i sigma 0 * sqrt dt * z)
                   (slice_last Zc i))) 0
  = terminal_log_return (nth i mu 0) (nth i sigma 0) steps
      (fun t => nth ((p * steps + t) * N + i) (data Zc) 0).
Proof.
  intro Hp.
  unfold sum_axis1, nd_map, slice_last. rewrite Zc_shape.
  cbn [shape data].
  rewrite nth_map_seq by exact Hp.
  rewrite np_sum_map_seq. unfold terminal_log_return.
  apply big_sum_ext. intros t Ht.
  rewrite map_map, nth_map_seq by nia.
  unfold step_log_return, dt. lra.
Qed.

Lemma cumulative_return_length (i : nat) (f : R -> R) :
  length (sum_axis1 (nd_map f (slice_last Zc i))) = B.
Proof.
  unfold sum_axis1, nd_map, slice_last. rewrite Zc_shape. cbn [shape data].
  rewrite length_map, length_seq. reflexivity.
Qed.

Lemma asset_loop_ok (idxs : list nat) :
  (forall i, In i idxs ->
     (i < length w /\ i < length p0 /\ i < length mu /\ i < length sigma)%nat) ->
  forall acc, length acc = B ->
  exists res,
    asset_loop w p0 mu sigma Zc idxs acc = Ok res /\
    length res = B /\
    forall p, (p < B)%nat ->
      nth p res 0
      = nth p acc 0
        + np_sum (map (fun i =>
                         terminal_price (nth i p0 0) (nth i mu 0)
                           (nth i sigma 0) steps
                           (fun t => nth ((p * steps + t) * N + i) (data Zc) 0)
                         * nth i w 0) idxs).
Proof.
  induction idxs as [|i rest IH]; intros Hin acc Hacc.
  - exists acc. repeat split; auto. intros p _. simpl. rewrite np_sum_nil. lra.
  - destruct (Hin i (or_introl eq_refl)) as (Hw & Hp0 & Hmu & Hsg).
    cbn [asset_loop].
    rewrite (getitem_ok mu i Hmu), (getitem_ok sigma i Hsg). cbn [obind].
    rewrite (getitem_ok p0 i Hp0), (getitem_ok w i Hw). cbn [obind].
    set (cr := sum_axis1 _).
    set (fp := map (fun x => x * nth i w 0)
                 (map (fun c => nth i p0 0 * exp c) cr)).
    assert (Hcr : length cr = B) by apply cumulative_return_length.
    assert (Hfp : length fp = B).
    { unfold fp. rewrite !length_map. exact Hcr. }
    destruct (IH (fun j Hj => Hin j (or_intror Hj)) (add_arrays acc fp))
      as (res & Hres & Hlen & Hnth).
    { rewrite add_arrays_length, Hacc, Hfp. lia. }
    exists res. repeat split; auto.
    intros p Hp. rewrite (Hnth p Hp).
    rewrite add_arrays_nth by lia.
    cbn [map]. rewrite np_sum_cons.
    assert (Hterm : nth p fp 0
                    = terminal_price (nth i p0 0) (nth i mu 0) (nth i sigma 0)
                        steps
                        (fun t => nth ((p * steps + t) * N + i) (data Zc) 0)
                      * nth i w 0).
    { unfold fp, terminal_price.
      rewrite nth_map_R by (rewrite length_map; lia).
      rewrite nth_map_R by lia.
      unfold cr. rewrite cumulative_return_nth by exact Hp. reflexivity. }
    rewrite Hterm. lra.
Qed.

End AssetLoop.

(** ** Shapes: transpose, Cholesky factor *)

Lemma transpose_length (m : matrix) : length (transpose m) = length m.
Proof. unfold transpose. rewrite length_map, length_seq. reflexivity. Qed.

Lemma transpose_entry (m : matrix) (i j : nat) :
  (i < length m)%nat -> (j < length m)%nat ->
  entry (transpose m) i j = entry m j i.
Proof.
  intros Hi Hj. unfold transpose, entry at 1.
  rewrite nth_map_seq by exact Hi.
  rewrite nth_map_seq by exact Hj. reflexivity.
Qed.

Lemma chol_rows_length (n : nat) (A Lprev L : matrix) :
  chol_rows n A Lprev = Some L -> length L = (length Lprev + length A)%nat.
Proof.
  revert Lprev; induction A as [|Ai A IH]; intros Lprev H; simpl in *.
  - inversion H; subst. lia.
  - destruct (chol_row n Ai Lprev) as [r|]; [|discriminate].
    apply IH in H. rewrite length_app in H. simpl in H. lia.
Qed.

Lemma cholesky_length (A L : matrix) :
  cholesky A = Ok L -> length L = length A.
Proof.
  unfold cholesky. destruct (is_square A); [|discriminate].
  destruct (chol_rows (length A) A []) as [L'|] eqn:E; [|discriminate].
  intro H; inversion H; subst. apply chol_rows_length in E. simpl in E. lia.
Qed.

(** ** The batch simulator on a well-formed input *)

Section BatchOk.

Variable gauss : nat -> R.
Variables w p0 mu sigma : list R.
Variable corr L : matrix.
Variable T : R.

Hypothesis chol_ok : cholesky corr = Ok L.
Hypothesis corr_dim : length corr = length w.
Hypothesis some_asset : (0 < length w)%nat.
Hypothesis p0_len : (length w <= length p0)%nat.
Hypothesis mu_len : (length w <= length mu)%nat.
Hypothesis sigma_len : (length w <= length sigma)%nat.
Hypothesis steps_nonneg : (0 <= py_int (T * 252))%Z.

Lemma simulate_portfolio_batch_ok (B s : nat) :
  let steps := Z.to_nat (py_int (T * 252)) in
  exists res,
    simulate_portfolio_batch gauss w p0 mu sigma corr T B s
    = (Ok res, (s + B * steps * length w)%nat) /\
    length res = B /\
    forall p, (p < B)%nat ->
      nth p res 0
      = portfolio_value w p0 mu sigma steps
          (fun t i => corr_shock gauss L steps (length w) s p t i).
Proof.
  intro steps. set (N := length w).
  assert (HL : length L = N).
  { rewrite (cholesky_length _ _ chol_ok). exact corr_dim. }
  unfold simulate_portfolio_batch, bind, lift. rewrite chol_ok.
  unfold standard_normal.
  destruct (Z.ltb_spec (py_int (T * 252)) 0) as [Hneg|_]; [lia|].
  fold steps. fold N.
  set (sz := (B * steps * N)%nat).
  unfold reshape_rows. cbn [data].
  rewrite length_map, length_seq.
  destruct (Nat.eqb_spec N 0) as [HN0|HN0]; [unfold N in HN0; lia|].
  assert (Hmod : (sz mod N = 0)%nat).
  { unfold sz. apply Nat.Div0.mod_mul. }
  rewrite Hmod. cbn [Nat.eqb].
  assert (Hdiv : (sz / N = B * steps)%nat).
  { unfold sz. apply Nat.div_mul. exact HN0. }
  rewrite Hdiv.
  unfold matmul. cbn [shape data].
  rewrite transpose_length, HL, Nat.eqb_refl.
  unfold reshape3. cbn [data].
  rewrite length_map, length_seq.
  replace (B * steps * N =? B * steps * N)%nat with true
    by (symmetry; apply Nat.eqb_refl).
  set (Zc := mk_ndarray [B; steps; N] _).
  destruct (asset_loop_ok w p0 mu sigma Zc B steps N eq_refl (seq 0 N))
    with (acc := np_zeros B) as (res & Hres & Hlen & Hnth).
  { intros i Hi. apply in_seq in Hi. unfold N in *. lia. }
  { unfold np_zeros. apply repeat_length. }
  exists res. split; [|split].
  - rewrite Hres. reflexivity.
  - exact Hlen.
  - intros p Hp. rewrite (Hnth p Hp).
    unfold np_zeros. rewrite nth_repeat.
    rewrite np_sum_map_seq. unfold portfolio_value. fold N.
    rewrite Rplus_0_l. apply big_sum_ext. intros i Hi.
    f_equal. unfold terminal_price, terminal_log_return. f_equal. f_equal.
    apply big_sum_ext. intros t Ht. f_equal. f_equal.
    unfold Zc. cbn [data].
    assert (Hrow : (p * steps + t < B * steps)%nat) by nia.
    assert (Hidx : ((p * steps + t) * N + i < B * steps * N)%nat).
    { apply Nat.lt_le_trans with ((p * steps + t + 1) * N)%nat; [lia|].
      apply Nat.mul_le_mono_r. lia. }
    rewrite nth_map_seq by exact Hidx.
    rewrite np_sum_map_seq. unfold corr_shock.
    assert (Hq : (((p * steps + t) * N + i) / N = p * steps + t)%nat).
    { rewrite Nat.div_add_l by exact HN0.
      rewrite Nat.div_small by exact Hi. lia. }
    assert (Hr : (((p * steps + t) * N + i) mod N = i)%nat).
    { rewrite Nat.add_comm, Nat.Div0.mod_add. apply Nat.mod_small. exact Hi. }
    rewrite Hq, Hr.
    apply big_sum_ext. intros k Hk.
    rewrite transpose_entry by lia.
    rewrite nth_map_seq.
    + reflexivity.
    + unfold sz.
      apply Nat.lt_le_trans with ((p * steps + t + 1) * N)%nat; [lia|].
      apply Nat.mul_le_mono_r. lia.
Qed.

End BatchOk.

(** ** Integer parts *)

Lemma py_int_INR (n : nat) : py_int (INR n) = Z.of_nat n.
Proof.
  unfold py_int. destruct (Rle_dec 0 (INR n)) as [_|H].
  - apply Int_part_INR.
  - exfalso. apply H. apply pos_INR.
Qed.

(** [int(n * (a / b))] is the integer quotient [n * a / b]. *)
Lemma py_int_ratio (n a b : nat) :
  (0 < b)%nat ->
  py_int (INR n * (INR a / INR b)) = Z.of_nat (n * a / b).
Proof.
  intro Hb.
  assert (HbR : 0 < INR b) by (apply lt_0_INR; exact Hb).
  set (q := (n * a / b)%nat).
  assert (Hlo : (q * b <= n * a)%nat).
  { unfold q. rewrite Nat.mul_comm. apply Nat.Div0.mul_div_le. }
  assert (Hhi : (n * a < (q + 1) * b)%nat).
  { unfold q. pose proof (Nat.mul_succ_div_gt (n * a) b). lia. }
  assert (Hx : INR n * (INR a / INR b) = INR (n * a) / INR b).
  { rewrite mult_INR. field. lra. }
  rewrite Hx.
  assert (Hge : INR q <= INR (n * a) / INR b).
  { apply Rmult_le_reg_r with (INR b); [exact HbR|].
    replace (INR (n * a) / INR b * INR b) with (INR (n * a)) by (field; lra).
    rewrite <- mult_INR. apply le_INR. exact Hlo. }
  assert (Hlt : INR (n * a) / INR b < INR q + 1).
  { apply Rmult_lt_reg_r with (INR b); [exact HbR|].
    replace (INR (n * a) / INR b * INR b) with (INR (n * a)) by (field; lra).
    replace ((INR q + 1) * INR b) with (INR ((q + 1) * b))
      by (rewrite mult_INR, plus_INR; simpl; ring).
    apply lt_INR. exact Hhi. }
  unfold py_int.
  destruct (Rle_dec 0 (INR (n * a) / INR b)) as [_|H].
  - symmetry. apply Int_part_spec. rewrite <- INR_IZR_INZ. lra.
  - exfalso. apply H. pose proof (pos_INR q). lra.
Qed.

(** [int(np.ceil(S / K))] is the ceiling of the quotient. *)
Lemma n_batches_exact (S K : nat) :
  (0 < K)%nat ->
  py_int (np_ceil (INR S / INR K)) = Z.of_nat (ceil_div S K).
Proof.
  intro HK. unfold ceil_div.
  assert (HKR : 0 < INR K) by (apply lt_0_INR; exact HK).
  set (q := ((S + K - 1) / K)%nat).
  assert (Hlo : (S <= q * K)%nat).
  { unfold q. pose proof (Nat.mul_succ_div_gt (S + K - 1) K). lia. }
  assert (Hhi : (q * K < S + K)%nat).
  { unfold q. pose proof (Nat.Div0.mul_div_le (S + K - 1) K). lia. }
  assert (Hc : Int_part (- (INR S / INR K)) = (- Z.of_nat q)%Z).
  { symmetry. apply Int_part_spec. rewrite opp_IZR, <- INR_IZR_INZ.
    assert (INR S / INR K <= INR q).
    { apply Rmult_le_reg_r with (INR K); [exact HKR|].
      replace (INR S / INR K * INR K) with (INR S) by (field; lra).
      rewrite <- mult_INR. apply le_INR. exact Hlo. }
    assert (INR q < INR S / INR K + 1).
    { apply Rmult_lt_reg_r with (INR K); [exact HKR|].
      replace ((INR S / INR K + 1) * INR K) with (INR (S + K))
        by (rewrite plus_INR; field; lra).
      rewrite <- mult_INR. apply lt_INR. exact Hhi. }
    lra. }
  unfold np_ceil. rewrite Hc, Z.opp_involutive, <- INR_IZR_INZ.
  apply py_int_INR.
Qed.

(** ** Slice assignment *)

Lemma set_slice_ok (a v : list R) (start stop : nat) :
  (start <= stop)%nat -> (stop <= length a)%nat ->
  length v = (stop - start)%nat ->
  set_slice a start stop v = Ok (firstn start a ++ v ++ skipn stop a).
Proof.
  intros H1 H2 H3. unfold set_slice.
  rewrite (Nat.min_l stop (length a)) by exact H2.
  rewrite (Nat.min_l start stop) by exact H1.
  rewrite H3, Nat.eqb_refl. reflexivity.
Qed.

Lemma slice_written_length (a v : list R) (start stop : nat) :
  (start <= stop)%nat -> (stop <= length a)%nat ->
  length v = (stop - start)%nat ->
  length (firstn start a ++ v ++ skipn stop a) = length a.
Proof.
  intros H1 H2 H3.
  rewrite !length_app, length_firstn, length_skipn, H3. lia.
Qed.

Lemma slice_written_nth (a v : list R) (start stop g : nat) :
  (start <= stop)%nat -> (stop <= length a)%nat ->
  length v = (stop - start)%nat ->
  nth g (firstn start a ++ v ++ skipn stop a) 0
  = if (g <? start)%nat then nth g a 0
    else if (g <? stop)%nat then nth (g - start) v 0
         else nth g a 0.
Proof.
  intros H1 H2 H3.
  assert (Hf : length (firstn start a) = start)
    by (rewrite length_firstn; lia).
  destruct (Nat.ltb_spec g start) as [Hg|Hg].
  - rewrite app_nth1 by lia.
    rewrite nth_firstn. destruct (Nat.ltb_spec g start); [reflexivity|lia].
  - rewrite app_nth2 by lia. rewrite Hf.
    destruct (Nat.ltb_spec g stop) as [Hs|Hs].
    + rewrite app_nth1 by lia. reflexivity.
    + rewrite app_nth2 by lia. rewrite nth_skipn. f_equal. lia.
Qed.

(** ** The batch loop *)

Lemma corr_shock_shift (gauss : nat -> R) (L : matrix) (steps N b p t i : nat) :
  corr_shock gauss L steps N (b * steps * N) p t i
  = corr_shock gauss L steps N 0 (b + p) t i.
Proof.
  unfold corr_shock. apply big_sum_ext. intros k _.
  f_equal. f_equal. ring.
Qed.

Lemma portfolio_value_ext (w p0 mu sigma : list R) (steps : nat)
    (f g : nat -> nat -> R) :
  (forall t i, f t i = g t i) ->
  portfolio_value w p0 mu sigma steps f = portfolio_value w p0 mu sigma steps g.
Proof.
  intro H. unfold portfolio_value. apply big_sum_ext. intros i _.
  f_equal. unfold terminal_price, terminal_log_return. f_equal. f_equal.
  apply big_sum_ext. intros t _. rewrite H. reflexivity.
Qed.

Section RunOk.

Variable gauss : nat -> R.
Variables n_sims K : nat.
Variable cfg : config.
Variable L : matrix.
Variable T : R.

Hypothesis wf : sim_ready cfg L T.
Hypothesis K_pos : (0 < K)%nat.

Lemma batch_loop_ok (nb : Z) (m : nat) :
  forall b all trace,
    length all = n_sims ->
    (forall g, (g < filled n_sims K b)%nat ->
       nth g all 0 = path_value gauss cfg L (Z.to_nat (py_int (T * 252))) g) ->
    ((b + m) * K < n_sims + K)%nat ->
    exists all',
      batch_loop gauss (mk_engine n_sims K nb) cfg T (seq b m) all trace
        (filled n_sims K b * Z.to_nat (py_int (T * 252))
         * length (cfg_weights cfg))%nat
      = (Ok (all', trace ++ map (batch_range n_sims K) (seq b m)),
         (filled n_sims K (b + m) * Z.to_nat (py_int (T * 252))
          * length (cfg_weights cfg))%nat) /\
      length all' = n_sims /\
      forall g, (g < filled n_sims K (b + m))%nat ->
        nth g all' 0 = path_value gauss cfg L (Z.to_nat (py_int (T * 252))) g.
Proof.
  destruct wf as (Hchol & Hdim & Hpos & Hp0 & Hmu & Hsg & Hst).
  set (steps := Z.to_nat (py_int (T * 252))).
  set (N := length (cfg_weights cfg)).
  induction m as [|m IH]; intros b all trace Hlen Hall Hm.
  - exists all. cbn [seq batch_loop map]. rewrite app_nil_r, Nat.add_0_r.
    unfold ret. repeat split; auto.
  - cbn [seq batch_loop]. unfold bind at 1.
    assert (HbS : (b * K < n_sims)%nat) by nia.
    assert (Hfb : filled n_sims K b = (b * K)%nat) by (unfold filled; lia).
    assert (Hfb1 : filled n_sims K (b + 1) = Nat.min (b * K + K) n_sims)
      by (unfold filled; f_equal; ring).
    unfold batch_end, batch_start. cbn [batch_size n_simulations].
    set (b_end := Nat.min (b * K + K) n_sims).
    destruct (simulate_portfolio_batch_ok gauss (cfg_weights cfg)
                (cfg_initial_prices cfg) (cfg_expected_returns cfg)
                (cfg_volatilities cfg) (cfg_correlation_matrix cfg) L T
                Hchol Hdim Hpos Hp0 Hmu Hsg Hst
                (b_end - b * K)%nat (filled n_sims K b * steps * N)%nat)
      as (res & Hres & Hrlen & Hrnth).
    fold steps in Hres, Hrnth. fold N in Hres, Hrnth.
    rewrite Hres.
    unfold bind at 1, lift.
    rewrite set_slice_ok by (unfold b_end; lia).
    set (all1 := firstn (b * K) all ++ res ++ skipn b_end all).
    assert (Hs1 : (filled n_sims K b * steps * N + (b_end - b * K) * steps * N
                   = filled n_sims K (b + 1) * steps * N)%nat).
    { rewrite Hfb, Hfb1. fold b_end.
      replace (b * K * steps * N + (b_end - b * K) * steps * N)%nat
        with ((b * K + (b_end - b * K)) * steps * N)%nat by ring.
      f_equal. f_equal. unfold b_end. lia. }
    rewrite Hs1.
    destruct (IH (b + 1)%nat all1
                 (trace ++ [((b * K)%nat, b_end, (b_end - b * K)%nat)]))
      as (all' & Hrun & Hlen' & Hnth').
    + unfold all1. rewrite slice_written_length; auto; unfold b_end; lia.
    + intros g Hg. unfold all1.
      rewrite slice_written_nth by (unfold b_end; lia).
      destruct (Nat.ltb_spec g (b * K)) as [Hlt|Hge].
      * apply Hall. lia.
      * rewrite Hfb1 in Hg. fold b_end in Hg.
        destruct (Nat.ltb_spec g b_end) as [_|]; [|lia].
        rewrite Hrnth by lia. unfold path_value. fold N.
        apply portfolio_value_ext. intros t i.
        rewrite Hfb. rewrite corr_shock_shift. f_equal. lia.
    + lia.
    + exists all'. replace (S b) with (b + 1)%nat by lia.
      replace (b + S m)%nat with (b + 1 + m)%nat by lia.
      split; [|split; assumption].
      rewrite Hrun. f_equal. f_equal. cbn [map].
      rewrite <- app_assoc. reflexivity.
Qed.

End RunOk.

(** ** Sorting *)

Lemma insert_sorted_perm (x : R) (l : list R) :
  Permutation (insert_sorted x l) (x :: l).
Proof.
  induction l as [|y l IH]; simpl.
  - apply Permutation_refl.
  - destruct (Rle_dec x y).
    + apply Permutation_refl.
    + apply Permutation_trans with (y :: x :: l).
      * apply perm_skip. exact IH.
      * apply perm_swap.
Qed.

Lemma np_sort_perm (l : list R) : Permutation (np_sort l) l.
Proof.
  induction l as [|x l IH]; simpl.
  - apply perm_nil.
  - apply Permutation_trans with (x :: np_sort l).
    + apply insert_sorted_perm.
    + apply perm_skip. exact IH.
Qed.

Lemma np_sort_length (l : list R) : length (np_sort l) = length l.
Proof. apply Permutation_length, np_sort_perm. Qed.

Lemma insert_sorted_sorted (x : R) (l : list R) :
  StronglySorted Rle l -> StronglySorted Rle (insert_sorted x l).
Proof.
  induction l as [|y l IH]; intro Hs; simpl.
  - constructor; constructor.
  - apply StronglySorted_inv in Hs. destruct Hs as [Hs Hall].
    destruct (Rle_dec x y) as [Hxy|Hxy].
    + constructor.
      * constructor; assumption.
      * constructor; [exact Hxy|].
        eapply Forall_impl; [|exact Hall]. intros z Hz. cbv beta in Hz. lra.
    + constructor.
      * apply IH. exact Hs.
      * apply (Permutation_Forall (Permutation_sym (insert_sorted_perm x l))).
        constructor; [lra|exact Hall].
Qed.

Lemma np_sort_sorted (l : list R) : StronglySorted Rle (np_sort l).
Proof.
  induction l as [|x l IH]; simpl.
  - constructor.
  - apply insert_sorted_sorted. exact IH.
Qed.

Lemma sorted_nth_le (s : list R) :
  StronglySorted Rle s ->
  forall i j, (i <= j)%nat -> (j < length s)%nat -> nth i s 0 <= nth j s 0.
Proof.
  induction 1 as [|x s Hs IH Hall]; intros i j Hij Hj; simpl in Hj.
  - lia.
  - destruct i as [|i], j as [|j]; simpl; try lia.
    + lra.
    + rewrite Forall_forall in Hall. apply Hall. apply nth_In. lia.
    + apply IH; lia.
Qed.

(** ** Ranks *)

Lemma Int_part_ratio (n a b : nat) :
  (0 < b)%nat ->
  Int_part (INR n * (INR a / INR b)) = Z.of_nat (n * a / b).
Proof.
  intro Hb. rewrite <- (py_int_ratio n a b Hb). unfold py_int.
  destruct (Rle_dec 0 (INR n * (INR a / INR b))) as [_|H]; [reflexivity|].
  exfalso. apply H.
  apply Rmult_le_pos; [apply pos_INR|].
  apply Rmult_le_pos; [apply pos_INR|].
  left. apply Rinv_0_lt_compat, lt_0_INR. exact Hb.
Qed.

Lemma rank_below (n a b : nat) :
  (0 < n)%nat -> (a < b)%nat -> (n * a / b < n)%nat.
Proof.
  intros Hn Hab. apply Nat.Div0.div_lt_upper_bound. nia.
Qed.

Lemma py_int_rank (n a b : nat) (p : R) :
  (0 < b)%nat -> p = INR a / INR b ->
  Z.to_nat (py_int (INR n * p)) = (n * a / b)%nat.
Proof.
  intros Hb ->. rewrite py_int_ratio by exact Hb. apply Nat2Z.id.
Qed.

Lemma floor_rank_ratio (n a b : nat) (p : R) :
  (0 < b)%nat -> p = INR a / INR b ->
  floor_rank n p = (n * a / b)%nat.
Proof.
  intros Hb ->. unfold floor_rank.
  rewrite Int_part_ratio by exact Hb. apply Nat2Z.id.
Qed.

Lemma rank_item_ok (s : list R) (n a b : nat) (p : R) :
  length s = n -> (0 < n)%nat -> (a < b)%nat -> p = INR a / INR b ->
  rank_item s n p = Ok (nth (n * a / b) s 0).
Proof.
  intros Hlen Hn Hab Hp. unfold rank_item.
  rewrite (py_int_rank n a b p) by (lia || exact Hp).
  apply getitem_ok. rewrite Hlen. apply rank_below; assumption.
Qed.

Lemma tail_mean_ratio (s : list R) (n a b : nat) (p : R) :
  (0 < b)%nat -> p = INR a / INR b ->
  tail_mean s n p = np_mean (firstn (n * a / b) s).
Proof.
  intros Hb Hp. unfold tail_mean.
  rewrite (py_int_rank n a b p Hb Hp). reflexivity.
Qed.

(** The metrics of a non-empty returns array. *)
Lemma calculate_metrics_ok (returns : list R) :
  (0 < length returns)%nat ->
  let s := np_sort returns in
  let n := length returns in
  exists m,
    _calculate_metrics returns = Ok m /\
    (percentile_1 m = nth (n * 1 / 100) s 0 /\
     percentile_5 m = nth (n * 5 / 100) s 0 /\
     percentile_25 m = nth (n * 25 / 100) s 0 /\
     percentile_75 m = nth (n * 75 / 100) s 0 /\
     percentile_95 m = nth (n * 95 / 100) s 0 /\
     percentile_99 m = nth (n * 99 / 100) s 0) /\
    (VaR_95 m = nth (n * 5 / 100) s 0 /\
     VaR_99 m = nth (n * 1 / 100) s 0 /\
     VaR_999 m = nth (n * 1 / 1000) s 0) /\
    (CVaR_95 m = np_mean (firstn (n * 5 / 100) s) /\
     CVaR_99 m = np_mean (firstn (n * 1 / 100) s) /\
     CVaR_999 m = np_mean (firstn (n * 1 / 1000) s)) /\
    mean_return m = np_mean returns /\
    std_return m = np_std returns.
Proof.
  intros Hn s n.
  assert (Hlen : length s = n) by apply np_sort_length.
  unfold _calculate_metrics. fold s. rewrite Hlen.
  rewrite (rank_item_ok s n 1 100 0.01) by (auto; lia || decimal_ratio).
  rewrite (rank_item_ok s n 5 100 0.05) by (auto; lia || decimal_ratio).
  rewrite (rank_item_ok s n 25 100 0.25) by (auto; lia || decimal_ratio).
  rewrite (rank_item_ok s n 75 100 0.75) by (auto; lia || decimal_ratio).
  rewrite (rank_item_ok s n 95 100 0.95) by (auto; lia || decimal_ratio).
  rewrite (rank_item_ok s n 99 100 0.99) by (auto; lia || decimal_ratio).
  rewrite (rank_item_ok s n 1 1000 0.001) by (auto; lia || decimal_ratio).
  cbn [obind].
  rewrite (tail_mean_ratio s n 5 100 0.05) by (lia || decimal_ratio).
  rewrite (tail_mean_ratio s n 1 100 0.01) by (lia || decimal_ratio).
  rewrite (tail_mean_ratio s n 1 1000 0.001) by (lia || decimal_ratio).
  eexists. split; [reflexivity|]. cbn.
  repeat split; reflexivity.
Qed.

(** ** Sums of products *)

Lemma big_sum_shift (f : nat -> R) (n : nat) :
  big_sum f (S n) = f 0%nat + big_sum (fun i => f (S i)) n.
Proof.
  induction n as [|n IH].
  - simpl. lra.
  - change (big_sum f (S (S n))) with (big_sum f (S n) + f (S n)).
    rewrite IH. simpl. lra.
Qed.

Lemma dot_big_sum (u v : list R) :
  dot u v = big_sum (fun i => nth i u 0 * nth i v 0)
                    (Nat.min (length u) (length v)).
Proof.
  unfold dot. revert v; induction u as [|x u IH]; intros [|y v];
    try reflexivity.
  cbn [combine map length Nat.min]. rewrite np_sum_cons, IH.
  rewrite big_sum_shift. reflexivity.
Qed.

Lemma mul_arrays_same_length (u v : list R) :
  length v = length u ->
  mul_arrays u v = Ok (map (fun p => fst p * snd p) (combine u v)) /\
  np_sum (map (fun p => fst p * snd p) (combine u v)) = initial_value u v.
Proof.
  intro H. split.
  - unfold mul_arrays. rewrite H, Nat.eqb_refl. reflexivity.
  - change (np_sum (map (fun p => fst p * snd p) (combine u v)))
      with (dot u v).
    rewrite dot_big_sum, H, Nat.min_id. reflexivity.
Qed.

(** ** A whole run on a well-formed configuration *)

Lemma filled_all (n_sims K : nat) :
  (0 < K)%nat -> filled n_sims K (ceil_div n_sims K) = n_sims.
Proof.
  intro HK. unfold filled, ceil_div.
  pose proof (Nat.mul_succ_div_gt (n_sims + K - 1) K). lia.
Qed.

Lemma ceil_div_bound (n_sims K : nat) :
  (0 < K)%nat -> (ceil_div n_sims K * K < n_sims + K)%nat.
Proof.
  intro HK. unfold ceil_div.
  pose proof (Nat.Div0.mul_div_le (n_sims + K - 1) K). lia.
Qed.

Lemma nth_ext_R (l1 l2 : list R) :
  length l1 = length l2 ->
  (forall g, (g < length l1)%nat -> nth g l1 0 = nth g l2 0) ->
  l1 = l2.
Proof.
  intros Hl Hn. apply (nth_ext l1 l2 0 0); assumption.
Qed.

Lemma well_formed_ready (cfg : config) (L : matrix) (T : R) :
  well_formed cfg L T -> sim_ready cfg L T.
Proof.
  intros (H1 & H2 & H3 & H4 & H5 & H6 & H7).
  repeat split; try assumption. lia.
Qed.

(** The run on a configuration the batch simulator accepts, for any
    number of simulations: the batches fill the result array with the
    terminal values of the paths, then the metrics are computed. *)
Lemma run_ready (gauss : nat -> R) (n_sims K : nat) (cfg : config)
    (L : matrix) (T : R) (s : rng) (products : list R) :
  sim_ready cfg L T -> (0 < K)%nat ->
  mul_arrays (cfg_weights cfg) (cfg_initial_prices cfg) = Ok products ->
  let steps := Z.to_nat (py_int (T * 252)) in
  let V0 := np_sum products in
  let fv := map (path_value gauss cfg L steps) (seq 0 n_sims) in
  let rets := map (fun v => (v - V0) / V0) fv in
  run gauss n_sims K cfg T s
  = (obind (_calculate_metrics rets)
       (fun m => Ok (mk_results fv rets m cfg (batch_ranges n_sims K))),
     (n_sims * steps * length (cfg_weights cfg))%nat).
Proof.
  intros Hwf HK Hmul steps V0 fv rets.
  unfold run, bind at 1, engine_init.
  destruct (Nat.eqb_spec K 0) as [HK0|_]; [lia|].
  rewrite n_batches_exact by exact HK.
  unfold run_5M_simulation, bind at 1, lift.
  rewrite Hmul. fold V0.
  cbn [n_simulations n_batches]. rewrite Nat2Z.id.
  destruct (batch_loop_ok gauss n_sims K cfg L T Hwf HK
              (Z.of_nat (ceil_div n_sims K)) (ceil_div n_sims K)
              0%nat (np_zeros n_sims) [])
    as (all' & Hrun & Hlen & Hnth).
  { apply repeat_length. }
  { unfold filled. simpl. intros g Hg. lia. }
  { rewrite Nat.add_0_l. apply ceil_div_bound. exact HK. }
  unfold filled at 1 in Hrun. cbn [Nat.mul Nat.min] in Hrun.
  rewrite Nat.add_0_l, filled_all in Hrun, Hnth by exact HK.
  unfold bind at 1. cbn [Nat.mul] in Hrun. rewrite Hrun. cbn [fst snd app].
  assert (Hfv : all' = fv).
  { apply nth_ext_R.
    - unfold fv. rewrite length_map, length_seq. exact Hlen.
    - intros g Hg. rewrite Hlen in Hg. rewrite (Hnth g Hg).
      unfold fv. rewrite nth_map_seq by exact Hg. reflexivity. }
  rewrite Hfv. fold rets. unfold bind, lift.
  destruct (_calculate_metrics rets) as [m|e]; reflexivity.
Qed.

Lemma run_ok (gauss : nat -> R) (n_sims K : nat) (cfg : config)
    (L : matrix) (T : R) (s : rng) :
  well_formed cfg L T -> (0 < K)%nat -> (0 < n_sims)%nat ->
  let steps := Z.to_nat (py_int (T * 252)) in
  let V0 := initial_value (cfg_weights cfg) (cfg_initial_prices cfg) in
  let fv := map (path_value gauss cfg L steps) (seq 0 n_sims) in
  let rets := map (fun v => (v - V0) / V0) fv in
  exists m,
    _calculate_metrics rets = Ok m /\
    run gauss n_sims K cfg T s
    = (Ok (mk_results fv rets m cfg (batch_ranges n_sims K)),
       (n_sims * steps * length (cfg_weights cfg))%nat).
Proof.
  intros Hwf HK HS steps V0 fv rets.
  destruct (calculate_metrics_ok rets) as (m & Hm & _).
  { unfold rets, fv. rewrite !length_map, length_seq. exact HS. }
  exists m. split; [exact Hm|].
  pose proof Hwf as (_ & _ & _ & Hp0 & _).
  destruct (mul_arrays_same_length (cfg_weights cfg) (cfg_initial_prices cfg) Hp0)
    as [Hmul Hsum].
  rewrite (run_ready gauss n_sims K cfg L T s _
             (well_formed_ready _ _ _ Hwf) HK Hmul).
  rewrite Hsum. fold V0. fold steps. fold fv. fold rets. rewrite Hm.
  reflexivity.
Qed.

(** ** The Cholesky factor *)












(** ** Finite sums *)






Lemma big_sum_nonneg (f : nat -> R) (n : nat) :
  (forall i, (i < n)%nat -> 0 <= f i) -> 0 <= big_sum f n.
Proof.
  induction n as [|n IH]; intro H; simpl.
  - lra.
  - assert (0 <= big_sum f n) by (apply IH; intros; apply H; lia).
    assert (0 <= f n) by (apply H; lia). lra.
Qed.





(** ** Sample inputs are well-formed *)

Lemma py_int_nonneg (r : R) : 0 <= r -> (0 <= py_int r)%Z.
Proof.
  intro Hr. unfold py_int. destruct (Rle_dec 0 r) as [_|H]; [|contradiction].
  destruct (base_Int_part r) as [Hle Hgt].
  apply Z.lt_succ_r. apply lt_IZR. rewrite succ_IZR. lra.
Qed.

Lemma cholesky_identity2 : exists L, cholesky identity2 = Ok L.
Proof.
  unfold cholesky, identity2. cbn [is_square forallb length Nat.eqb andb].
  cbn [chol_rows]. unfold chol_row at 1, chol_offdiag, dot.
  cbn [fold_left length app nth combine map np_sum Nat.sub repeat].
  destruct (Rlt_dec 0 (1 - 0)) as [_|H]; [|exfalso; apply H; lra].
  unfold chol_row, chol_offdiag, dot.
  cbn [fold_left length app nth combine map np_sum Nat.sub repeat fst snd].
  match goal with
  | |- context [Rlt_dec 0 ?d] => destruct (Rlt_dec 0 d) as [_|H]
  end.
  - eexists. reflexivity.
  - exfalso. apply H. unfold Rdiv. lra.
Qed.

Lemma cfg_two_well_formed (T : R) :
  0 <= T -> exists L, well_formed cfg_two L T.
Proof.
  intro HT. destruct cholesky_identity2 as [L HL]. exists L.
  unfold well_formed, cfg_two. cbn.
  repeat split; try lia; try exact HL.
  apply py_int_nonneg. lra.
Qed.

(** ** Order statistics of a sorted array *)

Lemma sorted_split (s : list R) (k : nat) (x y : R) :
  StronglySorted Rle s ->
  In x (firstn k s) -> In y (skipn k s) -> x <= y.
Proof.
  intros Hs Hx Hy.
  destruct (In_nth _ _ 0 Hx) as (i & Hi & <-).
  destruct (In_nth _ _ 0 Hy) as (j & Hj & <-).
  rewrite length_firstn in Hi. rewrite length_skipn in Hj.
  rewrite nth_firstn, nth_skipn.
  destruct (Nat.ltb_spec i k) as [_|]; [|lia].
  apply sorted_nth_le; [exact Hs|lia|lia].
Qed.

Lemma nearest_rank_ratio (s : list R) (a b : nat) (p : R) :
  (0 < b)%nat -> p = INR a / INR b ->
  nearest_rank s p = nth (length s * a / b) s 0.
Proof.
  intros Hb Hp. unfold nearest_rank.
  rewrite (floor_rank_ratio _ a b p Hb Hp). reflexivity.
Qed.

(** ** The mean of a leading slice *)

Lemma np_mean_firstn_none (k : nat) (s : list R) :
  k = 0%nat -> np_mean (firstn k s) = None.
Proof. intros ->. reflexivity. Qed.

Lemma np_mean_firstn_some (k : nat) (s : list R) :
  (1 <= length s)%nat ->
  (exists v, np_mean (firstn k s) = Some v) <-> (1 <= k)%nat.
Proof.
  intro Hs. destruct k as [|k].
  - simpl. split; [intros [v H]; discriminate|lia].
  - destruct s as [|x s]; [simpl in Hs; lia|].
    split; [lia|]. intros _. simpl. eexists. reflexivity.
Qed.

Lemma threshold_rank (n a b : nat) :
  (0 < a)%nat -> (0 < b)%nat ->
  (1 <= n * a / b)%nat <-> INR b / INR a <= INR n.
Proof.
  intros Ha Hb.
  assert (HaR : 0 < INR a) by (apply lt_0_INR; exact Ha).
  split.
  - intro H.
    assert (Hba : (b <= n * a)%nat).
    { pose proof (Nat.Div0.mul_div_le (n * a) b). nia. }
    apply le_INR in Hba. rewrite mult_INR in Hba.
    apply Rmult_le_reg_r with (INR a); [exact HaR|].
    replace (INR b / INR a * INR a) with (INR b) by (field; lra). exact Hba.
  - intro H.
    assert (Hba : INR b <= INR (n * a)).
    { rewrite mult_INR.
      replace (INR b) with (INR b / INR a * INR a) by (field; lra).
      apply Rmult_le_compat_r; lra. }
    apply INR_le in Hba.
    apply Nat.div_le_lower_bound; lia.
Qed.

(** ** The schedule *)

Lemma ceil_div_least (n_sims K : nat) :
  (0 < K)%nat -> (0 < n_sims)%nat ->
  ((ceil_div n_sims K - 1) * K < n_sims <= ceil_div n_sims K * K)%nat.
Proof.
  intros HK HS. unfold ceil_div.
  pose proof (Nat.Div0.mul_div_le (n_sims + K - 1) K).
  pose proof (Nat.mul_succ_div_gt (n_sims + K - 1) K).
  nia.
Qed.

Lemma ceil_div_one (n_sims K : nat) :
  (0 < n_sims)%nat -> (n_sims <= K)%nat -> ceil_div n_sims K = 1%nat.
Proof.
  intros HS HK. unfold ceil_div.
  assert (H1 : ((n_sims + K - 1) / K < 2)%nat)
    by (apply Nat.Div0.div_lt_upper_bound; lia).
  assert (H2 : (1 <= (n_sims + K - 1) / K)%nat)
    by (apply Nat.div_le_lower_bound; lia).
  lia.
Qed.

Lemma batch_range_inside (n_sims K b : nat) :
  (0 < K)%nat -> (b < ceil_div n_sims K)%nat ->
  (b * K < n_sims)%nat /\
  ((S b < ceil_div n_sims K)%nat ->
   Nat.min (b * K + K) n_sims = (S b * K)%nat) /\
  (S b = ceil_div n_sims K -> Nat.min (b * K + K) n_sims = n_sims).
Proof.
  intros HK Hb.
  assert (HS : (0 < n_sims)%nat).
  { destruct n_sims; [|lia]. unfold ceil_div in Hb.
    rewrite Nat.div_small in Hb by lia. lia. }
  pose proof (ceil_div_least n_sims K HK HS) as [Hlo Hhi].
  repeat split; try nia.
Qed.

(** The values of the batch that covers [start, stop) are the slice
    [start : stop] of the array of all terminal values. *)
Lemma batch_values_slice (gauss : nat -> R) (n_sims K : nat) (cfg : config)
    (L : matrix) (T : R) (b : nat) :
  well_formed cfg L T -> (b * K < n_sims)%nat ->
  let steps := Z.to_nat (py_int (T * 252)) in
  let N := length (cfg_weights cfg) in
  let start := (b * K)%nat in
  let stop := Nat.min (b * K + K) n_sims in
  simulate_portfolio_batch gauss (cfg_weights cfg) (cfg_initial_prices cfg)
    (cfg_expected_returns cfg) (cfg_volatilities cfg)
    (cfg_correlation_matrix cfg) T (stop - start) (start * steps * N)%nat
  = (Ok (firstn (stop - start)
           (skipn start (map (path_value gauss cfg L steps) (seq 0 n_sims)))),
     (stop * steps * N)%nat).
Proof.
  intros (Hchol & Hdim & Hpos & Hp0 & Hmu & Hsg & Hst) Hb steps N start stop.
  destruct (simulate_portfolio_batch_ok gauss (cfg_weights cfg)
              (cfg_initial_prices cfg) (cfg_expected_returns cfg)
              (cfg_volatilities cfg) (cfg_correlation_matrix cfg) L T
              Hchol Hdim Hpos ltac:(lia) Hmu Hsg Hst
              (stop - start)%nat (start * steps * N)%nat)
    as (vals & Hrun & Hlen & Hnth).
  fold steps in Hrun, Hnth. fold N in Hrun, Hnth.
  rewrite Hrun. f_equal.
  - f_equal. apply nth_ext_R.
    + rewrite Hlen, length_firstn, length_skipn, length_map, length_seq.
      unfold stop, start. lia.
    + intros g Hg. rewrite Hlen in Hg. rewrite (Hnth g Hg).
      rewrite nth_firstn.
      destruct (Nat.ltb_spec g (stop - start)) as [_|]; [|lia].
      rewrite nth_skipn, nth_map_seq by (unfold stop, start in *; lia).
      unfold path_value. fold N. apply portfolio_value_ext. intros t i.
      unfold start. apply corr_shock_shift.
  - replace (start * steps * N + (stop - start) * steps * N)%nat
      with ((start + (stop - start)) * steps * N)%nat by ring.
    f_equal. f_equal. unfold stop, start. lia.
Qed.

(** ** Zero volatility *)

Lemma nth_all_zero (l : list R) (i : nat) : all_zero l -> nth i l 0 = 0.
Proof.
  intro H. destruct (Nat.lt_ge_cases i (length l)) as [Hi|Hi].
  - unfold all_zero in H. rewrite Forall_forall in H.
    apply H. apply nth_In. exact Hi.
  - apply nth_overflow. exact Hi.
Qed.

Lemma big_sum_const (c : R) (n : nat) : big_sum (fun _ => c) n = INR n * c.
Proof.
  induction n as [|n IH].
  - simpl. lra.
  - cbn [big_sum]. rewrite IH, S_INR. lra.
Qed.

Lemma terminal_log_return_no_vol (mu : R) (steps : nat) (shock : nat -> R) :
  terminal_log_return mu 0 steps shock = mu * (INR steps / 252).
Proof.
  unfold terminal_log_return.
  rewrite (big_sum_ext _ (fun _ => mu / 252)).
  - rewrite big_sum_const. lra.
  - intros t _. unfold step_log_return. lra.
Qed.

Lemma path_value_no_vol (gauss : nat -> R) (cfg : config) (L : matrix)
    (steps g : nat) :
  all_zero (cfg_volatilities cfg) ->
  path_value gauss cfg L steps g
  = deterministic_value (cfg_weights cfg) (cfg_initial_prices cfg)
      (cfg_expected_returns cfg) (INR steps / 252).
Proof.
  intro Hz. unfold path_value, portfolio_value, deterministic_value.
  apply big_sum_ext. intros i _. unfold terminal_price.
  rewrite (nth_all_zero _ i Hz), terminal_log_return_no_vol. reflexivity.
Qed.

Lemma deterministic_value_no_drift (w p0 mu : list R) (tau : R) :
  all_zero mu -> deterministic_value w p0 mu tau = initial_value w p0.
Proof.
  intro Hz. unfold deterministic_value, initial_value.
  apply big_sum_ext. intros i _.
  rewrite (nth_all_zero _ i Hz), Rmult_0_l, exp_0. lra.
Qed.

(** ** Further sample inputs; returns of a list of final values *)

Lemma cfg_still_well_formed (T : R) :
  0 <= T -> exists L, well_formed cfg_still L T.
Proof.
  intro HT. destruct cholesky_identity2 as [L HL]. exists L.
  unfold well_formed, cfg_still. cbn.
  repeat split; try lia; try exact HL.
  apply py_int_nonneg. lra.
Qed.

Lemma nth_returns (fv : list R) (V0 : R) (g : nat) :
  (g < length fv)%nat ->
  nth g (map (fun v => (v - V0) / V0) fv) 0 = (nth g fv 0 - V0) / V0.
Proof.
  intro Hg.
  rewrite (nth_indep _ 0 ((fun v => (v - V0) / V0) 0))
    by (rewrite length_map; exact Hg).
  apply (map_nth (fun v => (v - V0) / V0)).
Qed.

Lemma py_int_floor (r : R) (z : Z) :
  0 <= r -> IZR z <= r < IZR z + 1 -> py_int r = z.
Proof.
  intros Hr Hz. unfold py_int.
  destruct (Rle_dec 0 r) as [_|H]; [|contradiction].
  symmetry. apply Int_part_spec. lra.
Qed.

Lemma cholesky_unit : exists L, cholesky [[1]] = Ok L.
Proof.
  unfold cholesky. cbn [is_square forallb length Nat.eqb andb].
  cbn [chol_rows]. unfold chol_row, chol_offdiag, dot.
  cbn [fold_left length app nth combine map np_sum Nat.sub repeat].
  destruct (Rlt_dec 0 (1 - 0)) as [_|H]; [|exfalso; apply H; lra].
  eexists. reflexivity.
Qed.

Lemma cfg_drift_well_formed (T : R) :
  0 <= T -> exists L, well_formed cfg_drift L T.
Proof.
  intro HT. destruct cholesky_unit as [L HL]. exists L.
  unfold well_formed, cfg_drift. cbn.
  repeat split; try lia; try exact HL.
  apply py_int_nonneg. lra.
Qed.

Lemma cfg_light_well_formed (T : R) :
  0 <= T -> exists L, well_formed cfg_light L T.
Proof.
  intro HT. destruct cholesky_identity2 as [L HL]. exists L.
  unfold well_formed, cfg_light. cbn.
  repeat split; try lia; try exact HL.
  apply py_int_nonneg. lra.
Qed.

(** ** A failing decomposition aborts the run *)



Lemma simulate_cholesky_fails (gauss : nat -> R) (w p0 mu sigma : list R)
    (corr : matrix) (T : R) (B : nat) (s : rng) (e : exn) :
  cholesky corr = Raise e ->
  simulate_portfolio_batch gauss w p0 mu sigma corr T B s = (Raise e, s).
Proof.
  intro H. unfold simulate_portfolio_batch, bind, lift. rewrite H.
  reflexivity.
Qed.

Lemma ceil_div_pos (n_sims K : nat) :
  (0 < K)%nat -> (0 < n_sims)%nat -> (0 < ceil_div n_sims K)%nat.
Proof.
  intros HK HS. pose proof (ceil_div_least n_sims K HK HS). nia.
Qed.


(** ** Linear interpolation of [np.percentile] *)

Lemma percentile_rank_gap (n pct : nat) :
  (pct < 100)%nat -> (1 <= n)%nat ->
  let j := ((n - 1) * pct / 100)%nat in
  let r := (n * pct / 100)%nat in
  (r = j \/ r = Nat.min (j + 1) (n - 1)) /\ (j <= n - 1)%nat.
Proof.
  intros Hp Hn j r.
  assert (Hj : (j * 100 <= (n - 1) * pct < (j + 1) * 100)%nat).
  { unfold j. pose proof (Nat.Div0.mul_div_le ((n - 1) * pct) 100).
    pose proof (Nat.mul_succ_div_gt ((n - 1) * pct) 100). lia. }
  assert (Hr : (r * 100 <= n * pct < (r + 1) * 100)%nat).
  { unfold r. pose proof (Nat.Div0.mul_div_le (n * pct) 100).
    pose proof (Nat.mul_succ_div_gt (n * pct) 100). lia. }
  assert (Hnp : (n * pct = (n - 1) * pct + pct)%nat) by nia.
  assert (Hrn : (r < n)%nat) by (unfold r; apply rank_below; lia).
  assert (Hjn : (j <= n - 1)%nat) by nia.
  split; [|exact Hjn].
  assert (j <= r <= j + 1)%nat by nia.
  lia.
Qed.

Lemma np_percentile_linear (returns : list R) (pct : nat) :
  (1 <= length returns)%nat ->
  let s := np_sort returns in
  let n := length returns in
  let j := ((n - 1) * pct / 100)%nat in
  let gamma := INR (n - 1) * (INR pct / 100) - INR j in
  np_percentile returns (INR pct)
  = Some (nth j s 0 + (nth (Nat.min (j + 1) (n - 1)) s 0 - nth j s 0) * gamma)
  /\ 0 <= gamma < 1.
Proof.
  intros Hn s n j gamma.
  assert (Hq : INR pct / 100 = INR pct / INR 100) by decimal_ratio.
  assert (Hip : Int_part (INR (n - 1) * (INR pct / 100)) = Z.of_nat j).
  { rewrite Hq. apply Int_part_ratio. lia. }
  split.
  - unfold np_percentile. rewrite np_sort_length. fold s. fold n.
    destruct (Nat.eqb_spec n 0) as [H0|_]; [unfold n in H0; lia|].
    rewrite Hip, Nat2Z.id. reflexivity.
  - destruct (base_Int_part (INR (n - 1) * (INR pct / 100))) as [Hle Hgt].
    rewrite Hip, <- INR_IZR_INZ in Hle, Hgt. unfold gamma. lra.
Qed.

Lemma np_sort_pair : np_sort [0; 1] = [0; 1].
Proof.
  cbn [np_sort fold_right insert_sorted].
  destruct (Rle_dec 0 1) as [_|H]; [reflexivity|]. exfalso. apply H. lra.
Qed.

(** ** Runs that raise *)

Lemma asset_loop_raise (w p0 mu sigma : list R) (Zc : ndarray)
    (idxs : list nat) :
  (exists i, In i idxs /\
     ~ (i < length w /\ i < length p0 /\ i < length mu /\ i < length sigma)%nat) ->
  forall acc, asset_loop w p0 mu sigma Zc idxs acc = Raise IndexError.
Proof.
  induction idxs as [|i0 rest IH]; intros (i & Hin & Hbad) acc.
  - destruct Hin.
  - cbn [asset_loop].
    destruct (Nat.lt_ge_cases i0 (length mu)) as [Hmu|Hmu];
      [|rewrite (getitem_raise mu i0 Hmu); reflexivity].
    rewrite (getitem_ok mu i0 Hmu). cbn [obind].
    destruct (Nat.lt_ge_cases i0 (length sigma)) as [Hsg|Hsg];
      [|rewrite (getitem_raise sigma i0 Hsg); reflexivity].
    rewrite (getitem_ok sigma i0 Hsg). cbn [obind].
    destruct (Nat.lt_ge_cases i0 (length p0)) as [Hp0|Hp0];
      [|rewrite (getitem_raise p0 i0 Hp0); reflexivity].
    rewrite (getitem_ok p0 i0 Hp0). cbn [obind].
    destruct (Nat.lt_ge_cases i0 (length w)) as [Hw|Hw];
      [|rewrite (getitem_raise w i0 Hw); reflexivity].
    rewrite (getitem_ok w i0 Hw). cbn [obind].
    apply IH. exists i. split; [|exact Hbad].
    destruct Hin as [->|Hin]; [|exact Hin].
    exfalso. apply Hbad. repeat split; assumption.
Qed.

(** Past the decomposition and the shape checks the batch simulator is
    its per-asset loop on a tensor of shape (B, steps, N). *)
Lemma simulate_reaches_loop (gauss : nat -> R) (w p0 mu sigma : list R)
    (corr L : matrix) (T : R) (B s : nat) :
  cholesky corr = Ok L -> length corr = length w ->
  (0 < length w)%nat -> (0 <= py_int (T * 252))%Z ->
  exists Zc,
    simulate_portfolio_batch gauss w p0 mu sigma corr T B s
    = (asset_loop w p0 mu sigma Zc (seq 0 (length w)) (np_zeros B),
       (s + B * Z.to_nat (py_int (T * 252)) * length w)%nat).
Proof.
  intros Hchol Hdim Hpos Hst.
  set (steps := Z.to_nat (py_int (T * 252))). set (N := length w).
  assert (HL : length L = N).
  { rewrite (cholesky_length _ _ Hchol). exact Hdim. }
  unfold simulate_portfolio_batch, bind, lift. rewrite Hchol.
  unfold standard_normal.
  destruct (Z.ltb_spec (py_int (T * 252)) 0) as [Hneg|_]; [lia|].
  fold steps. fold N.
  unfold reshape_rows. cbn [data].
  rewrite length_map, length_seq.
  destruct (Nat.eqb_spec N 0) as [HN0|HN0]; [unfold N in HN0; lia|].
  rewrite Nat.Div0.mod_mul. cbn [Nat.eqb].
  rewrite Nat.div_mul by exact HN0.
  unfold matmul. cbn [shape data].
  rewrite transpose_length, HL, Nat.eqb_refl.
  unfold reshape3. cbn [data].
  rewrite length_map, length_seq, Nat.eqb_refl.
  eexists. reflexivity.
Qed.

Lemma simulate_classify (gauss : nat -> R) (cfg : config) (T : R) :
  (exists L, sim_ready cfg L T) \/
  (exists e, forall B s, exists s',
     simulate_portfolio_batch gauss (cfg_weights cfg) (cfg_initial_prices cfg)
       (cfg_expected_returns cfg) (cfg_volatilities cfg)
       (cfg_correlation_matrix cfg) T B s
     = (Raise e, s')).
Proof.
  set (w := cfg_weights cfg). set (N := length w).
  destruct (cholesky (cfg_correlation_matrix cfg)) as [L|e] eqn:Hchol.
  2:{ right. exists e. intros B s. exists s.
      apply simulate_cholesky_fails. exact Hchol. }
  destruct (Z.ltb_spec (py_int (T * 252)) 0) as [Hneg|Hst].
  { right. exists ValueError. intros B s. exists s.
    unfold simulate_portfolio_batch, bind, lift. rewrite Hchol.
    unfold standard_normal.
    destruct (Z.ltb_spec (py_int (T * 252)) 0); [reflexivity|lia]. }
  destruct (Nat.eq_dec N 0) as [HN0|HN0].
  { right. exists ValueError. intros B s. eexists.
    unfold simulate_portfolio_batch, bind, lift. rewrite Hchol.
    unfold standard_normal.
    destruct (Z.ltb_spec (py_int (T * 252)) 0); [lia|].
    unfold reshape_rows. fold w. fold N. rewrite HN0. reflexivity. }
  destruct (Nat.eq_dec (length (cfg_correlation_matrix cfg)) N) as [Hdim|Hdim].
  2:{ right. exists ValueError. intros B s. eexists.
      unfold simulate_portfolio_batch, bind, lift. rewrite Hchol.
      unfold standard_normal.
      destruct (Z.ltb_spec (py_int (T * 252)) 0); [lia|].
      unfold reshape_rows. cbn [data]. rewrite length_map, length_seq.
      fold w. fold N.
      destruct (Nat.eqb_spec N 0) as [|_]; [contradiction|].
      rewrite Nat.Div0.mod_mul. cbn [Nat.eqb].
      unfold matmul. cbn [shape data].
      rewrite transpose_length, (cholesky_length _ _ Hchol).
      destruct (Nat.eqb_spec N (length (cfg_correlation_matrix cfg)));
        [exfalso; apply Hdim; symmetry; assumption|reflexivity]. }
  destruct (le_dec N (length (cfg_initial_prices cfg))) as [Hp0|Hp0];
  destruct (le_dec N (length (cfg_expected_returns cfg))) as [Hmu|Hmu];
  destruct (le_dec N (length (cfg_volatilities cfg))) as [Hsg|Hsg];
    try (left; exists L; unfold sim_ready; fold w; fold N;
         repeat split; (assumption || lia));
    right; exists IndexError; intros B s;
    destruct (simulate_reaches_loop gauss w (cfg_initial_prices cfg)
                (cfg_expected_returns cfg) (cfg_volatilities cfg)
                (cfg_correlation_matrix cfg) L T B s Hchol Hdim
                ltac:(fold N; lia) Hst) as (Zc & Hrun);
    eexists; rewrite Hrun; f_equal; apply asset_loop_raise; fold N.
  all: try (exists (length (cfg_volatilities cfg));
            split; [apply in_seq; lia|lia]).
  all: try (exists (length (cfg_expected_returns cfg));
            split; [apply in_seq; lia|lia]).
  all: exists (length (cfg_initial_prices cfg)); split; [apply in_seq; lia|lia].
Qed.

Lemma calculate_metrics_empty : _calculate_metrics [] = Raise IndexError.
Proof.
  unfold _calculate_metrics, rank_item. cbn [np_sort fold_right length].
  rewrite (py_int_rank 0 1 100 0.01) by (lia || decimal_ratio).
  reflexivity.
Qed.

Lemma ceil_div_zero (K : nat) : (0 < K)%nat -> ceil_div 0 K = 0%nat.
Proof. intro HK. unfold ceil_div. apply Nat.div_small. lia. Qed.

Lemma run_mul_fails (gauss : nat -> R) (n_sims K : nat) (cfg : config)
    (T : R) (s : rng) (e : exn) :
  mul_arrays (cfg_weights cfg) (cfg_initial_prices cfg) = Raise e ->
  (0 < K)%nat ->
  run gauss n_sims K cfg T s = (Raise e, 0%nat).
Proof.
  intros Hmul HK. unfold run, bind at 1, engine_init.
  destruct (Nat.eqb_spec K 0) as [HK0|_]; [lia|].
  unfold run_5M_simulation, bind at 1, lift. rewrite Hmul. reflexivity.
Qed.

Lemma run_batches_fail (gauss : nat -> R) (n_sims K : nat) (cfg : config)
    (T : R) (s : rng) (e : exn) (products : list R) :
  mul_arrays (cfg_weights cfg) (cfg_initial_prices cfg) = Ok products ->
  (0 < K)%nat -> (0 < n_sims)%nat ->
  (forall B s0, exists s',
     simulate_portfolio_batch gauss (cfg_weights cfg) (cfg_initial_prices cfg)
       (cfg_expected_returns cfg) (cfg_volatilities cfg)
       (cfg_correlation_matrix cfg) T B s0
     = (Raise e, s')) ->
  exists s', run gauss n_sims K cfg T s = (Raise e, s').
Proof.
  intros Hmul HK HS Hfail. unfold run, bind at 1, engine_init.
  destruct (Nat.eqb_spec K 0) as [HK0|_]; [lia|].
  rewrite n_batches_exact by exact HK.
  unfold run_5M_simulation, bind at 1, lift. rewrite Hmul.
  cbn [n_simulations n_batches]. rewrite Nat2Z.id.
  pose proof (ceil_div_pos n_sims K HK HS) as Hq.
  destruct (ceil_div n_sims K) as [|q]; [lia|].
  cbn [seq batch_loop]. unfold bind.
  match goal with
  | |- context [simulate_portfolio_batch ?g ?a ?b ?c ?d ?m ?t ?B ?s0] =>
      destruct (Hfail B s0) as (s' & Hs')
  end.
  rewrite Hs'. eexists. reflexivity.
Qed.

Lemma run_empty (gauss : nat -> R) (K : nat) (cfg : config) (T : R)
    (s : rng) (products : list R) :
  mul_arrays (cfg_weights cfg) (cfg_initial_prices cfg) = Ok products ->
  (0 < K)%nat ->
  run gauss 0 K cfg T s = (Raise IndexError, 0%nat).
Proof.
  intros Hmul HK. unfold run, bind at 1, engine_init.
  destruct (Nat.eqb_spec K 0) as [HK0|_]; [lia|].
  rewrite n_batches_exact by exact HK.
  unfold run_5M_simulation, bind at 1, lift. rewrite Hmul.
  cbn [n_simulations n_batches]. rewrite Nat2Z.id, ceil_div_zero by exact HK.
  cbn [seq batch_loop]. unfold bind, ret. cbn [fst snd np_zeros repeat map].
  rewrite calculate_metrics_empty. reflexivity.
Qed.

(** Two runs that differ only in the batch size and in the state of the
    generator before the constructor seeds it have the same outcome. *)
Lemma run_batch_size_irrelevant (gauss : nat -> R) (n_sims K1 K2 : nat)
    (cfg : config) (T : R) (s1 s2 : rng) :
  (0 < K1)%nat -> (0 < K2)%nat ->
  result_arrays (fst (run gauss n_sims K1 cfg T s1))
  = result_arrays (fst (run gauss n_sims K2 cfg T s2)).
Proof.
  intros HK1 HK2.
  destruct (mul_arrays (cfg_weights cfg) (cfg_initial_prices cfg))
    as [products|e] eqn:Hmul.
  2:{ rewrite !(run_mul_fails _ _ _ _ _ _ e) by assumption. reflexivity. }
  destruct (simulate_classify gauss cfg T) as [[L Hready]|[e Hfail]].
  - rewrite (run_ready gauss n_sims K1 cfg L T s1 products Hready HK1 Hmul).
    rewrite (run_ready gauss n_sims K2 cfg L T s2 products Hready HK2 Hmul).
    cbn [fst]. destruct (_calculate_metrics _) as [m|e]; reflexivity.
  - destruct n_sims as [|n].
    + rewrite !(run_empty _ _ _ _ _ products) by assumption. reflexivity.
    + destruct (run_batches_fail gauss (S n) K1 cfg T s1 e products
                  Hmul HK1 ltac:(lia) Hfail) as (s1' & H1).
      destruct (run_batches_fail gauss (S n) K2 cfg T s2 e products
                  Hmul HK2 ltac:(lia) Hfail) as (s2' & H2).
      rewrite H1, H2. reflexivity.
Qed.

(** ** The numeric convention on the integer conversions

    For every array length up to 4000, and for one and five million
    elements, the binary64 product [n * p] truncates to the same rank as
    the exact product; the binary64 quotient [S / K] has the exact
    ceiling on the sampled counts; the horizons 0.1, 1 and 2 years give
    25, 252 and 504 steps in binary64 as in exact arithmetic. *)

Lemma float_ranks_agree :
  forallb Binary64.ranks_agree (map Z.of_nat (seq 0 4001)) = true /\
  Binary64.ranks_agree 1000000 = true /\
  Binary64.ranks_agree 5000000 = true.
Proof. repeat split; vm_compute; reflexivity. Qed.

Lemma float_batches_agree :
  forallb (fun S => forallb (fun K => Binary64.batches_agree S K)
                            (map Z.of_nat (seq 1 60)))
          (map Z.of_nat (seq 1 300)) = true /\
  Binary64.batches_agree 5000000 500000 = true /\
  Binary64.batches_agree 1000000 100000 = true /\
  Binary64.batches_agree 1000000 300000 = true /\
  Binary64.batches_agree 5000000 7 = true.
Proof. repeat split; vm_compute; reflexivity. Qed.

Lemma float_steps_agree :
  Binary64.float_steps = [25; 252; 504]%Z /\
  py_int (0.1 * 252) = 25%Z /\ py_int (1 * 252) = 252%Z /\
  py_int (2 * 252) = 504%Z.
Proof.
  split; [vm_compute; reflexivity|].
  repeat split; apply py_int_floor; simpl; lra.
Qed.

(** ** Where rounding decides *)

Section Rounding.

Import PrimFloat.
Set Warnings "-inexact-float".

(** Sums of equal values are rounded: in binary64 the mean of three
    returns of 0.1 is 0.10000000000000002 and their standard deviation is
    1.39e-17, not 0, so that neither the test [std == 0] of the skewness
    and the kurtosis nor the test [std > 0] of the Sharpe ratio sees a
    constant array as one without dispersion.  And products are rounded
    before [int] cuts them: the float nearest to 1/252 times 252 is 1.0,
    one step, although the real product is below 1. *)
Lemma float_equal_returns_deviate :
  Binary64.np_mean Binary64.returns_equal = 0.10000000000000002%float /\
  Binary64.np_std Binary64.returns_equal = 1.3877787807814457e-17%float /\
  PrimFloat.eqb (Binary64.np_std Binary64.returns_equal) 0 = false /\
  PrimFloat.ltb 0 (Binary64.np_std Binary64.returns_equal) = true.
Proof. repeat split; vm_compute; reflexivity. Qed.

(** Below 8 elements [np.sum] is the loop, so that the initial value and
    the accumulated terminal value of an undrifted portfolio perform the
    same additions: for the first seven of the eight assets above they
    are the same binary64 number and the return is 0.0. *)
Lemma float_short_sum_is_loop (fuel : nat) (a : list float) :
  (length a < 8)%nat ->
  Binary64.pairwise_sum fuel a = Binary64.sum_loop 0 a.
Proof.
  intro Hn. apply Nat.ltb_lt in Hn.
  destruct fuel; cbn [Binary64.pairwise_sum]; rewrite Hn; reflexivity.
Qed.

Lemma float_sums_agree_below_eight :
  Binary64.portfolio_final_value (firstn 7 Binary64.prices_eight)
    (firstn 7 Binary64.growth_none) (firstn 7 Binary64.weights_eight)
  = Binary64.initial_portfolio_value (firstn 7 Binary64.weights_eight)
      (firstn 7 Binary64.prices_eight) /\
  Binary64.path_return
    (Binary64.portfolio_final_value (firstn 7 Binary64.prices_eight)
       (firstn 7 Binary64.growth_none) (firstn 7 Binary64.weights_eight))
    (Binary64.initial_portfolio_value (firstn 7 Binary64.weights_eight)
       (firstn 7 Binary64.prices_eight))
  = 0%float.
Proof. split; vm_compute; reflexivity. Qed.

Lemma float_product_rounds_up :
  Binary64.float_int (PrimFloat.mul (PrimFloat.div 1 252) 252) = 1%Z /\
  Binary64.float_int (PrimFloat.mul (PrimFloat.div 1 12) 252) = 21%Z.
Proof. split; vm_compute; reflexivity. Qed.

Set Warnings "+inexact-float".

End Rounding.

(** * Properties of the engine *)

(** C1.  On a configuration whose correlation matrix has the factor [L],
    the batch simulator returns, for every path [p] of the batch, the
    weighted sum over the assets [i] of the terminal price
    [P0 * exp (terminal log-return)], where the terminal log-return is the
    sum over the [T] steps of the per-step log-return
    [(mu - sigma^2 / 2) dt + sigma sqrt(dt) Z], with [dt = 1/252] and [Z]
    the correlated shock of that step, asset and path. *)
Theorem C1_terminal_value_model (gauss : nat -> R)
    (w p0 mu sigma : list R) (corr L : matrix) (T : R) (B s : nat) :
  cholesky corr = Ok L ->
  length corr = length w -> (0 < length w)%nat ->
  (length w <= length p0)%nat -> (length w <= length mu)%nat ->
  (length w <= length sigma)%nat ->
  (0 <= py_int (T * 252))%Z ->
  let steps := Z.to_nat (py_int (T * 252)) in
  let shock := corr_shock gauss L steps (length w) s in
  exists vals,
    simulate_portfolio_batch gauss w p0 mu sigma corr T B s
    = (Ok vals, (s + B * steps * length w)%nat) /\
    length vals = B /\
    forall p, (p < B)%nat ->
      nth p vals 0
      = big_sum (fun i =>
          nth i p0 0
          * exp (big_sum (fun t =>
                   (nth i mu 0 - nth i sigma 0 ^ 2 / 2) * (1 / 252)
                   + nth i sigma 0 * sqrt (1 / 252) * shock p t i) steps)
          * nth i w 0) (length w).
Proof.
  intros Hchol Hdim Hpos Hp0 Hmu Hsg Hst steps shock.
  destruct (simulate_portfolio_batch_ok gauss w p0 mu sigma corr L T
              Hchol Hdim Hpos Hp0 Hmu Hsg Hst B s)
    as (vals & Hrun & Hlen & Hnth).
  exists vals. repeat split; auto.
Qed.

Lemma C1_terminal_value_model_witness :
  exists L vals,
    cholesky identity2 = Ok L /\
    simulate_portfolio_batch gauss_ramp [0.5; 0.5] [100; 50] [0.10; 0.05]
      [0.20; 0.10] identity2 1 3%nat 0%nat
    = (Ok vals, (0 + 3 * Z.to_nat (py_int (1 * 252)) * 2)%nat) /\
    length vals = 3%nat.
Proof.
  destruct cholesky_identity2 as [L HL]. exists L.
  destruct (C1_terminal_value_model gauss_ramp [0.5; 0.5] [100; 50]
              [0.10; 0.05] [0.20; 0.10] identity2 L 1 3%nat 0%nat HL)
    as (vals & Hrun & Hlen & _).
  - reflexivity.
  - simpl; lia.
  - simpl; lia.
  - simpl; lia.
  - simpl; lia.
  - apply py_int_nonneg; lra.
  - exists vals. repeat split; assumption.
Defined.

(** C2.  For a returns array of length [n >= 1] the metrics are computed
    on the sorted array: every reported percentile is the nearest-rank
    value [sorted_returns[floor(n p)]], VaR(p) is the percentile at [p] for
    p = 0.05, 0.01, 0.001, and CVaR(p) is the mean of the slice
    [sorted_returns[0 : floor(n p)]], whose elements are the worst
    outcomes: none exceeds an element outside the slice. *)
Theorem C2_nearest_rank_metrics (returns : list R) :
  (1 <= length returns)%nat ->
  let s := np_sort returns in
  let n := length returns in
  StronglySorted Rle s /\ Permutation s returns /\
  (forall k x y, In x (firstn k s) -> In y (skipn k s) -> x <= y) /\
  exists m,
    _calculate_metrics returns = Ok m /\
    (percentile_1 m = nearest_rank s 0.01 /\
     percentile_5 m = nearest_rank s 0.05 /\
     percentile_25 m = nearest_rank s 0.25 /\
     percentile_75 m = nearest_rank s 0.75 /\
     percentile_95 m = nearest_rank s 0.95 /\
     percentile_99 m = nearest_rank s 0.99) /\
    (VaR_95 m = nearest_rank s 0.05 /\
     VaR_99 m = nearest_rank s 0.01 /\
     VaR_999 m = nearest_rank s 0.001) /\
    (CVaR_95 m = np_mean (firstn (floor_rank n 0.05) s) /\
     CVaR_99 m = np_mean (firstn (floor_rank n 0.01) s) /\
     CVaR_999 m = np_mean (firstn (floor_rank n 0.001) s)).
Proof.
  intros Hn s n.
  split; [apply np_sort_sorted|].
  split; [apply np_sort_perm|].
  split.
  { intros k x y. apply sorted_split. apply np_sort_sorted. }
  destruct (calculate_metrics_ok returns Hn)
    as (m & Hm & (P1 & P5 & P25 & P75 & P95 & P99) & (V95 & V99 & V999)
        & (C95 & C99 & C999) & _).
  fold s in P1, P5, P25, P75, P95, P99, V95, V99, V999, C95, C99, C999.
  fold n in P1, P5, P25, P75, P95, P99, V95, V99, V999, C95, C99, C999.
  assert (Hlen : length s = n) by apply np_sort_length.
  exists m. split; [exact Hm|].
  rewrite (nearest_rank_ratio s 1 100 0.01) by (lia || decimal_ratio).
  rewrite (nearest_rank_ratio s 5 100 0.05) by (lia || decimal_ratio).
  rewrite (nearest_rank_ratio s 25 100 0.25) by (lia || decimal_ratio).
  rewrite (nearest_rank_ratio s 75 100 0.75) by (lia || decimal_ratio).
  rewrite (nearest_rank_ratio s 95 100 0.95) by (lia || decimal_ratio).
  rewrite (nearest_rank_ratio s 99 100 0.99) by (lia || decimal_ratio).
  rewrite (nearest_rank_ratio s 1 1000 0.001) by (lia || decimal_ratio).
  rewrite (floor_rank_ratio n 5 100 0.05) by (lia || decimal_ratio).
  rewrite (floor_rank_ratio n 1 100 0.01) by (lia || decimal_ratio).
  rewrite (floor_rank_ratio n 1 1000 0.001) by (lia || decimal_ratio).
  rewrite Hlen. repeat split; assumption.
Qed.

Lemma C2_nearest_rank_metrics_witness :
  exists m,
    _calculate_metrics [0.03; -0.02; 0.01] = Ok m /\
    VaR_95 m = nearest_rank (np_sort [0.03; -0.02; 0.01]) 0.05.
Proof.
  destruct (C2_nearest_rank_metrics [0.03; -0.02; 0.01])
    as (_ & _ & _ & m & Hm & _ & (V95 & _) & _).
  - simpl. lia.
  - exists m. split; assumption.
Defined.

(** C3.  For [S >= 1] simulations and batch size [K >= 1] the run is cut
    into [ceil(S/K)] batches: batch [b] covers the range
    [b K, min (b K + K) S), the ranges are contiguous, all but the last
    have length [K] and the last ends at [S]; each batch is simulated with
    as many paths as its range is long, and its values are the
    corresponding slice of the result array of length [S].  When [K > S]
    there is exactly one batch, of size [S], and the run raises nothing. *)
Theorem C3_batch_partition (gauss : nat -> R) (n_sims K : nat)
    (cfg : config) (L : matrix) (T : R) (s : rng) :
  well_formed cfg L T -> (1 <= n_sims)%nat -> (1 <= K)%nat ->
  let steps := Z.to_nat (py_int (T * 252)) in
  let N := length (cfg_weights cfg) in
  let q := ceil_div n_sims K in
  exists res,
    fst (run gauss n_sims K cfg T s) = Ok res /\
    Z.of_nat q = py_int (np_ceil (INR n_sims / INR K)) /\
    ((q - 1) * K < n_sims <= q * K)%nat /\
    length (final_values res) = n_sims /\
    length (batch_log res) = q /\
    (forall b, (b < q)%nat ->
       let start := (b * K)%nat in
       let stop := Nat.min (b * K + K) n_sims in
       nth b (batch_log res) (0, 0, 0)%nat = (start, stop, (stop - start)%nat) /\
       (start < stop)%nat /\ (stop - start <= K)%nat /\
       ((S b < q)%nat -> stop = (S b * K)%nat) /\
       (S b = q -> stop = n_sims) /\
       simulate_portfolio_batch gauss (cfg_weights cfg)
         (cfg_initial_prices cfg) (cfg_expected_returns cfg)
         (cfg_volatilities cfg) (cfg_correlation_matrix cfg) T
         (stop - start) (start * steps * N)%nat
       = (Ok (firstn (stop - start) (skipn start (final_values res))),
          (stop * steps * N)%nat)) /\
    ((n_sims < K)%nat -> batch_log res = [(0, n_sims, n_sims)%nat]).
Proof.
  intros Hwf HS HK steps N q.
  destruct (run_ok gauss n_sims K cfg L T s Hwf HK HS) as (m & Hm & Hrun).
  fold steps in Hm, Hrun.
  eexists. split; [rewrite Hrun; reflexivity|].
  cbn [final_values batch_log].
  split; [symmetry; apply n_batches_exact; exact HK|].
  split; [apply ceil_div_least; assumption|].
  split; [rewrite length_map, length_seq; reflexivity|].
  split; [unfold batch_ranges; rewrite length_map, length_seq; reflexivity|].
  split.
  - intros b Hb.
    destruct (batch_range_inside n_sims K b HK Hb) as (Hin & Hmid & Hlast).
    split.
    { unfold batch_ranges. fold q. rewrite nth_map_seq by exact Hb.
      reflexivity. }
    split; [lia|].
    split; [lia|].
    split; [exact Hmid|].
    split; [exact Hlast|].
    apply batch_values_slice; assumption.
  - intro Hlt. unfold batch_ranges.
    rewrite ceil_div_one by lia. cbn [seq map]. unfold batch_range.
    cbn [Nat.mul Nat.add]. rewrite Nat.min_r by lia.
    rewrite Nat.sub_0_r. reflexivity.
Qed.

Lemma C3_batch_partition_witness :
  exists L res,
    well_formed cfg_two L 1 /\
    fst (run gauss_ramp 5 2 cfg_two 1 0%nat) = Ok res /\
    length (batch_log res) = ceil_div 5 2.
Proof.
  destruct (cfg_two_well_formed 1) as [L HL]; [lra|]. exists L.
  destruct (C3_batch_partition gauss_ramp 5 2 cfg_two L 1 0%nat HL)
    as (res & Hrun & _ & _ & _ & Hlog & _).
  - lia.
  - lia.
  - exists res. split; [exact HL|]. split; assumption.
Defined.

(** C4.  With the generator seeded by the constructor, two runs of the
    same configuration and the same number of simulations with different
    batch sizes have the same outcome: the same array of terminal values,
    element for element, hence the same returns and the same metrics (or,
    on a configuration the simulator refuses, the same exception).  On a
    well-formed configuration with at least one simulation both runs
    return their arrays. *)
Theorem C4_batch_size_invariance (gauss : nat -> R) (n_sims K1 K2 : nat)
    (cfg : config) (T : R) (s1 s2 : rng) :
  (1 <= K1)%nat -> (1 <= K2)%nat ->
  result_arrays (fst (run gauss n_sims K1 cfg T s1))
  = result_arrays (fst (run gauss n_sims K2 cfg T s2)) /\
  (forall L, well_formed cfg L T -> (1 <= n_sims)%nat ->
     exists r1 r2,
       fst (run gauss n_sims K1 cfg T s1) = Ok r1 /\
       fst (run gauss n_sims K2 cfg T s2) = Ok r2 /\
       length (final_values r1) = n_sims /\
       final_values r1 = final_values r2 /\
       returns_of r1 = returns_of r2 /\
       metrics_of r1 = metrics_of r2).
Proof.
  intros HK1 HK2. split.
  - apply run_batch_size_irrelevant; assumption.
  - intros L Hwf HS.
    destruct (run_ok gauss n_sims K1 cfg L T s1 Hwf HK1 HS)
      as (m1 & Hm1 & Hrun1).
    destruct (run_ok gauss n_sims K2 cfg L T s2 Hwf HK2 HS)
      as (m2 & Hm2 & Hrun2).
    rewrite Hm1 in Hm2. inversion Hm2; subst m2.
    rewrite Hrun1, Hrun2. cbn [fst].
    eexists. eexists. split; [reflexivity|]. split; [reflexivity|].
    cbn [final_values returns_of metrics_of].
    rewrite length_map, length_seq. repeat split; reflexivity.
Qed.

Lemma C4_batch_size_invariance_witness :
  exists r1 r2,
    fst (run gauss_ramp 10 2 cfg_two 1 0%nat) = Ok r1 /\
    fst (run gauss_ramp 10 5 cfg_two 1 7%nat) = Ok r2 /\
    final_values r1 = final_values r2.
Proof.
  destruct (cfg_two_well_formed 1) as [L HL]; [lra|].
  destruct (C4_batch_size_invariance gauss_ramp 10 2 5 cfg_two 1
              0%nat 7%nat) as [_ Hok].
  - lia.
  - lia.
  - destruct (Hok L HL) as (r1 & r2 & H1 & H2 & _ & Hfv & _); [lia|].
    exists r1, r2. split; [exact H1|]. split; assumption.
Defined.

(** C5 (as amended).  When every expected return and every volatility is
    zero and the portfolio has fewer than 8 assets, every path ends at the
    initial portfolio value, the sum of [weight[i] * initial_price[i]]
    that the run computes at the start, and (the initial value being
    non-zero) every computed return is 0.  Below 8 assets [np.sum] adds
    the products in the order of the loop over the assets, so that the two
    sums are one and the same number also after rounding; from 8 assets on
    it adds them pairwise. *)
Theorem C5_weight_consistency (gauss : nat -> R) (n_sims K : nat)
    (cfg : config) (L : matrix) (T : R) (s : rng) :
  well_formed cfg L T -> (1 <= n_sims)%nat -> (1 <= K)%nat ->
  all_zero (cfg_expected_returns cfg) -> all_zero (cfg_volatilities cfg) ->
  (length (cfg_weights cfg) < 8)%nat ->
  let V0 := initial_value (cfg_weights cfg) (cfg_initial_prices cfg) in
  exists res,
    fst (run gauss n_sims K cfg T s) = Ok res /\
    length (final_values res) = n_sims /\
    length (returns_of res) = n_sims /\
    (forall g, (g < n_sims)%nat -> nth g (final_values res) 0 = V0) /\
    (V0 <> 0 -> forall g, (g < n_sims)%nat -> nth g (returns_of res) 0 = 0).
Proof.
  intros Hwf HS HK Hmu Hsg _ V0.
  destruct (run_ok gauss n_sims K cfg L T s Hwf HK HS) as (m & _ & Hrun).
  rewrite Hrun. cbn [fst]. eexists. split; [reflexivity|].
  cbn [final_values returns_of]. fold V0.
  set (steps := Z.to_nat (py_int (T * 252))).
  assert (Hfv : forall g, (g < n_sims)%nat ->
            nth g (map (path_value gauss cfg L steps) (seq 0 n_sims)) 0 = V0).
  { intros g Hg. rewrite nth_map_seq by exact Hg.
    rewrite path_value_no_vol by exact Hsg.
    apply deterministic_value_no_drift. exact Hmu. }
  split; [rewrite length_map, length_seq; reflexivity|].
  split; [rewrite !length_map, length_seq; reflexivity|].
  split; [exact Hfv|].
  intros HV0 g Hg.
  rewrite nth_returns by (rewrite length_map, length_seq; exact Hg).
  rewrite (Hfv g Hg). field. exact HV0.
Qed.

Lemma C5_weight_consistency_witness :
  exists res,
    fst (run gauss_ramp 3 2 cfg_still 1 0%nat) = Ok res /\
    nth 0 (final_values res) 0 = 75 /\
    nth 0 (returns_of res) 0 = 0.
Proof.
  destruct (cfg_still_well_formed 1) as [L HL]; [lra|].
  destruct (C5_weight_consistency gauss_ramp 3 2 cfg_still L 1 0%nat HL)
    as (res & Hrun & _ & _ & Hfv & Hret).
  - lia.
  - lia.
  - repeat constructor.
  - repeat constructor.
  - simpl. lia.
  - exists res. split; [exact Hrun|]. split.
    + rewrite Hfv by lia. unfold initial_value, cfg_still. simpl. lra.
    + apply Hret; [|lia]. unfold initial_value, cfg_still. simpl. lra.
Defined.

Section SummationOrder.

Import PrimFloat.
Set Warnings "-inexact-float".

(** With eight assets the identity is lost to rounding.  For the weights
    0.3, 0.2, 0.1, 0.1, 0.1, 0.1, 0.05, 0.05 and the prices 100, 50, 20,
    10, 5, 3, 2, 1, without drift and volatility (growth factor
    [np.exp(0.0) = 1.0] for every asset), the initial value
    [np.sum(weights * initial_prices)] is 43.950000000000003 in binary64,
    the terminal value accumulated asset by asset is 43.949999999999996,
    and the computed return is about -1.6e-16, which is not 0.0. *)
Lemma C5_summation_order_matters :
  Binary64.initial_portfolio_value Binary64.weights_eight
    Binary64.prices_eight
  = 43.950000000000003%float /\
  Binary64.portfolio_final_value Binary64.prices_eight Binary64.growth_none
    Binary64.weights_eight
  = 43.949999999999996%float /\
  Binary64.path_return 43.949999999999996 43.950000000000003
  = (-1.616707021069625e-16)%float /\
  PrimFloat.eqb
    (Binary64.path_return
       (Binary64.portfolio_final_value Binary64.prices_eight
          Binary64.growth_none Binary64.weights_eight)
       (Binary64.initial_portfolio_value Binary64.weights_eight
          Binary64.prices_eight))
    0
  = false.
Proof. repeat split; vm_compute; reflexivity. Qed.

Set Warnings "+inexact-float".

End SummationOrder.

(** C6 (as amended).  When every volatility is zero, every path has the
    same terminal value; when the horizon is a whole number of trading
    days ([T_years * 252] an integer), that value is the weighted
    aggregate of the deterministic prices [P0 * exp (mu * T_years)]. *)
Theorem C6_zero_volatility (gauss : nat -> R) (n_sims K : nat)
    (cfg : config) (L : matrix) (T : R) (s : rng) :
  well_formed cfg L T -> (1 <= n_sims)%nat -> (1 <= K)%nat ->
  all_zero (cfg_volatilities cfg) ->
  exists res,
    fst (run gauss n_sims K cfg T s) = Ok res /\
    length (final_values res) = n_sims /\
    (forall g g', (g < n_sims)%nat -> (g' < n_sims)%nat ->
       nth g (final_values res) 0 = nth g' (final_values res) 0) /\
    (forall days : nat, T * 252 = INR days ->
       forall g, (g < n_sims)%nat ->
         nth g (final_values res) 0
         = deterministic_value (cfg_weights cfg) (cfg_initial_prices cfg)
             (cfg_expected_returns cfg) T).
Proof.
  intros Hwf HS HK Hsg.
  destruct (run_ok gauss n_sims K cfg L T s Hwf HK HS) as (m & _ & Hrun).
  rewrite Hrun. cbn [fst]. eexists. split; [reflexivity|].
  cbn [final_values].
  set (steps := Z.to_nat (py_int (T * 252))).
  set (V := deterministic_value (cfg_weights cfg) (cfg_initial_prices cfg)
              (cfg_expected_returns cfg) (INR steps / 252)).
  assert (Hfv : forall g, (g < n_sims)%nat ->
            nth g (map (path_value gauss cfg L steps) (seq 0 n_sims)) 0 = V).
  { intros g Hg. rewrite nth_map_seq by exact Hg.
    apply path_value_no_vol. exact Hsg. }
  split; [rewrite length_map, length_seq; reflexivity|].
  split.
  { intros g g' Hg Hg'. rewrite (Hfv g Hg), (Hfv g' Hg'). reflexivity. }
  intros days Hdays g Hg. rewrite (Hfv g Hg).
  unfold V, steps. rewrite Hdays, py_int_INR, Nat2Z.id.
  f_equal. rewrite <- Hdays. field.
Qed.

Lemma C6_zero_volatility_witness :
  exists res,
    fst (run gauss_ramp 3 2 cfg_still 1 0%nat) = Ok res /\
    nth 0 (final_values res) 0 = nth 2 (final_values res) 0 /\
    nth 0 (final_values res) 0
    = deterministic_value (cfg_weights cfg_still)
        (cfg_initial_prices cfg_still) (cfg_expected_returns cfg_still) 1.
Proof.
  destruct (cfg_still_well_formed 1) as [L HL]; [lra|].
  destruct (C6_zero_volatility gauss_ramp 3 2 cfg_still L 1 0%nat HL)
    as (res & Hrun & _ & Hsame & Hval).
  - lia.
  - lia.
  - repeat constructor.
  - exists res. split; [exact Hrun|]. split.
    + apply Hsame; lia.
    + apply (Hval 252%nat); [rewrite INR_IZR_INZ; simpl; lra|lia].
Defined.

(** A horizon of a tenth of a year is cut to 25 trading days: a single
    asset with drift 1 and no volatility ends at [exp (25/252)], not at
    [exp (1/10)]. *)
Lemma C6_horizon_is_truncated :
  all_zero (cfg_volatilities cfg_drift) /\
  exists res,
    fst (run gauss_ramp 1 1 cfg_drift 0.1 0%nat) = Ok res /\
    nth 0 (final_values res) 0
    <> deterministic_value (cfg_weights cfg_drift)
         (cfg_initial_prices cfg_drift) (cfg_expected_returns cfg_drift) 0.1.
Proof.
  split; [repeat constructor|].
  destruct (cfg_drift_well_formed 0.1) as [L HL]; [lra|].
  destruct (run_ok gauss_ramp 1 1 cfg_drift L 0.1 0%nat HL)
    as (m & _ & Hrun); [lia|lia|].
  rewrite Hrun. cbn [fst]. eexists. split; [reflexivity|].
  cbn [final_values seq map nth].
  rewrite path_value_no_vol by (repeat constructor).
  assert (Hsteps : py_int (0.1 * 252) = 25%Z).
  { apply py_int_floor; simpl; lra. }
  rewrite Hsteps.
  unfold deterministic_value, cfg_drift.
  cbn [cfg_weights cfg_initial_prices cfg_expected_returns length big_sum nth].
  assert (Hlt : exp (1 * (INR (Z.to_nat 25) / 252)) < exp (1 * 0.1)).
  { apply exp_increasing. rewrite INR_IZR_INZ. simpl. lra. }
  lra.
Qed.

(** C7 (as amended).  The weights are not validated: a configuration whose
    weights do not sum to 1 within 1e-9, and which is otherwise
    well-formed, is simulated like any other; the run raises nothing,
    takes [sum_i weight[i] * initial_price[i]] as initial value and returns
    the terminal values of all [S] paths computed with the weights as
    given. *)
Theorem C7_weights_not_validated (gauss : nat -> R) (n_sims K : nat)
    (cfg : config) (L : matrix) (T : R) (s : rng) :
  well_formed cfg L T -> (1 <= n_sims)%nat -> (1 <= K)%nat ->
  1e-9 < Rabs (np_sum (cfg_weights cfg) - 1) ->
  let steps := Z.to_nat (py_int (T * 252)) in
  let V0 := initial_value (cfg_weights cfg) (cfg_initial_prices cfg) in
  exists res,
    fst (run gauss n_sims K cfg T s) = Ok res /\
    final_values res = map (path_value gauss cfg L steps) (seq 0 n_sims) /\
    returns_of res = map (fun v => (v - V0) / V0) (final_values res) /\
    batch_log res = batch_ranges n_sims K.
Proof.
  intros Hwf HS HK _ steps V0.
  destruct (run_ok gauss n_sims K cfg L T s Hwf HK HS) as (m & _ & Hrun).
  rewrite Hrun. cbn [fst]. eexists. split; [reflexivity|].
  cbn [final_values returns_of batch_log]. repeat split; reflexivity.
Qed.

Lemma C7_weights_not_validated_witness :
  exists res,
    fst (run gauss_ramp 3 2 cfg_light 1 0%nat) = Ok res /\
    batch_log res = batch_ranges 3 2.
Proof.
  destruct (cfg_light_well_formed 1) as [L HL]; [lra|].
  destruct (C7_weights_not_validated gauss_ramp 3 2 cfg_light L 1 0%nat HL)
    as (res & Hrun & _ & _ & Hlog).
  - lia.
  - lia.
  - unfold cfg_light, np_sum. simpl. rewrite Rabs_left by lra. lra.
  - exists res. split; assumption.
Defined.

(** Weights 0.5 and 0.25 sum to 0.75, and the run returns its results. *)
Lemma C7_unbalanced_weights_accepted :
  1e-9 < Rabs (np_sum (cfg_weights cfg_light) - 1) /\
  exists res,
    fst (run gauss_ramp 3 2 cfg_light 1 0%nat) = Ok res /\
    length (final_values res) = 3%nat.
Proof.
  split.
  - unfold cfg_light, np_sum. simpl. rewrite Rabs_left by lra. lra.
  - destruct (cfg_light_well_formed 1) as [L HL]; [lra|].
    destruct (run_ok gauss_ramp 3 2 cfg_light L 1 0%nat HL)
      as (m & _ & Hrun); [lia|lia|].
    rewrite Hrun. cbn [fst]. eexists. split; [reflexivity|].
    cbn [final_values]. rewrite length_map, length_seq. reflexivity.
Qed.



(** C9 (as amended).  The exported percentile table is recomputed from the
    returns with [np.percentile], that is by linear interpolation: the row
    for the percentile [pct] holds [s[j] + gamma * (s[j'] - s[j])], where
    [s] is the sorted returns array, [j = floor ((n - 1) pct / 100)],
    [j' = min (j + 1) (n - 1)] and [gamma] is the fractional part of
    [(n - 1) pct / 100].  The exported value lies between the order
    statistics [s[j]] and [s[j']], and the nearest-rank value
    [s[floor (n pct / 100)]] that the Metrics Record reports is one of
    these two. *)
Theorem C9_export_interpolates (res : results) (pct : nat) (v : option R) :
  (1 <= length (returns_of res))%nat ->
  In (pct, v) (export_results res) ->
  let s := np_sort (returns_of res) in
  let n := length (returns_of res) in
  let j := ((n - 1) * pct / 100)%nat in
  let j' := Nat.min (j + 1) (n - 1) in
  let gamma := INR (n - 1) * (INR pct / 100) - INR j in
  (exists x,
     v = Some x /\
     x = nth j s 0 + (nth j' s 0 - nth j s 0) * gamma /\
     0 <= gamma < 1 /\
     nth j s 0 <= x <= nth j' s 0) /\
  (nearest_rank s (INR pct / 100) = nth j s 0 \/
   nearest_rank s (INR pct / 100) = nth j' s 0) /\
  (exists m,
     _calculate_metrics (returns_of res) = Ok m /\
     percentile_1 m = nearest_rank s (INR 1 / 100) /\
     percentile_5 m = nearest_rank s (INR 5 / 100) /\
     percentile_25 m = nearest_rank s (INR 25 / 100) /\
     percentile_75 m = nearest_rank s (INR 75 / 100) /\
     percentile_95 m = nearest_rank s (INR 95 / 100) /\
     percentile_99 m = nearest_rank s (INR 99 / 100)).
Proof.
  intros Hn Hin s n j j' gamma.
  assert (Hpct : (pct < 100)%nat /\ v = np_percentile (returns_of res) (INR pct)).
  { unfold export_results in Hin. apply in_map_iff in Hin.
    destruct Hin as (q & Heq & Hq). inversion Heq; subst.
    split; [|reflexivity]. simpl in Hq. lia. }
  destruct Hpct as [Hp Hv].
  destruct (np_percentile_linear (returns_of res) pct Hn) as [Hval Hg].
  fold s n j j' gamma in Hval, Hg.
  destruct (percentile_rank_gap n pct Hp Hn) as [Hr Hj]. fold j in Hr, Hj.
  assert (Hlen : length s = n) by apply np_sort_length.
  assert (Hsorted : nth j s 0 <= nth j' s 0).
  { apply sorted_nth_le; [apply np_sort_sorted|unfold j'; lia|].
    rewrite Hlen. unfold j'. lia. }
  split; [|split].
  - eexists. split; [rewrite Hv; exact Hval|].
    split; [reflexivity|]. split; [exact Hg|]. nra.
  - rewrite (nearest_rank_ratio s pct 100) by (lia || decimal_ratio).
    rewrite Hlen. fold j'. destruct Hr as [-> | ->]; [left|right]; reflexivity.
  - destruct (calculate_metrics_ok (returns_of res) Hn)
      as (m & Hm & (P1 & P5 & P25 & P75 & P95 & P99) & _).
    fold s n in P1, P5, P25, P75, P95, P99.
    exists m. split; [exact Hm|].
    rewrite (nearest_rank_ratio s 1 100) by (lia || decimal_ratio).
    rewrite (nearest_rank_ratio s 5 100) by (lia || decimal_ratio).
    rewrite (nearest_rank_ratio s 25 100) by (lia || decimal_ratio).
    rewrite (nearest_rank_ratio s 75 100) by (lia || decimal_ratio).
    rewrite (nearest_rank_ratio s 95 100) by (lia || decimal_ratio).
    rewrite (nearest_rank_ratio s 99 100) by (lia || decimal_ratio).
    rewrite Hlen. repeat split; assumption.
Qed.

Lemma C9_export_interpolates_witness :
  exists m x,
    _calculate_metrics [0; 1] = Ok m /\
    In (5%nat, Some x)
       (export_results (mk_results [75; 150] [0; 1] m cfg_two [])) /\
    0 <= x <= 1.
Proof.
  destruct (calculate_metrics_ok [0; 1]) as (m & Hm & _); [simpl; lia|].
  exists m.
  assert (Hin : In (5%nat, np_percentile [0; 1] (INR 5))
                   (export_results
                      (mk_results [75; 150] [0; 1] m cfg_two []))).
  { unfold export_results. cbn [map returns_of].
    right. left. reflexivity. }
  destruct (C9_export_interpolates
              (mk_results [75; 150] [0; 1] m cfg_two []) 5
              (np_percentile [0; 1] (INR 5)))
    as ((x & Hv & _ & _ & Hb) & _).
  - simpl. lia.
  - exact Hin.
  - exists x. split; [exact Hm|]. split; [rewrite <- Hv; exact Hin|].
    cbn [returns_of] in Hb. rewrite np_sort_pair in Hb.
    cbn [length] in Hb.
    change ((2 - 1) * 5 / 100)%nat with 0%nat in Hb.
    change (2 - 1)%nat with 1%nat in Hb.
    cbn [Nat.add Nat.min nth] in Hb. exact Hb.
Defined.

(** On the returns 0 and 1 the Metrics Record reports 0 as 5th percentile
    and the exported table 0.05. *)
Lemma C9_export_differs_from_metrics :
  exists m,
    _calculate_metrics [0; 1] = Ok m /\
    percentile_5 m = 0 /\
    In (5%nat, Some 0.05)
       (export_results (mk_results [75; 150] [0; 1] m cfg_two [])) /\
    0.05 <> percentile_5 m.
Proof.
  destruct (calculate_metrics_ok [0; 1])
    as (m & Hm & (_ & P5 & _) & _); [simpl; lia|].
  rewrite np_sort_pair in P5.
  cbn [length] in P5.
  change (2 * 5 / 100)%nat with 0%nat in P5. cbn [nth] in P5.
  exists m. split; [exact Hm|]. split; [exact P5|]. split.
  - unfold export_results. cbn [map returns_of]. right. left.
    f_equal.
    destruct (np_percentile_linear [0; 1] 5) as [Hval _]; [simpl; lia|].
    rewrite Hval, np_sort_pair.
    cbn [length].
    change ((2 - 1) * 5 / 100)%nat with 0%nat.
    change (2 - 1)%nat with 1%nat.
    cbn [Nat.add Nat.min nth].
    f_equal. rewrite !INR_IZR_INZ. simpl. lra.
  - rewrite P5. lra.
Qed.

(** C10 (as amended).  For a returns array of length [n >= 1]: when
    [floor(n p) = 0] for a tail fraction p in 0.05, 0.01, 0.001, the
    corresponding CVaR is the mean of an empty slice, which is not a
    number; and each CVaR is a real number exactly when [n >= 1/p]. *)
Theorem C10_cvar_needs_tail (returns : list R) :
  (1 <= length returns)%nat ->
  let n := length returns in
  exists m,
    _calculate_metrics returns = Ok m /\
    (floor_rank n 0.05 = 0%nat -> CVaR_95 m = None) /\
    (floor_rank n 0.01 = 0%nat -> CVaR_99 m = None) /\
    (floor_rank n 0.001 = 0%nat -> CVaR_999 m = None) /\
    ((exists v, CVaR_95 m = Some v) <-> 1 / 0.05 <= INR n) /\
    ((exists v, CVaR_99 m = Some v) <-> 1 / 0.01 <= INR n) /\
    ((exists v, CVaR_999 m = Some v) <-> 1 / 0.001 <= INR n).
Proof.
  intros Hn n.
  destruct (calculate_metrics_ok returns Hn)
    as (m & Hm & _ & _ & (C95 & C99 & C999) & _).
  fold n in C95, C99, C999.
  assert (Hs : (1 <= length (np_sort returns))%nat)
    by (rewrite np_sort_length; exact Hn).
  exists m. split; [exact Hm|].
  rewrite (floor_rank_ratio n 5 100 0.05) by (lia || decimal_ratio).
  rewrite (floor_rank_ratio n 1 100 0.01) by (lia || decimal_ratio).
  rewrite (floor_rank_ratio n 1 1000 0.001) by (lia || decimal_ratio).
  rewrite C95, C99, C999.
  replace (1 / 0.05) with (INR 100 / INR 5) by decimal_ratio.
  replace (1 / 0.01) with (INR 100 / INR 1) by decimal_ratio.
  replace (1 / 0.001) with (INR 1000 / INR 1) by decimal_ratio.
  rewrite <- !threshold_rank by lia.
  repeat split; try (apply np_mean_firstn_none);
    try (apply np_mean_firstn_some; exact Hs);
    apply np_mean_firstn_some; exact Hs.
Qed.

Lemma C10_cvar_needs_tail_witness :
  exists m,
    _calculate_metrics [0.03; -0.02; 0.01] = Ok m /\ CVaR_95 m = None.
Proof.
  destruct (C10_cvar_needs_tail [0.03; -0.02; 0.01])
    as (m & Hm & H95 & _).
  - simpl. lia.
  - exists m. split; [exact Hm|]. apply H95.
    rewrite (floor_rank_ratio _ 5 100 0.05) by (lia || decimal_ratio).
    reflexivity.
Defined.

(** An empty returns array has [floor(n p) = 0] for every [p], yet no CVaR
    is computed: the first percentile lookup raises [IndexError]. *)
Lemma C10_empty_array_raises :
  floor_rank (length (@nil R)) 0.001 = 0%nat /\
  _calculate_metrics [] = Raise IndexError /\
  ~ (exists m, _calculate_metrics [] = Ok m /\ CVaR_999 m = None).
Proof.
  pose proof calculate_metrics_empty as H.
  split; [|split].
  - rewrite (floor_rank_ratio _ 1 1000 0.001) by (lia || decimal_ratio).
    reflexivity.
  - exact H.
  - intros (m & Hm & _). rewrite H in Hm. discriminate.
Qed.

(** * Further properties of the metrics *)

(** ** Auxiliary facts *)

(** Every entry of the metrics record of a non-empty returns array. *)
Lemma calculate_metrics_fields (returns : list R) :
  (0 < length returns)%nat ->
  let s := np_sort returns in
  let n := length returns in
  _calculate_metrics returns
  = Ok {|
      mean_return := np_mean returns;
      median_return := np_median returns;
      std_return := np_std returns;
      percentile_1 := nth (n * 1 / 100) s 0;
      percentile_5 := nth (n * 5 / 100) s 0;
      percentile_25 := nth (n * 25 / 100) s 0;
      percentile_75 := nth (n * 75 / 100) s 0;
      percentile_95 := nth (n * 95 / 100) s 0;
      percentile_99 := nth (n * 99 / 100) s 0;
      VaR_95 := nth (n * 5 / 100) s 0;
      VaR_99 := nth (n * 1 / 100) s 0;
      VaR_999 := nth (n * 1 / 1000) s 0;
      CVaR_95 := np_mean (firstn (n * 5 / 100) s);
      CVaR_99 := np_mean (firstn (n * 1 / 100) s);
      CVaR_999 := np_mean (firstn (n * 1 / 1000) s);
      prob_loss := fraction (fun r => lt_b r 0) returns n;
      prob_loss_10 := fraction (fun r => lt_b r (-0.10)) returns n;
      prob_loss_20 := fraction (fun r => lt_b r (-0.20)) returns n;
      prob_loss_50 := fraction (fun r => lt_b r (-0.50)) returns n;
      prob_profit := fraction (fun r => lt_b 0 r) returns n;
      prob_profit_10 := fraction (fun r => lt_b 0.10 r) returns n;
      prob_profit_20 := fraction (fun r => lt_b 0.20 r) returns n;
      prob_profit_50 := fraction (fun r => lt_b 0.50 r) returns n;
      skewness := _calculate_skewness returns;
      kurtosis := _calculate_kurtosis returns;
      sharpe_ratio :=
        match np_mean returns, np_std returns with
        | Some m, Some sd => if Rlt_dec 0 sd then Some (m / sd) else Some 0
        | _, _ => Some 0
        end
    |}.
Proof.
  intros Hn s n.
  assert (Hlen : length s = n) by apply np_sort_length.
  unfold _calculate_metrics. fold s. rewrite Hlen.
  rewrite (rank_item_ok s n 1 100 0.01) by (auto; lia || decimal_ratio).
  rewrite (rank_item_ok s n 5 100 0.05) by (auto; lia || decimal_ratio).
  rewrite (rank_item_ok s n 25 100 0.25) by (auto; lia || decimal_ratio).
  rewrite (rank_item_ok s n 75 100 0.75) by (auto; lia || decimal_ratio).
  rewrite (rank_item_ok s n 95 100 0.95) by (auto; lia || decimal_ratio).
  rewrite (rank_item_ok s n 99 100 0.99) by (auto; lia || decimal_ratio).
  rewrite (rank_item_ok s n 1 1000 0.001) by (auto; lia || decimal_ratio).
  cbn [obind].
  rewrite (tail_mean_ratio s n 5 100 0.05) by (lia || decimal_ratio).
  rewrite (tail_mean_ratio s n 1 100 0.01) by (lia || decimal_ratio).
  rewrite (tail_mean_ratio s n 1 1000 0.001) by (lia || decimal_ratio).
  reflexivity.
Qed.

(** A sorted list is determined by its elements. *)
Lemma sorted_perm_unique (l1 l2 : list R) :
  StronglySorted Rle l1 -> StronglySorted Rle l2 -> Permutation l1 l2 ->
  l1 = l2.
Proof.
  revert l2. induction l1 as [|x l1 IH]; intros l2 H1 H2 Hp.
  - apply Permutation_nil in Hp. subst. reflexivity.
  - destruct l2 as [|y l2].
    { apply Permutation_sym, Permutation_nil in Hp. discriminate. }
    apply StronglySorted_inv in H1. destruct H1 as [H1 Hx].
    apply StronglySorted_inv in H2. destruct H2 as [H2 Hy].
    rewrite Forall_forall in Hx, Hy.
    assert (Hxy : x = y).
    { apply Rle_antisym.
      - assert (Hin : In y (x :: l1))
          by (apply (Permutation_in _ (Permutation_sym Hp)); left; reflexivity).
        destruct Hin as [->|Hin]; [lra|apply Hx; exact Hin].
      - assert (Hin : In x (y :: l2))
          by (apply (Permutation_in _ Hp); left; reflexivity).
        destruct Hin as [->|Hin]; [lra|apply Hy; exact Hin]. }
    subst y. f_equal. apply IH; try assumption.
    apply (Permutation_cons_inv Hp).
Qed.

Lemma np_sort_permutation (l1 l2 : list R) :
  Permutation l1 l2 -> np_sort l1 = np_sort l2.
Proof.
  intro Hp. apply sorted_perm_unique; try apply np_sort_sorted.
  apply Permutation_trans with l1; [apply np_sort_perm|].
  apply Permutation_trans with l2; [exact Hp|].
  apply Permutation_sym, np_sort_perm.
Qed.

Lemma filter_length_permutation (f : R -> bool) (l1 l2 : list R) :
  Permutation l1 l2 -> length (filter f l1) = length (filter f l2).
Proof.
  induction 1 as [|x l1 l2 _ IH|x y l|l1 l2 l3 _ IH1 _ IH2]; simpl.
  - reflexivity.
  - destruct (f x); simpl; rewrite IH; reflexivity.
  - destruct (f x), (f y); reflexivity.
  - rewrite IH1. exact IH2.
Qed.

Lemma fraction_permutation (f : R -> bool) (l1 l2 : list R) (n : nat) :
  Permutation l1 l2 -> fraction f l1 n = fraction f l2 n.
Proof.
  intro Hp. unfold fraction.
  rewrite (filter_length_permutation f _ _ Hp). reflexivity.
Qed.

Lemma np_sum_lower (l : list R) (c : R) :
  (forall x, In x l -> c <= x) -> INR (length l) * c <= np_sum l.
Proof.
  induction l as [|x l IH]; intro H.
  - rewrite np_sum_nil. simpl. lra.
  - rewrite np_sum_cons. cbn [length]. rewrite S_INR.
    assert (c <= x) by (apply H; left; reflexivity).
    assert (INR (length l) * c <= np_sum l)
      by (apply IH; intros; apply H; right; assumption).
    lra.
Qed.

Lemma np_mean_value (l : list R) (v : R) :
  np_mean l = Some v ->
  (0 < length l)%nat /\ v * INR (length l) = np_sum l.
Proof.
  destruct l as [|x l]; [discriminate|].
  unfold np_mean. intro H. inversion H; subst. split; [simpl; lia|].
  unfold Rdiv. rewrite Rmult_assoc, Rinv_l; [lra|].
  apply not_0_INR. simpl. lia.
Qed.

Lemma In_firstn_list (m : nat) (l : list R) (y : R) :
  In y (firstn m l) -> In y l.
Proof.
  intro H. rewrite <- (firstn_skipn m l). apply in_or_app. left. exact H.
Qed.

Lemma np_mean_lower (l : list R) (c v : R) :
  (forall x, In x l -> c <= x) -> np_mean l = Some v -> c <= v.
Proof.
  intros Hb Hm. destruct (np_mean_value l v Hm) as [Hn Hv].
  pose proof (np_sum_lower l c Hb) as Hs.
  assert (Hpos : 0 < INR (length l)) by (apply lt_0_INR; exact Hn).
  apply Rmult_le_reg_r with (INR (length l)); [exact Hpos|]. lra.
Qed.

Lemma fraction_value (f : R -> bool) (l : list R) (n : nat) :
  (0 < n)%nat ->
  fraction f l n = Some (INR (length (filter f l)) / INR n).
Proof.
  intro Hn. unfold fraction.
  destruct (Nat.eqb_spec n 0) as [H0|_]; [lia|reflexivity].
Qed.

Lemma filter_length_le (f : R -> bool) (l : list R) :
  (length (filter f l) <= length l)%nat.
Proof.
  induction l as [|x l IH]; simpl; [lia|].
  destruct (f x); simpl; lia.
Qed.

Lemma filter_length_mono (f g : R -> bool) (l : list R) :
  (forall x, f x = true -> g x = true) ->
  (length (filter f l) <= length (filter g l))%nat.
Proof.
  intro H. induction l as [|x l IH]; simpl; [lia|].
  destruct (f x) eqn:Ef.
  - rewrite (H x Ef). simpl. lia.
  - destruct (g x); simpl; lia.
Qed.

Lemma filter_length_disjoint (f g : R -> bool) (l : list R) :
  (forall x, f x = true -> g x = false) ->
  (length (filter f l) + length (filter g l) <= length l)%nat.
Proof.
  intro H. induction l as [|x l IH]; simpl; [lia|].
  destruct (f x) eqn:Ef.
  - rewrite (H x Ef). simpl. lia.
  - destruct (g x); simpl; lia.
Qed.

Lemma filter_length_cover (f g : R -> bool) (l : list R) :
  (forall x, f x = true -> g x = false) ->
  (forall x, In x l -> f x = true \/ g x = true) ->
  (length (filter f l) + length (filter g l) = length l)%nat.
Proof.
  intros H Hc. induction l as [|x l IH]; simpl; [lia|].
  assert (IH' : (length (filter f l) + length (filter g l) = length l)%nat)
    by (apply IH; intros; apply Hc; right; assumption).
  destruct (f x) eqn:Ef.
  - rewrite (H x Ef). simpl. lia.
  - destruct (Hc x (or_introl eq_refl)) as [Hf|Hg]; [congruence|].
    rewrite Hg. simpl. lia.
Qed.

Lemma lt_b_true (x y : R) : lt_b x y = true <-> x < y.
Proof.
  unfold lt_b. destruct (Rlt_dec x y); split; intro H;
    try reflexivity; try assumption; try discriminate; contradiction.
Qed.

Lemma ratio_le (a b n : nat) :
  (0 < n)%nat -> (a <= b)%nat -> INR a / INR n <= INR b / INR n.
Proof.
  intros Hn Hab. apply Rmult_le_compat_r.
  - left. apply Rinv_0_lt_compat, lt_0_INR. exact Hn.
  - apply le_INR. exact Hab.
Qed.

(** * Further properties: the risk metrics *)

(** X1.  The metrics that are read off the sorted array or that count
    returns do not depend on the order of the returns: for two non-empty
    arrays that are permutations of each other the median, the six
    percentiles, the three VaR figures, the three CVaR figures and the
    eight probabilities coincide.  (The mean, the standard deviation,
    skewness, kurtosis and the Sharpe ratio are sums over the array in
    the order given and are left out.) *)
Theorem rank_metrics_ignore_order (r1 r2 : list R) :
  Permutation r1 r2 -> (1 <= length r1)%nat ->
  exists m1 m2,
    _calculate_metrics r1 = Ok m1 /\ _calculate_metrics r2 = Ok m2 /\
    median_return m1 = median_return m2 /\
    (percentile_1 m1 = percentile_1 m2 /\
     percentile_5 m1 = percentile_5 m2 /\
     percentile_25 m1 = percentile_25 m2 /\
     percentile_75 m1 = percentile_75 m2 /\
     percentile_95 m1 = percentile_95 m2 /\
     percentile_99 m1 = percentile_99 m2) /\
    (VaR_95 m1 = VaR_95 m2 /\ VaR_99 m1 = VaR_99 m2 /\
     VaR_999 m1 = VaR_999 m2) /\
    (CVaR_95 m1 = CVaR_95 m2 /\ CVaR_99 m1 = CVaR_99 m2 /\
     CVaR_999 m1 = CVaR_999 m2) /\
    (prob_loss m1 = prob_loss m2 /\ prob_loss_10 m1 = prob_loss_10 m2 /\
     prob_loss_20 m1 = prob_loss_20 m2 /\ prob_loss_50 m1 = prob_loss_50 m2) /\
    (prob_profit m1 = prob_profit m2 /\
     prob_profit_10 m1 = prob_profit_10 m2 /\
     prob_profit_20 m1 = prob_profit_20 m2 /\
     prob_profit_50 m1 = prob_profit_50 m2).
Proof.
  intros Hp Hn.
  assert (Hn2 : (1 <= length r2)%nat)
    by (rewrite <- (Permutation_length Hp); exact Hn).
  rewrite (calculate_metrics_fields r1 Hn), (calculate_metrics_fields r2 Hn2).
  do 2 eexists. split; [reflexivity|]. split; [reflexivity|].
  cbn [median_return percentile_1 percentile_5 percentile_25 percentile_75
       percentile_95 percentile_99 VaR_95 VaR_99 VaR_999 CVaR_95 CVaR_99
       CVaR_999 prob_loss prob_loss_10 prob_loss_20 prob_loss_50
       prob_profit prob_profit_10 prob_profit_20 prob_profit_50].
  unfold np_median.
  rewrite <- (Permutation_length Hp), <- (np_sort_permutation _ _ Hp).
  rewrite <- !(fraction_permutation _ _ _ _ Hp).
  repeat split; reflexivity.
Qed.

Lemma rank_metrics_ignore_order_witness :
  exists m1 m2,
    _calculate_metrics [0.03; -0.02; 0.01] = Ok m1 /\
    _calculate_metrics [-0.02; 0.01; 0.03] = Ok m2 /\
    median_return m1 = median_return m2 /\ VaR_95 m1 = VaR_95 m2.
Proof.
  destruct (rank_metrics_ignore_order [0.03; -0.02; 0.01] [-0.02; 0.01; 0.03])
    as (m1 & m2 & H1 & H2 & Hmed & _ & (Hvar & _) & _).
  - apply Permutation_trans with [-0.02; 0.03; 0.01].
    + apply perm_swap.
    + apply perm_skip. apply perm_swap.
  - simpl. lia.
  - exists m1, m2. repeat split; assumption.
Defined.

(** X2.  For a non-empty returns array the reported percentiles are
    ordered, 1st <= 5th <= 25th <= 75th <= 95th <= 99th, and so are the
    values at risk, VaR 99.9% <= VaR 99% <= VaR 95%. *)
Theorem percentiles_are_ordered (returns : list R) :
  (1 <= length returns)%nat ->
  exists m,
    _calculate_metrics returns = Ok m /\
    percentile_1 m <= percentile_5 m /\
    percentile_5 m <= percentile_25 m /\
    percentile_25 m <= percentile_75 m /\
    percentile_75 m <= percentile_95 m /\
    percentile_95 m <= percentile_99 m /\
    VaR_999 m <= VaR_99 m /\ VaR_99 m <= VaR_95 m.
Proof.
  intro Hn. rewrite (calculate_metrics_fields returns Hn).
  eexists. split; [reflexivity|].
  cbn [percentile_1 percentile_5 percentile_25 percentile_75 percentile_95
       percentile_99 VaR_95 VaR_99 VaR_999].
  set (n := length returns) in *.
  pose proof (np_sort_sorted returns) as Hs.
  pose proof (np_sort_length returns) as Hlen. fold n in Hlen.
  assert (H99 : (n * 99 / 100 < n)%nat) by (apply rank_below; lia).
  assert (Hstep : forall a b, (a <= b)%nat -> (b <= 99)%nat ->
            nth (n * a / 100) (np_sort returns) 0
            <= nth (n * b / 100) (np_sort returns) 0).
  { intros a b Hab Hb. apply sorted_nth_le; [exact Hs| |].
    - apply Nat.Div0.div_le_mono. nia.
    - rewrite Hlen. apply Nat.le_lt_trans with (n * 99 / 100)%nat;
        [apply Nat.Div0.div_le_mono; nia|exact H99]. }
  split; [apply Hstep; lia|]. split; [apply Hstep; lia|].
  split; [apply Hstep; lia|]. split; [apply Hstep; lia|].
  split; [apply Hstep; lia|]. split; [|apply Hstep; lia].
  apply sorted_nth_le; [exact Hs| |].
  - apply Nat.div_le_compat_l. lia.
  - rewrite Hlen. apply Nat.le_lt_trans with (n * 99 / 100)%nat;
      [apply Nat.Div0.div_le_mono; nia|exact H99].
Qed.

Lemma percentiles_are_ordered_witness :
  exists m,
    _calculate_metrics [0.03; -0.02; 0.01] = Ok m /\
    percentile_5 m <= percentile_95 m.
Proof.
  destruct (percentiles_are_ordered [0.03; -0.02; 0.01])
    as (m & Hm & _ & H1 & H2 & H3 & _).
  - simpl. lia.
  - exists m. split; [exact Hm|]. lra.
Defined.

(** X5.  For a non-empty returns array every probability metric is a
    fraction between 0 and 1, the loss probabilities are nested
    (loss > 50% <= loss > 20% <= loss > 10% <= any loss) and so are the
    profit probabilities; the probabilities of loss and of profit add up
    to at most 1, and to exactly 1 when no return is exactly 0. *)
Theorem probabilities_are_nested (returns : list R) :
  (1 <= length returns)%nat ->
  exists m pl pl10 pl20 pl50 pp pp10 pp20 pp50,
    _calculate_metrics returns = Ok m /\
    (prob_loss m = Some pl /\ prob_loss_10 m = Some pl10 /\
     prob_loss_20 m = Some pl20 /\ prob_loss_50 m = Some pl50) /\
    (prob_profit m = Some pp /\ prob_profit_10 m = Some pp10 /\
     prob_profit_20 m = Some pp20 /\ prob_profit_50 m = Some pp50) /\
    (0 <= pl50 /\ pl50 <= pl20 /\ pl20 <= pl10 /\ pl10 <= pl /\ pl <= 1) /\
    (0 <= pp50 /\ pp50 <= pp20 /\ pp20 <= pp10 /\ pp10 <= pp /\ pp <= 1) /\
    pl + pp <= 1 /\
    ((forall r, In r returns -> r <> 0) -> pl + pp = 1).
Proof.
  intro Hn. rewrite (calculate_metrics_fields returns Hn).
  set (n := length returns) in *.
  rewrite !fraction_value by exact Hn.
  do 9 eexists. split; [reflexivity|].
  cbn [prob_loss prob_loss_10 prob_loss_20 prob_loss_50
       prob_profit prob_profit_10 prob_profit_20 prob_profit_50].
  split; [repeat split; reflexivity|].
  split; [repeat split; reflexivity|].
  assert (Hn0 : 0 < INR n) by (apply lt_0_INR; exact Hn).
  assert (Hfrac0 : forall k : nat, 0 <= INR k / INR n).
  { intro k. apply Rmult_le_pos; [apply pos_INR|].
    left. apply Rinv_0_lt_compat. exact Hn0. }
  assert (Hfrac1 : forall f, INR (length (filter f returns)) / INR n <= 1).
  { intro f. replace 1 with (INR n / INR n) by (field; lra).
    apply ratio_le; [exact Hn|]. apply filter_length_le. }
  assert (Hmono : forall a b,
            a <= b ->
            INR (length (filter (fun r => lt_b r a) returns)) / INR n
            <= INR (length (filter (fun r => lt_b r b) returns)) / INR n).
  { intros a b Hab. apply ratio_le; [exact Hn|].
    apply filter_length_mono. intros x Hx.
    apply lt_b_true in Hx. apply lt_b_true. lra. }
  assert (Hmono' : forall a b,
            a <= b ->
            INR (length (filter (fun r => lt_b b r) returns)) / INR n
            <= INR (length (filter (fun r => lt_b a r) returns)) / INR n).
  { intros a b Hab. apply ratio_le; [exact Hn|].
    apply filter_length_mono. intros x Hx.
    apply lt_b_true in Hx. apply lt_b_true. lra. }
  split.
  { repeat split; try apply Hfrac0; try apply Hfrac1; apply Hmono; lra. }
  split.
  { repeat split; try apply Hfrac0; try apply Hfrac1; apply Hmono'; lra. }
  assert (Hdisj : forall x : R, lt_b x 0 = true -> lt_b 0 x = false).
  { intros x Hx. apply lt_b_true in Hx.
    destruct (lt_b 0 x) eqn:E; [|reflexivity].
    apply lt_b_true in E. lra. }
  split.
  - replace 1 with (INR n / INR n) by (field; lra).
    unfold Rdiv. rewrite <- Rmult_plus_distr_r, <- plus_INR.
    apply ratio_le; [exact Hn|].
    apply filter_length_disjoint. exact Hdisj.
  - intro Hnz. unfold Rdiv. rewrite <- Rmult_plus_distr_r, <- plus_INR.
    rewrite filter_length_cover; [fold n; field; lra|exact Hdisj|].
    intros x Hx. specialize (Hnz x Hx).
    destruct (Rtotal_order x 0) as [Hlt|[Heq|Hgt]].
    + left. apply lt_b_true. exact Hlt.
    + contradiction.
    + right. apply lt_b_true. exact Hgt.
Qed.

Lemma probabilities_are_nested_witness :
  exists m pl pp,
    _calculate_metrics [0.03; -0.02; 0.01] = Ok m /\
    prob_loss m = Some pl /\ prob_profit m = Some pp /\ pl + pp = 1.
Proof.
  destruct (probabilities_are_nested [0.03; -0.02; 0.01])
    as (m & pl & pl10 & pl20 & pl50 & pp & pp10 & pp20 & pp50
        & Hm & (Hpl & _) & (Hpp & _) & _ & _ & _ & Hsum).
  - simpl. lia.
  - exists m, pl, pp. repeat split; try assumption.
    apply Hsum. intros r [<-|[<-|[<-|[]]]]; lra.
Defined.

(** ** Bounds from the range of the returns *)

Lemma sorted_item_in_range (l : list R) (lo hi : R) (k : nat) :
  (forall r, In r l -> lo <= r <= hi) -> (k < length l)%nat ->
  lo <= nth k (np_sort l) 0 <= hi.
Proof.
  intros H Hk. apply H. apply (Permutation_in _ (np_sort_perm l)).
  apply nth_In. rewrite np_sort_length. exact Hk.
Qed.

Lemma np_median_in_range (l : list R) (lo hi : R) :
  (1 <= length l)%nat -> (forall r, In r l -> lo <= r <= hi) ->
  exists med, np_median l = Some med /\ lo <= med <= hi.
Proof.
  intros Hn H. unfold np_median. rewrite np_sort_length.
  destruct (Nat.eqb_spec (length l) 0) as [H0|_]; [lia|].
  assert (Hhalf : (length l / 2 < length l)%nat)
    by (apply Nat.div_lt; lia).
  destruct (Nat.even (length l)).
  - eexists. split; [reflexivity|].
    pose proof (sorted_item_in_range l lo hi (length l / 2 - 1) H
                  ltac:(lia)) as H1.
    pose proof (sorted_item_in_range l lo hi (length l / 2) H Hhalf) as H2.
    lra.
  - eexists. split; [reflexivity|].
    apply sorted_item_in_range; assumption.
Qed.

(** X6.  The metrics that are read off the sorted array stay within the
    range of the data: when every return lies in [lo, hi], so do the
    median, the six percentiles and the three VaR figures. *)
Theorem rank_metrics_within_range (returns : list R) (lo hi : R) :
  (1 <= length returns)%nat ->
  (forall r, In r returns -> lo <= r <= hi) ->
  exists m med,
    _calculate_metrics returns = Ok m /\
    median_return m = Some med /\ lo <= med <= hi /\
    lo <= percentile_1 m <= hi /\ lo <= percentile_5 m <= hi /\
    lo <= percentile_25 m <= hi /\ lo <= percentile_75 m <= hi /\
    lo <= percentile_95 m <= hi /\ lo <= percentile_99 m <= hi /\
    lo <= VaR_95 m <= hi /\ lo <= VaR_99 m <= hi /\ lo <= VaR_999 m <= hi.
Proof.
  intros Hn H. rewrite (calculate_metrics_fields returns Hn).
  destruct (np_median_in_range returns lo hi Hn H) as (med & Hmed & Hmedr).
  eexists. exists med. split; [reflexivity|].
  cbn [median_return percentile_1 percentile_5 percentile_25
       percentile_75 percentile_95 percentile_99 VaR_95 VaR_99 VaR_999].
  split; [exact Hmed|]. split; [exact Hmedr|].
  assert (Hk : forall a b, (a < b)%nat ->
            lo <= nth (length returns * a / b) (np_sort returns) 0 <= hi).
  { intros a b Hab. apply sorted_item_in_range; [exact H|].
    apply rank_below; [lia|exact Hab]. }
  repeat (split; [apply Hk; lia|]).
  apply Hk. lia.
Qed.

Lemma rank_metrics_within_range_witness :
  exists m med,
    _calculate_metrics [0.03; -0.02; 0.01] = Ok m /\
    median_return m = Some med /\ -0.02 <= med <= 0.03.
Proof.
  destruct (rank_metrics_within_range [0.03; -0.02; 0.01] (-0.02) 0.03)
    as (m & med & Hm & Hmed & Hr & _).
  - simpl. lia.
  - intros r [<-|[<-|[<-|[]]]]; lra.
  - exists m, med. repeat split; try assumption; apply Hr.
Defined.

(** * Further properties: the exported percentile table *)

Lemma export_row (res : results) (pct : nat) (v : option R) :
  In (pct, v) (export_results res) ->
  v = np_percentile (returns_of res) (INR pct) /\ (1 <= pct <= 99)%nat.
Proof.
  unfold export_results. intro Hin.
  apply in_map_iff in Hin. destruct Hin as (p & Heq & Hp).
  inversion Heq; subst. split; [reflexivity|].
  cbn [In] in Hp. lia.
Qed.

Lemma np_percentile_monotone (returns : list R) (p1 p2 : nat) :
  (1 <= length returns)%nat -> (p1 <= p2)%nat -> (p2 <= 100)%nat ->
  exists x1 x2,
    np_percentile returns (INR p1) = Some x1 /\
    np_percentile returns (INR p2) = Some x2 /\ x1 <= x2.
Proof.
  intros Hn H12 H2.
  destruct (np_percentile_linear returns p1 Hn) as [E1 G1].
  destruct (np_percentile_linear returns p2 Hn) as [E2 G2].
  cbv zeta in E1, E2, G1, G2.
  set (n := length returns) in *.
  set (s := np_sort returns) in *.
  set (j1 := ((n - 1) * p1 / 100)%nat) in *.
  set (j2 := ((n - 1) * p2 / 100)%nat) in *.
  assert (Hs : StronglySorted Rle s) by apply np_sort_sorted.
  assert (Hlen : length s = n) by apply np_sort_length.
  assert (Hj : (j1 <= j2)%nat)
    by (apply Nat.Div0.div_le_mono; nia).
  assert (Hj2 : (j2 <= n - 1)%nat)
    by (apply Nat.Div0.div_le_upper_bound; nia).
  assert (Hup : forall i j, (i <= j)%nat -> (j <= n - 1)%nat ->
            nth i s 0 <= nth j s 0).
  { intros i j Hij Hjn. apply sorted_nth_le; [exact Hs|exact Hij|].
    rewrite Hlen. lia. }
  do 2 eexists. split; [exact E1|]. split; [exact E2|].
  pose proof (Hup j1 (Nat.min (j1 + 1) (n - 1)) ltac:(lia) ltac:(lia)) as D1.
  pose proof (Hup j2 (Nat.min (j2 + 1) (n - 1)) ltac:(lia) ltac:(lia)) as D2.
  destruct (Nat.eq_dec j1 j2) as [Heq|Hne].
  - rewrite <- Heq in *.
    assert (Hg : INR (n - 1) * (INR p1 / 100) <= INR (n - 1) * (INR p2 / 100)).
    { apply Rmult_le_compat_l; [apply pos_INR|].
      apply le_INR in H12. lra. }
    nra.
  - pose proof (Hup (Nat.min (j1 + 1) (n - 1)) j2 ltac:(lia) Hj2) as D3.
    nra.
Qed.

(** X9.  The exported percentile table is non-decreasing: for a non-empty
    returns array every row has a number, and a row of a higher
    percentile never holds a smaller value. *)
Theorem export_table_monotone (res : results) (p1 p2 : nat)
    (v1 v2 : option R) :
  (1 <= length (returns_of res))%nat ->
  In (p1, v1) (export_results res) -> In (p2, v2) (export_results res) ->
  (p1 <= p2)%nat ->
  exists x1 x2, v1 = Some x1 /\ v2 = Some x2 /\ x1 <= x2.
Proof.
  intros Hn H1 H2 H12.
  apply export_row in H1. destruct H1 as [-> Hp1].
  apply export_row in H2. destruct H2 as [-> Hp2].
  apply np_percentile_monotone; [exact Hn|exact H12|lia].
Qed.

Lemma export_table_monotone_witness :
  exists m x1 x2,
    _calculate_metrics [0; 1] = Ok m /\
    np_percentile [0; 1] (INR 5) = Some x1 /\
    np_percentile [0; 1] (INR 95) = Some x2 /\ x1 <= x2.
Proof.
  destruct (calculate_metrics_ok [0; 1]) as (m & Hm & _); [simpl; lia|].
  destruct (export_table_monotone (mk_results [75; 150] [0; 1] m cfg_two [])
              5 95 (np_percentile [0; 1] (INR 5))
              (np_percentile [0; 1] (INR 95)))
    as (x1 & x2 & E1 & E2 & Hle).
  - simpl. lia.
  - unfold export_results. cbn [returns_of map In]. tauto.
  - unfold export_results. cbn [returns_of map In]. tauto.
  - lia.
  - exists m, x1, x2. repeat split; assumption.
Defined.

Lemma np_percentile_median_odd (returns : list R) :
  Nat.odd (length returns) = true ->
  np_percentile returns (INR 50) = np_median returns.
Proof.
  intro Hodd.
  assert (Hev : Nat.even (length returns) = false)
    by (rewrite <- Nat.negb_odd, Hodd; reflexivity).
  apply Nat.odd_spec in Hodd. destruct Hodd as [k Hk].
  assert (Hn : (1 <= length returns)%nat) by lia.
  destruct (np_percentile_linear returns 50 Hn) as [E _].
  cbv zeta in E. rewrite E. clear E.
  unfold np_median. rewrite np_sort_length.
  set (n := length returns) in *.
  set (s := np_sort returns).
  destruct (Nat.eqb_spec n 0) as [H0|_]; [lia|].
  assert (H50 : INR 50 / 100 = / 2) by (rewrite INR_IZR_INZ; simpl; lra).
  rewrite H50, Hev.
  assert (Hj : ((n - 1) * 50 / 100 = k)%nat).
  { symmetry. apply Nat.div_unique with (r := 0%nat); lia. }
  rewrite Hj.
  replace (n / 2)%nat with k
    by (apply Nat.div_unique with (r := 1%nat); lia).
  f_equal.
  assert (Hn1 : INR (n - 1) = 2 * INR k).
  { replace (n - 1)%nat with (2 * k)%nat by lia.
    rewrite mult_INR. simpl. lra. }
  rewrite Hn1. field.
Qed.

(** X10.  Although the exported table interpolates, its 50% row agrees
    with the metrics when the number of returns is odd: the rank of the
    50th percentile is then a whole number, nothing is interpolated, and
    the value written is the middle return, the [median_return] of the
    metrics. *)
Theorem export_median_row_odd (res : results) :
  Nat.odd (length (returns_of res)) = true ->
  exists m,
    _calculate_metrics (returns_of res) = Ok m /\
    In (50%nat, median_return m) (export_results res) /\
    forall v, In (50%nat, v) (export_results res) -> v = median_return m.
Proof.
  intro Hodd.
  assert (Hn : (1 <= length (returns_of res))%nat).
  { destruct (length (returns_of res)); [discriminate|lia]. }
  rewrite (calculate_metrics_fields (returns_of res) Hn).
  eexists. split; [reflexivity|]. cbn [median_return].
  rewrite <- (np_percentile_median_odd (returns_of res) Hodd).
  split.
  - unfold export_results. cbn [map In]. tauto.
  - intros v Hv. apply export_row in Hv. apply Hv.
Qed.

Lemma export_median_row_odd_witness :
  exists m m',
    _calculate_metrics [0; 1; 3] = Ok m /\
    In (50%nat, median_return m')
       (export_results (mk_results [75; 150; 300] [0; 1; 3] m cfg_two [])).
Proof.
  destruct (calculate_metrics_ok [0; 1; 3]) as (m & Hm & _); [simpl; lia|].
  destruct (export_median_row_odd
              (mk_results [75; 150; 300] [0; 1; 3] m cfg_two []))
    as (m' & _ & Hin & _).
  - reflexivity.
  - exists m, m'. split; assumption.
Defined.

(** * Further properties: the printed projections *)

Lemma sorted_map_monotone (f : R -> R) (l : list R) :
  (forall x y, x <= y -> f x <= f y) ->
  StronglySorted Rle l -> StronglySorted Rle (map f l).
Proof.
  intros Hf Hs. induction Hs as [|x l Hs IH Hx]; cbn [map].
  - constructor.
  - constructor; [exact IH|].
    apply Forall_forall. intros y Hy.
    apply in_map_iff in Hy. destruct Hy as (z & <- & Hz).
    apply Hf. rewrite Forall_forall in Hx. apply Hx, Hz.
Qed.

Lemma np_sort_map_monotone (f : R -> R) (l : list R) :
  (forall x y, x <= y -> f x <= f y) ->
  np_sort (map f l) = map f (np_sort l).
Proof.
  intro Hf. apply sorted_perm_unique.
  - apply np_sort_sorted.
  - apply sorted_map_monotone; [exact Hf|apply np_sort_sorted].
  - apply Permutation_trans with (map f l); [apply np_sort_perm|].
    apply Permutation_map, Permutation_sym, np_sort_perm.
Qed.

Lemma return_of_value_monotone (V0 x y : R) :
  0 < V0 -> x <= y -> (x - V0) / V0 <= (y - V0) / V0.
Proof.
  intros HV Hxy. unfold Rdiv.
  apply Rmult_le_compat_r; [left; apply Rinv_0_lt_compat; exact HV|lra].
Qed.

(** X11.  The percentile projections printed by the summary belong to
    the final values of rank [n*5/100] and [n*95/100]: for a positive
    initial value [V0] the return of a final value grows with the final
    value, so that the 5th (95th) percentile of the returns is the return
    [(v - V0) / V0] of the sorted final value [v] of that rank, and the
    projection printed is [V0 * (1 + (v - V0) / V0)] for that [v]. *)
Theorem projections_follow_ranks (fv : list R) (V0 : R) :
  (1 <= length fv)%nat -> 0 < V0 ->
  let n := length fv in
  let v5 := nth (n * 5 / 100) (np_sort fv) 0 in
  let v95 := nth (n * 95 / 100) (np_sort fv) 0 in
  exists m,
    _calculate_metrics (map (fun v => (v - V0) / V0) fv) = Ok m /\
    percentile_5 m = (v5 - V0) / V0 /\
    percentile_95 m = (v95 - V0) / V0 /\
    p5_final (_print_summary m V0) = V0 * (1 + (v5 - V0) / V0) /\
    p95_final (_print_summary m V0) = V0 * (1 + (v95 - V0) / V0).
Proof.
  intros Hn HV n v5 v95.
  assert (Hlen : (0 < length (map (fun v => ((v - V0) / V0)%R) fv))%nat)
    by (rewrite length_map; exact Hn).
  rewrite (calculate_metrics_fields _ Hlen).
  eexists. split; [reflexivity|].
  unfold _print_summary.
  cbn [p5_final p95_final percentile_5 percentile_95].
  rewrite length_map. fold n.
  rewrite np_sort_map_monotone
    by (intros x y; apply return_of_value_monotone; exact HV).
  assert (Hk : forall k, (k < n)%nat ->
            nth k (map (fun v => (v - V0) / V0) (np_sort fv)) 0
            = (nth k (np_sort fv) 0 - V0) / V0).
  { intros k Hk. apply nth_returns. rewrite np_sort_length. exact Hk. }
  rewrite !Hk by (apply rank_below; [exact Hn|lia]).
  repeat split; reflexivity.
Qed.

Lemma projections_follow_ranks_witness :
  exists m,
    _calculate_metrics (map (fun v => (v - 75) / 75) [80; 70; 90]) = Ok m /\
    p5_final (_print_summary m 75)
    = 75 * (1 + (nth 0 (np_sort [80; 70; 90]) 0 - 75) / 75).
Proof.
  destruct (projections_follow_ranks [80; 70; 90] 75)
    as (m & Hm & _ & _ & Hp5 & _).
  - simpl. lia.
  - lra.
  - exists m. split; [exact Hm|exact Hp5].
Defined.

(** * Further properties: the engine on malformed and edge inputs *)

Lemma py_int_negative (r : R) : r <= -1 -> (py_int r < 0)%Z.
Proof.
  intro Hr. unfold py_int. destruct (Rle_dec 0 r) as [H|_]; [lra|].
  destruct (base_Int_part (- r)) as [_ Hgt].
  assert (0 < Int_part (- r))%Z by (apply lt_IZR; lra).
  lia.
Qed.

Lemma py_int_small (r : R) : -1 < r < 1 -> py_int r = 0%Z.
Proof.
  intro Hr. unfold py_int. destruct (Rle_dec 0 r) as [H|H].
  - symmetry. apply Int_part_spec. lra.
  - replace (Int_part (- r)) with 0%Z; [reflexivity|].
    apply Int_part_spec. lra.
Qed.

(** The first batch of a run starts at the seed and simulates
    [min batch_size n_simulations] paths; when it raises, so does the run,
    and the generator stays where the batch left it. *)
Lemma run_first_batch_fails (gauss : nat -> R) (n_sims K : nat)
    (cfg : config) (T : R) (s s' : rng) (e : exn) (products : list R) :
  mul_arrays (cfg_weights cfg) (cfg_initial_prices cfg) = Ok products ->
  (0 < K)%nat -> (0 < n_sims)%nat ->
  simulate_portfolio_batch gauss (cfg_weights cfg) (cfg_initial_prices cfg)
    (cfg_expected_returns cfg) (cfg_volatilities cfg)
    (cfg_correlation_matrix cfg) T (Nat.min K n_sims) 0%nat
  = (Raise e, s') ->
  run gauss n_sims K cfg T s = (Raise e, s').
Proof.
  intros Hmul HK HS Hfail. unfold run, bind at 1, engine_init.
  destruct (Nat.eqb_spec K 0) as [HK0|_]; [lia|].
  rewrite n_batches_exact by exact HK.
  unfold run_5M_simulation, bind at 1, lift. rewrite Hmul.
  cbn [n_simulations n_batches]. rewrite Nat2Z.id.
  pose proof (ceil_div_pos n_sims K HK HS) as Hq.
  destruct (ceil_div n_sims K) as [|q]; [lia|].
  cbn [seq batch_loop]. unfold bind.
  unfold batch_end, batch_start. cbn [n_simulations batch_size].
  replace (Nat.min (0 * K + K) n_sims - 0 * K)%nat with (Nat.min K n_sims)
    by (simpl; lia).
  rewrite Hfail. reflexivity.
Qed.

Lemma simulate_negative_horizon (gauss : nat -> R) (w p0 mu sigma : list R)
    (corr L : matrix) (T : R) (B : nat) (s : rng) :
  cholesky corr = Ok L -> (py_int (T * 252) < 0)%Z ->
  simulate_portfolio_batch gauss w p0 mu sigma corr T B s
  = (Raise ValueError, s).
Proof.
  intros Hchol Hneg.
  unfold simulate_portfolio_batch, bind, lift. rewrite Hchol.
  unfold standard_normal.
  destruct (Z.ltb_spec (py_int (T * 252)) 0); [reflexivity|lia].
Qed.

(** X12.  A horizon of minus one trading day or less is rejected: once the
    correlation matrix has been factorised, every batch raises ValueError
    when it asks the generator for a negative number of steps, before any
    variate is drawn, and so does the run. *)
Theorem negative_horizon_rejected (gauss : nat -> R) (n_sims K : nat)
    (cfg : config) (L : matrix) (T : R) (s : rng) :
  cholesky (cfg_correlation_matrix cfg) = Ok L ->
  length (cfg_initial_prices cfg) = length (cfg_weights cfg) ->
  (1 <= n_sims)%nat -> (1 <= K)%nat ->
  T * 252 <= -1 ->
  (forall B s',
     simulate_portfolio_batch gauss (cfg_weights cfg) (cfg_initial_prices cfg)
       (cfg_expected_returns cfg) (cfg_volatilities cfg)
       (cfg_correlation_matrix cfg) T B s'
     = (Raise ValueError, s')) /\
  run gauss n_sims K cfg T s = (Raise ValueError, 0%nat).
Proof.
  intros Hchol Hp0 HS HK HT.
  pose proof (py_int_negative _ HT) as Hneg.
  split.
  - intros B s'. apply (simulate_negative_horizon _ _ _ _ _ _ L); assumption.
  - destruct (mul_arrays_same_length _ _ Hp0) as [Hmul _].
    apply (run_first_batch_fails _ _ _ _ _ _ _ _ _ Hmul HK HS).
    apply (simulate_negative_horizon _ _ _ _ _ _ L); assumption.
Qed.

Lemma negative_horizon_rejected_witness :
  run gauss_ramp 4 2 cfg_two (-1) 5%nat = (Raise ValueError, 0%nat).
Proof.
  destruct cholesky_identity2 as [L HL].
  destruct (negative_horizon_rejected gauss_ramp 4 2 cfg_two L (-1) 5%nat)
    as [_ Hrun].
  - exact HL.
  - reflexivity.
  - lia.
  - lia.
  - lra.
  - exact Hrun.
Defined.

Lemma path_value_no_steps (gauss : nat -> R) (cfg : config) (L : matrix)
    (g : nat) :
  path_value gauss cfg L 0 g
  = initial_value (cfg_weights cfg) (cfg_initial_prices cfg).
Proof.
  unfold path_value, portfolio_value, initial_value.
  apply big_sum_ext. intros i _.
  unfold terminal_price, terminal_log_return. cbn [big_sum].
  rewrite exp_0. ring.
Qed.

(** X13.  A horizon of less than one trading day gives zero time steps:
    when [T * 252] stays, in absolute value, at or below the last
    binary64 number below one ([1 - 2^-53], so that the rounded product
    is below one as well), the run succeeds without drawing a single
    variate and every path has the same final value whatever the drifts
    and volatilities are; with fewer than 8 assets (where [np.sum] adds
    in the order of the loop over the assets) that value is the initial
    portfolio value and every return is 0. *)
Theorem sub_day_horizon_is_static (gauss : nat -> R) (n_sims K : nat)
    (cfg : config) (L : matrix) (T : R) (s : rng) :
  well_formed cfg L T -> (1 <= n_sims)%nat -> (1 <= K)%nat ->
  Rabs (T * 252) <= 1 - 1 / 9007199254740992 ->
  let V0 := initial_value (cfg_weights cfg) (cfg_initial_prices cfg) in
  exists res,
    run gauss n_sims K cfg T s = (Ok res, 0%nat) /\
    length (final_values res) = n_sims /\
    (forall g g', (g < n_sims)%nat -> (g' < n_sims)%nat ->
       nth g (final_values res) 0 = nth g' (final_values res) 0) /\
    ((length (cfg_weights cfg) < 8)%nat ->
     (forall g, (g < n_sims)%nat -> nth g (final_values res) 0 = V0) /\
     (V0 <> 0 ->
      forall g, (g < n_sims)%nat -> nth g (returns_of res) 0 = 0)).
Proof.
  intros Hwf HS HK HT V0.
  assert (HT' : -1 < T * 252 < 1).
  { unfold Rabs in HT. destruct (Rcase_abs (T * 252)); lra. }
  destruct (run_ok gauss n_sims K cfg L T s Hwf HK HS) as (m & _ & Hrun).
  cbv zeta in Hrun. rewrite (py_int_small _ HT') in Hrun.
  change (Z.to_nat 0) with 0%nat in Hrun.
  rewrite Nat.mul_0_r, Nat.mul_0_l in Hrun.
  eexists. split; [exact Hrun|].
  cbn [final_values returns_of].
  assert (Hfv : forall g, (g < n_sims)%nat ->
            nth g (map (path_value gauss cfg L 0) (seq 0 n_sims)) 0 = V0).
  { intros g Hg. rewrite nth_map_seq by exact Hg.
    apply path_value_no_steps. }
  split; [rewrite length_map, length_seq; reflexivity|].
  split.
  { intros g g' Hg Hg'. rewrite (Hfv g Hg), (Hfv g' Hg'). reflexivity. }
  intros _. split; [exact Hfv|].
  intros HV g Hg.
  rewrite nth_returns by (rewrite length_map, length_seq; exact Hg).
  rewrite (Hfv g Hg). fold V0. field. exact HV.
Qed.

Lemma sub_day_horizon_is_static_witness :
  exists res,
    run gauss_ramp 3 2 cfg_two 0.003 7%nat = (Ok res, 0%nat) /\
    length (final_values res) = 3%nat.
Proof.
  destruct (cfg_two_well_formed 0.003) as [L HL]; [lra|].
  destruct (sub_day_horizon_is_static gauss_ramp 3 2 cfg_two L 0.003 7%nat)
    as (res & Hrun & Hlen & _).
  - exact HL.
  - lia.
  - lia.
  - rewrite Rabs_pos_eq; lra.
  - exists res. split; assumption.
Defined.

(** X14.  A missing expected return or volatility is noticed late: when
    the configuration has fewer of them than weights (and is otherwise in
    order), the first batch draws all its normal variates, builds the
    correlated shocks and only then raises IndexError in the loop over
    the assets; the run ends with that exception. *)
Theorem missing_parameter_raises (gauss : nat -> R) (n_sims K : nat)
    (cfg : config) (L : matrix) (T : R) (s : rng) :
  cholesky (cfg_correlation_matrix cfg) = Ok L ->
  length (cfg_correlation_matrix cfg) = length (cfg_weights cfg) ->
  (0 < length (cfg_weights cfg))%nat ->
  length (cfg_initial_prices cfg) = length (cfg_weights cfg) ->
  (0 <= py_int (T * 252))%Z ->
  (length (cfg_expected_returns cfg) < length (cfg_weights cfg) \/
   length (cfg_volatilities cfg) < length (cfg_weights cfg))%nat ->
  (1 <= n_sims)%nat -> (1 <= K)%nat ->
  run gauss n_sims K cfg T s
  = (Raise IndexError,
     (Nat.min K n_sims * Z.to_nat (py_int (T * 252))
      * length (cfg_weights cfg))%nat).
Proof.
  intros Hchol Hdim HN Hp0 Hst Hshort HS HK.
  destruct (mul_arrays_same_length _ _ Hp0) as [Hmul _].
  apply (run_first_batch_fails _ _ _ _ _ _ _ _ _ Hmul HK HS).
  destruct (simulate_reaches_loop gauss (cfg_weights cfg)
              (cfg_initial_prices cfg) (cfg_expected_returns cfg)
              (cfg_volatilities cfg) (cfg_correlation_matrix cfg) L T
              (Nat.min K n_sims) 0%nat Hchol Hdim HN Hst) as (Zc & Hrun).
  rewrite Hrun, Nat.add_0_l. f_equal.
  apply asset_loop_raise.
  destruct Hshort as [Hmu|Hsg].
  - exists (length (cfg_expected_returns cfg)).
    split; [apply in_seq; lia|lia].
  - exists (length (cfg_volatilities cfg)).
    split; [apply in_seq; lia|lia].
Qed.

Lemma missing_parameter_raises_witness :
  run gauss_ramp 5 2
      (mk_config ["CPI"; "FSR"]%string [0.5; 0.5] [100; 50] [0.10; 0.05]
                 [0.20] identity2) 1 0%nat
  = (Raise IndexError, (Nat.min 2 5 * Z.to_nat (py_int (1 * 252)) * 2)%nat).
Proof.
  destruct cholesky_identity2 as [L HL].
  refine (missing_parameter_raises gauss_ramp 5 2
            (mk_config ["CPI"; "FSR"]%string [0.5; 0.5] [100; 50]
                       [0.10; 0.05] [0.20] identity2) L 1 0%nat
            HL _ _ _ _ _ _ _).
  - reflexivity.
  - simpl. lia.
  - reflexivity.
  - apply py_int_nonneg. lra.
  - right. simpl. lia.
  - lia.
  - lia.
Defined.

(** X15.  A correlation matrix whose size differs from the number of
    weights is accepted by the factorisation and refused by the matrix
    product: the first batch draws its variates and then raises
    ValueError. *)
Theorem correlation_size_mismatch (gauss : nat -> R) (n_sims K : nat)
    (cfg : config) (L : matrix) (T : R) (s : rng) :
  cholesky (cfg_correlation_matrix cfg) = Ok L ->
  length (cfg_correlation_matrix cfg) <> length (cfg_weights cfg) ->
  (0 < length (cfg_weights cfg))%nat ->
  length (cfg_initial_prices cfg) = length (cfg_weights cfg) ->
  (0 <= py_int (T * 252))%Z ->
  (1 <= n_sims)%nat -> (1 <= K)%nat ->
  run gauss n_sims K cfg T s
  = (Raise ValueError,
     (Nat.min K n_sims * Z.to_nat (py_int (T * 252))
      * length (cfg_weights cfg))%nat).
Proof.
  intros Hchol Hdim HN Hp0 Hst HS HK.
  destruct (mul_arrays_same_length _ _ Hp0) as [Hmul _].
  apply (run_first_batch_fails _ _ _ _ _ _ _ _ _ Hmul HK HS).
  unfold simulate_portfolio_batch, bind, lift. rewrite Hchol.
  unfold standard_normal.
  destruct (Z.ltb_spec (py_int (T * 252)) 0); [lia|].
  unfold reshape_rows. cbn [data]. rewrite length_map, length_seq.
  destruct (Nat.eqb_spec (length (cfg_weights cfg)) 0) as [H0|_]; [lia|].
  rewrite Nat.Div0.mod_mul. cbn [Nat.eqb].
  unfold matmul. cbn [shape data].
  rewrite transpose_length, (cholesky_length _ _ Hchol).
  destruct (Nat.eqb_spec (length (cfg_weights cfg))
              (length (cfg_correlation_matrix cfg))) as [Heq|_];
    [exfalso; apply Hdim; symmetry; exact Heq|].
  reflexivity.
Qed.

Lemma correlation_size_mismatch_witness :
  run gauss_ramp 5 2
      (mk_config ["CPI"; "FSR"]%string [0.5; 0.5] [100; 50] [0.10; 0.05]
                 [0.20; 0.10] [[1]]) 1 0%nat
  = (Raise ValueError, (Nat.min 2 5 * Z.to_nat (py_int (1 * 252)) * 2)%nat).
Proof.
  destruct cholesky_unit as [L HL].
  refine (correlation_size_mismatch gauss_ramp 5 2
            (mk_config ["CPI"; "FSR"]%string [0.5; 0.5] [100; 50]
                       [0.10; 0.05] [0.20; 0.10] [[1]]) L 1 0%nat
            HL _ _ _ _ _ _).
  - simpl. lia.
  - simpl. lia.
  - reflexivity.
  - apply py_int_nonneg. lra.
  - lia.
  - lia.
Defined.

(** X16.  Asking for more simulations only appends paths: because the
    constructor reseeds the generator, the final values and returns of a
    run of [S1] simulations are the first [S1] final values and returns of
    any run of [S2 >= S1] simulations of the same configuration, whatever
    the batch sizes. *)
Theorem more_simulations_extend (gauss : nat -> R) (S1 S2 K1 K2 : nat)
    (cfg : config) (L : matrix) (T : R) (s1 s2 : rng) :
  well_formed cfg L T ->
  (1 <= S1)%nat -> (S1 <= S2)%nat -> (1 <= K1)%nat -> (1 <= K2)%nat ->
  exists r1 r2,
    fst (run gauss S1 K1 cfg T s1) = Ok r1 /\
    fst (run gauss S2 K2 cfg T s2) = Ok r2 /\
    final_values r1 = firstn S1 (final_values r2) /\
    returns_of r1 = firstn S1 (returns_of r2).
Proof.
  intros Hwf H1 H12 HK1 HK2.
  destruct (run_ok gauss S1 K1 cfg L T s1 Hwf HK1 H1) as (m1 & _ & Hr1).
  destruct (run_ok gauss S2 K2 cfg L T s2 Hwf HK2 ltac:(lia))
    as (m2 & _ & Hr2).
  cbv zeta in Hr1, Hr2. rewrite Hr1, Hr2.
  do 2 eexists. split; [reflexivity|]. split; [reflexivity|].
  cbn [final_values returns_of].
  rewrite !firstn_map.
  replace (firstn S1 (seq 0 S2)) with (seq 0 S1); [split; reflexivity|].
  replace S2 with (S1 + (S2 - S1))%nat by lia.
  rewrite seq_app, firstn_app, length_seq, Nat.sub_diag.
  rewrite firstn_all2 by (rewrite length_seq; lia).
  cbn [firstn]. rewrite app_nil_r. reflexivity.
Qed.

Lemma more_simulations_extend_witness :
  exists r1 r2,
    fst (run gauss_ramp 3 2 cfg_two 1 0%nat) = Ok r1 /\
    fst (run gauss_ramp 8 5 cfg_two 1 4%nat) = Ok r2 /\
    final_values r1 = firstn 3 (final_values r2).
Proof.
  destruct (cfg_two_well_formed 1) as [L HL]; [lra|].
  destruct (more_simulations_extend gauss_ramp 3 8 2 5 cfg_two L 1
              0%nat 4%nat) as (r1 & r2 & H1 & H2 & Hfv & _).
  - exact HL.
  - lia.
  - lia.
  - lia.
  - lia.
  - exists r1, r2. repeat split; assumption.
Defined.

(** * Further properties: what the results depend on *)

Lemma nth_nonneg (l : list R) (i : nat) :
  Forall (fun x => 0 <= x) l -> 0 <= nth i l 0.
Proof.
  intro H. destruct (lt_dec i (length l)) as [Hi|Hi].
  - rewrite Forall_forall in H. apply H. apply nth_In. exact Hi.
  - rewrite nth_overflow by lia. lra.
Qed.

Lemma path_value_nonneg (gauss : nat -> R) (cfg : config) (L : matrix)
    (steps g : nat) :
  Forall (fun w => 0 <= w) (cfg_weights cfg) ->
  Forall (fun p => 0 <= p) (cfg_initial_prices cfg) ->
  0 <= path_value gauss cfg L steps g.
Proof.
  intros Hw Hp. unfold path_value, portfolio_value.
  apply big_sum_nonneg. intros i _. unfold terminal_price.
  apply Rmult_le_pos; [|apply nth_nonneg; exact Hw].
  apply Rmult_le_pos; [apply nth_nonneg; exact Hp|].
  left. apply exp_pos.
Qed.

Lemma sorted_item_in (l : list R) (k : nat) :
  (k < length l)%nat -> In (nth k (np_sort l) 0) l.
Proof.
  intro Hk. apply (Permutation_in _ (np_sort_perm l)).
  apply nth_In. rewrite np_sort_length. exact Hk.
Qed.

(** X17.  A long-only portfolio cannot lose more than everything: with
    non-negative weights and prices and a positive initial value, every
    simulated final value is non-negative and every return is at least
    -100%, and so are the 99.9% VaR and every CVaR that is a number. *)
Theorem long_only_loss_is_bounded (gauss : nat -> R) (n_sims K : nat)
    (cfg : config) (L : matrix) (T : R) (s : rng) :
  well_formed cfg L T -> (1 <= n_sims)%nat -> (1 <= K)%nat ->
  Forall (fun w => 0 <= w) (cfg_weights cfg) ->
  Forall (fun p => 0 <= p) (cfg_initial_prices cfg) ->
  0 < initial_value (cfg_weights cfg) (cfg_initial_prices cfg) ->
  exists res,
    fst (run gauss n_sims K cfg T s) = Ok res /\
    (forall v, In v (final_values res) -> 0 <= v) /\
    (forall r, In r (returns_of res) -> -1 <= r) /\
    -1 <= VaR_999 (metrics_of res) /\
    (forall v, CVaR_999 (metrics_of res) = Some v -> -1 <= v) /\
    (forall v, CVaR_99 (metrics_of res) = Some v -> -1 <= v) /\
    (forall v, CVaR_95 (metrics_of res) = Some v -> -1 <= v).
Proof.
  intros Hwf HS HK Hw Hp HV.
  destruct (run_ok gauss n_sims K cfg L T s Hwf HK HS) as (m & Hm & Hrun).
  cbv zeta in Hm, Hrun. rewrite Hrun.
  eexists. split; [reflexivity|].
  cbn [final_values returns_of metrics_of].
  set (V0 := initial_value (cfg_weights cfg) (cfg_initial_prices cfg)) in *.
  set (fv := map (path_value gauss cfg L (Z.to_nat (py_int (T * 252))))
                 (seq 0 n_sims)) in *.
  set (rets := map (fun v => (v - V0) / V0) fv) in *.
  assert (Hfv : forall v, In v fv -> 0 <= v).
  { intros v Hv. apply in_map_iff in Hv. destruct Hv as (g & <- & _).
    apply path_value_nonneg; assumption. }
  assert (Hrets : forall r, In r rets -> -1 <= r).
  { intros r Hr. apply in_map_iff in Hr. destruct Hr as (v & <- & Hv).
    specialize (Hfv v Hv).
    apply Rmult_le_reg_r with V0; [exact HV|].
    replace ((v - V0) / V0 * V0) with (v - V0) by (field; lra). lra. }
  assert (Hlen : (0 < length rets)%nat)
    by (unfold rets, fv; rewrite !length_map, length_seq; exact HS).
  destruct (calculate_metrics_ok rets Hlen)
    as (m' & Hm' & _ & (_ & _ & Hv999) & (Hc95 & Hc99 & Hc999) & _).
  rewrite Hm in Hm'. injection Hm' as Heq. subst m'.
  split; [exact Hfv|]. split; [exact Hrets|].
  split.
  { rewrite Hv999. apply Hrets, sorted_item_in.
    apply rank_below; [exact Hlen|lia]. }
  rewrite Hc95, Hc99, Hc999.
  split; [|split]; intros v Hv; apply (np_mean_lower _ _ _ (fun x Hx =>
    Hrets x (Permutation_in _ (np_sort_perm rets) (In_firstn_list _ _ _ Hx)))
    Hv).
Qed.

Lemma long_only_loss_is_bounded_witness :
  exists res,
    fst (run gauss_ramp 3 2 cfg_two 1 0%nat) = Ok res /\
    -1 <= VaR_999 (metrics_of res).
Proof.
  destruct (cfg_two_well_formed 1) as [L HL]; [lra|].
  destruct (long_only_loss_is_bounded gauss_ramp 3 2 cfg_two L 1 0%nat)
    as (res & Hrun & _ & _ & Hvar & _).
  - exact HL.
  - lia.
  - lia.
  - unfold cfg_two. cbn [cfg_weights]. repeat constructor; lra.
  - unfold cfg_two. cbn [cfg_initial_prices]. repeat constructor; lra.
  - unfold initial_value, cfg_two. simpl. lra.
  - exists res. split; assumption.
Defined.

(** ** A second run on the same engine *)

(** Starting a computation after [k] variates have been consumed is
    running it from the seed on the stream that begins there. *)
Lemma simulate_shift (gauss : nat -> R) (w p0 mu sigma : list R)
    (corr : matrix) (T : R) (B k s : nat) :
  simulate_portfolio_batch gauss w p0 mu sigma corr T B (k + s)%nat
  = (fst (simulate_portfolio_batch (shift_stream gauss k) w p0 mu sigma
            corr T B s),
     (k + snd (simulate_portfolio_batch (shift_stream gauss k) w p0 mu sigma
                 corr T B s))%nat).
Proof.
  unfold simulate_portfolio_batch, bind, lift.
  destruct (cholesky corr) as [L|e]; [|reflexivity].
  unfold standard_normal.
  destruct (Z.ltb (py_int (T * 252)) 0); [reflexivity|].
  rewrite (map_ext (fun j => gauss (k + s + j)%nat)
                   (fun j => shift_stream gauss k (s + j)%nat))
    by (intro j; unfold shift_stream; f_equal; lia).
  destruct (reshape_rows _ _) as [Zf|e]; [|cbn [fst snd]; f_equal; lia].
  destruct (matmul _ _) as [ZL|e]; [|cbn [fst snd]; f_equal; lia].
  destruct (reshape3 _ _ _ _) as [Zc|e]; [|cbn [fst snd]; f_equal; lia].
  cbn [fst snd]. f_equal. lia.
Qed.

Lemma batch_loop_shift (gauss : nat -> R) (e : engine) (cfg : config)
    (T : R) (k : nat) (idxs : list nat) :
  forall all trace s,
    batch_loop gauss e cfg T idxs all trace (k + s)%nat
    = (fst (batch_loop (shift_stream gauss k) e cfg T idxs all trace s),
       (k + snd (batch_loop (shift_stream gauss k) e cfg T idxs all trace s))
       %nat).
Proof.
  induction idxs as [|b rest IH]; intros all trace s.
  - reflexivity.
  - cbn [batch_loop]. unfold bind, lift. rewrite simulate_shift.
    destruct (simulate_portfolio_batch (shift_stream gauss k) _ _ _ _ _ _ _ s)
      as [[vals|ex] s'].
    + cbn [fst snd].
      destruct (set_slice _ _ _ _) as [all'|ex].
      * apply IH.
      * reflexivity.
    + reflexivity.
Qed.

Lemma run_5M_simulation_shift (gauss : nat -> R) (e : engine) (cfg : config)
    (T : R) (k s : nat) :
  run_5M_simulation gauss e cfg T (k + s)%nat
  = (fst (run_5M_simulation (shift_stream gauss k) e cfg T s),
     (k + snd (run_5M_simulation (shift_stream gauss k) e cfg T s))%nat).
Proof.
  unfold run_5M_simulation, bind, lift, ret.
  destruct (mul_arrays _ _) as [products|ex]; [|reflexivity].
  rewrite batch_loop_shift.
  destruct (batch_loop (shift_stream gauss k) _ _ _ _ _ _ s)
    as [[filled|ex] s'].
  - cbn [fst snd].
    destruct (_calculate_metrics _); reflexivity.
  - reflexivity.
Qed.

Lemma run_unfold (gauss : nat -> R) (n_sims K : nat) (cfg : config) (T : R)
    (s : rng) :
  (0 < K)%nat ->
  run gauss n_sims K cfg T s
  = run_5M_simulation gauss
      (mk_engine n_sims K (py_int (np_ceil (INR n_sims / INR K)))) cfg T 0%nat.
Proof.
  intro HK. unfold run, bind at 1, engine_init.
  destruct (Nat.eqb_spec K 0) as [HK0|_]; [lia|]. reflexivity.
Qed.

Lemma seq_from (b n : nat) :
  seq b n = map (fun g => (b + g)%nat) (seq 0 n).
Proof.
  induction n as [|n IH].
  - reflexivity.
  - rewrite !seq_S, map_app, <- IH. cbn [map]. rewrite Nat.add_0_l.
    reflexivity.
Qed.

Lemma path_value_shift (gauss : nat -> R) (cfg : config) (L : matrix)
    (steps b g : nat) :
  path_value (shift_stream gauss (b * steps * length (cfg_weights cfg)))
    cfg L steps g
  = path_value gauss cfg L steps (b + g)%nat.
Proof.
  unfold path_value. apply portfolio_value_ext. intros t i.
  unfold corr_shock. apply big_sum_ext. intros j _.
  unfold shift_stream. do 2 f_equal. lia.
Qed.

(** X19.  A second call of [run_5M_simulation] on the same engine does not
    repeat the first: the generator is seeded by the constructor only, so
    the second call continues the stream, and the final values of the two
    calls together are those of a single run of twice as many
    simulations. *)
Theorem second_run_continues (gauss : nat -> R) (n_sims K : nat)
    (cfg : config) (L : matrix) (T : R) (s : rng) :
  well_formed cfg L T -> (1 <= n_sims)%nat -> (1 <= K)%nat ->
  let self := mk_engine n_sims K (py_int (np_ceil (INR n_sims / INR K))) in
  let used := (n_sims * Z.to_nat (py_int (T * 252))
               * length (cfg_weights cfg))%nat in
  exists r1 r2 r,
    run gauss n_sims K cfg T s = (Ok r1, used) /\
    run_5M_simulation gauss self cfg T used = (Ok r2, (used + used)%nat) /\
    fst (run gauss (n_sims + n_sims) K cfg T s) = Ok r /\
    final_values r = final_values r1 ++ final_values r2 /\
    returns_of r = returns_of r1 ++ returns_of r2.
Proof.
  intros Hwf HS HK self used.
  destruct (run_ok gauss n_sims K cfg L T s Hwf HK HS) as (m1 & _ & Hr1).
  destruct (run_ok (shift_stream gauss used) n_sims K cfg L T s Hwf HK HS)
    as (m2 & _ & Hr2).
  destruct (run_ok gauss (n_sims + n_sims) K cfg L T s Hwf HK ltac:(lia))
    as (m & _ & Hr).
  cbv zeta in Hr1, Hr2, Hr. fold used in Hr1, Hr2.
  rewrite (run_unfold _ _ _ _ _ s HK) in Hr2. fold self in Hr2.
  do 3 eexists. split; [exact Hr1|].
  split.
  { rewrite <- (Nat.add_0_r used) at 1.
    rewrite run_5M_simulation_shift, Hr2. cbn [fst snd]. reflexivity. }
  rewrite Hr. split; [reflexivity|].
  cbn [final_values returns_of].
  assert (Hfv : map (path_value gauss cfg L (Z.to_nat (py_int (T * 252))))
                    (seq 0 (n_sims + n_sims))
                = map (path_value gauss cfg L (Z.to_nat (py_int (T * 252))))
                      (seq 0 n_sims)
                  ++ map (path_value (shift_stream gauss used) cfg L
                            (Z.to_nat (py_int (T * 252)))) (seq 0 n_sims)).
  { rewrite seq_app, map_app. f_equal.
    rewrite Nat.add_0_l, (seq_from n_sims n_sims), map_map.
    apply map_ext. intro g. symmetry. apply path_value_shift. }
  rewrite Hfv, map_app. split; reflexivity.
Qed.

Lemma second_run_continues_witness :
  exists r1 r2 r,
    fst (run gauss_ramp 3 2 cfg_two 1 0%nat) = Ok r1 /\
    fst (run gauss_ramp (3 + 3) 2 cfg_two 1 0%nat) = Ok r /\
    final_values r = final_values r1 ++ final_values r2.
Proof.
  destruct (cfg_two_well_formed 1) as [L HL]; [lra|].
  destruct (second_run_continues gauss_ramp 3 2 cfg_two L 1 0%nat)
    as (r1 & r2 & r & H1 & _ & Hr & Hfv & _).
  - exact HL.
  - lia.
  - lia.
  - exists r1, r2, r. rewrite H1. repeat split; assumption.
Defined.

(** * Further properties: the helper of the user interface *)

(** X21.  [run_monte_carlo_simulation] never raises and never simulates:
    with a batch size of zero the constructor's division by zero is
    caught and the answer is the empty dictionary, with the generator
    untouched; otherwise the answer echoes the arguments with the status
    "completed" although the engine was only constructed: the generator
    has been reseeded and not a single variate has been drawn. *)
Theorem helper_only_constructs (n_sims : nat) (annual_return annual_vol : R)
    (initial : R) (horizon : Z) (b_size : nat) (s : rng) :
  exists d s',
    Integration.run_monte_carlo_simulation n_sims annual_return annual_vol
      initial horizon b_size s = (Ok d, s') /\
    (b_size = 0%nat <-> d = []) /\
    (b_size = 0%nat -> s' = s) /\
    (b_size <> 0%nat ->
     s' = 0%nat /\
     Integration.get d "status"%string
     = Some (Integration.PyStr "completed"%string) /\
     Integration.get d "n_simulations"%string
     = Some (Integration.PyInt (Z.of_nat n_sims)) /\
     Integration.get d "batch_size"%string
     = Some (Integration.PyInt (Z.of_nat b_size))).
Proof.
  unfold Integration.run_monte_carlo_simulation, engine_init.
  destruct (Nat.eqb_spec b_size 0) as [H0|H0].
  - exists [], s. split; [reflexivity|]. split; [tauto|].
    split; [reflexivity|]. intro H. contradiction.
  - eexists. exists 0%nat. split; [reflexivity|].
    split; [split; [contradiction|discriminate]|].
    split; [contradiction|]. intros _.
    repeat split; reflexivity.
Qed.

Lemma helper_only_constructs_witness :
  exists d,
    Integration.run_monte_carlo_simulation 1000 0.12 0.18 726500 5 100 7%nat
    = (Ok d, 0%nat) /\
    Integration.get d "status"%string
    = Some (Integration.PyStr "completed"%string).
Proof.
  destruct (helper_only_constructs 1000 0.12 0.18 726500 5 100 7%nat)
    as (d & s' & Hrun & _ & _ & Hok).
  destruct Hok as (Hs & Hstatus & _); [discriminate|].
  exists d. rewrite Hrun, Hs. split; [reflexivity|exact Hstatus].
Defined.

(** * Further properties: the report generator on the percentile table *)

Lemma np_where_first_found (a : list Z) (key : Z) :
  In key a ->
  exists i, Report.np_where_first a key = Ok i /\ (i < length a)%nat.
Proof.
  induction a as [|x a IH]; intro Hin; [contradiction|].
  cbn [Report.np_where_first length].
  destruct (Z.eqb_spec x key) as [Heq|Hne].
  - exists 0%nat. split; [reflexivity|lia].
  - destruct Hin as [Hx|Hin]; [contradiction|].
    destruct (IH Hin) as (i & Hi & Hlt). rewrite Hi.
    exists (S i). split; [reflexivity|lia].
Qed.

Lemma np_where_first_missing (a : list Z) (key : Z) :
  ~ In key a -> Report.np_where_first a key = Raise IndexError.
Proof.
  induction a as [|x a IH]; intro Hin; [reflexivity|].
  cbn [Report.np_where_first].
  destruct (Z.eqb_spec x key) as [Heq|Hne].
  - exfalso. apply Hin. left. exact Heq.
  - rewrite IH; [reflexivity|]. intro H. apply Hin. right. exact H.
Qed.

Lemma report_lookup_found (rows : list (Z * R)) (V0 : R) (key : Z) :
  In key (map fst rows) ->
  exists v, Report.lookup (Report.init rows V0) key = Ok v /\
            In v (map snd rows).
Proof.
  intro Hin. unfold Report.lookup, Report.init.
  cbn [Report.percentiles Report.returns].
  destruct (np_where_first_found _ _ Hin) as (i & Hi & Hlt).
  rewrite Hi. cbn [obind].
  rewrite length_map in Hlt.
  rewrite getitem_ok by (rewrite length_map; exact Hlt).
  eexists. split; [reflexivity|].
  apply nth_In. rewrite length_map. exact Hlt.
Qed.

Lemma report_lookup_missing (rows : list (Z * R)) (V0 : R) (key : Z) :
  ~ In key (map fst rows) ->
  Report.lookup (Report.init rows V0) key = Raise IndexError.
Proof.
  intro Hin. unfold Report.lookup, Report.init.
  cbn [Report.percentiles Report.returns].
  rewrite np_where_first_missing by exact Hin. reflexivity.
Qed.

Lemma report_interp_defined (x : R) (rows : list (Z * R)) :
  rows <> [] ->
  exists y,
    Report.np_interp x (map (fun r => r * 100) (map snd rows))
                     (map IZR (map fst rows)) = Ok y.
Proof.
  intro Hne. destruct rows as [|[p v] rows]; [contradiction|].
  unfold Report.np_interp. cbn [map combine fst snd].
  destruct (Rlt_dec x (v * 100)); eexists; reflexivity.
Qed.

Lemma report_calculate_cases (rows : list (Z * R)) (V0 : R) :
  match Report.calculate_metrics (Report.init rows V0) with
  | Ok _ => forall k, In k [50; 5; 1; 75; 25]%Z -> In k (map fst rows)
  | Raise e =>
      e = IndexError /\
      exists k, In k [50; 5; 1; 75; 25]%Z /\ ~ In k (map fst rows)
  end.
Proof.
  unfold Report.calculate_metrics.
  destruct (in_dec Z.eq_dec 50%Z (map fst rows)) as [H50|H50].
  2:{ rewrite report_lookup_missing by exact H50. cbn [obind].
      split; [reflexivity|]. exists 50%Z. cbn [In]. tauto. }
  destruct (report_lookup_found rows V0 50 H50) as (v50 & E50 & _).
  rewrite E50. cbn [obind].
  assert (Hne : rows <> []) by (intro H; rewrite H in H50; exact H50).
  destruct (report_interp_defined 0 rows Hne) as (y & Ey).
  change (Report.returns (Report.init rows V0)) with (map snd rows).
  change (Report.percentiles (Report.init rows V0)) with (map fst rows).
  rewrite Ey. cbn [obind].
  destruct (in_dec Z.eq_dec 5%Z (map fst rows)) as [H5|H5].
  2:{ rewrite report_lookup_missing by exact H5. cbn [obind].
      split; [reflexivity|]. exists 5%Z. cbn [In]. tauto. }
  destruct (report_lookup_found rows V0 5 H5) as (v5 & E5 & _).
  rewrite E5. cbn [obind].
  destruct (in_dec Z.eq_dec 1%Z (map fst rows)) as [H1|H1].
  2:{ rewrite report_lookup_missing by exact H1. cbn [obind].
      split; [reflexivity|]. exists 1%Z. cbn [In]. tauto. }
  destruct (report_lookup_found rows V0 1 H1) as (v1 & E1 & _).
  rewrite E1. cbn [obind].
  assert (Hlen : (0 < length (map snd rows))%nat).
  { destruct rows; [contradiction|]. simpl. lia. }
  rewrite !getitem_ok by lia. cbn [obind].
  destruct (in_dec Z.eq_dec 75%Z (map fst rows)) as [H75|H75].
  2:{ rewrite report_lookup_missing by exact H75. cbn [obind].
      split; [reflexivity|]. exists 75%Z. cbn [In]. tauto. }
  destruct (report_lookup_found rows V0 75 H75) as (v75 & E75 & _).
  rewrite E75. cbn [obind].
  destruct (in_dec Z.eq_dec 25%Z (map fst rows)) as [H25|H25].
  2:{ rewrite report_lookup_missing by exact H25. cbn [obind].
      split; [reflexivity|]. exists 25%Z. cbn [In]. tauto. }
  destruct (report_lookup_found rows V0 25 H25) as (v25 & E25 & _).
  rewrite E25. cbn [obind].
  intros k Hk. cbn [In] in Hk.
  destruct Hk as [<-|[<-|[<-|[<-|[<-|[]]]]]]; assumption.
Qed.

(** X22.  The report generator needs the rows 1%, 5%, 25%, 50% and 75% of
    the table: [calculate_metrics] returns its metrics when the table holds
    all five, and raises IndexError when one of them is missing (in
    particular on an empty table). *)
Theorem report_needs_rows (rows : list (Z * R)) (V0 : R) :
  let present := forall k, In k [50; 5; 1; 75; 25]%Z -> In k (map fst rows) in
  (present ->
   exists m, Report.calculate_metrics (Report.init rows V0) = Ok m) /\
  (~ present ->
   Report.calculate_metrics (Report.init rows V0) = Raise IndexError).
Proof.
  intro present. pose proof (report_calculate_cases rows V0) as H.
  destruct (Report.calculate_metrics (Report.init rows V0)) as [m|e].
  - split.
    + intros _. exists m. reflexivity.
    + intro Hn. exfalso. apply Hn. exact H.
  - destruct H as (-> & k & Hk & Hmiss). split.
    + intro Hp. exfalso. apply Hmiss, Hp, Hk.
    + intros _. reflexivity.
Qed.

Lemma report_needs_rows_witness :
  Report.calculate_metrics (Report.init [(5%Z, -0.1); (50%Z, 0.1)] 1000)
  = Raise IndexError.
Proof.
  destruct (report_needs_rows [(5%Z, -0.1); (50%Z, 0.1)] 1000) as [_ H].
  apply H. intro Hp.
  assert (H1 : In 1%Z (map fst [(5%Z, -0.1); (50%Z, 0.1)]))
    by (apply Hp; cbn [In]; tauto).
  cbn [map fst In] in H1. destruct H1 as [H1|[H1|[]]]; discriminate.
Defined.

Lemma report_calculate_inv (g : Report.generator) (m : Report.report_metrics) :
  Report.calculate_metrics g = Ok m ->
  exists v50 y v5 v1 vlast vfirst v75 v25,
    Report.lookup g 50 = Ok v50 /\
    Report.np_interp 0 (map (fun r => r * 100) (Report.returns g))
                     (map IZR (Report.percentiles g)) = Ok y /\
    Report.lookup g 5 = Ok v5 /\ Report.lookup g 1 = Ok v1 /\
    getitem (Report.returns g) (length (Report.returns g) - 1) = Ok vlast /\
    getitem (Report.returns g) 0 = Ok vfirst /\
    Report.lookup g 75 = Ok v75 /\ Report.lookup g 25 = Ok v25 /\
    Report.median_return m = v50 * 100 /\
    Report.median_final_value m = Report.initial_value g * (1 + v50) /\
    Report.prob_loss m = y /\ Report.prob_profit m = 100 - y /\
    Report.var_95 m = v5 * 100 /\ Report.var_99 m = v1 * 100 /\
    Report.best_case m = vlast * 100 /\ Report.worst_case m = vfirst * 100 /\
    Report.range m = (vlast - vfirst) * 100 /\
    Report.iqr m = (v75 - v25) * 100.
Proof.
  unfold Report.calculate_metrics. intro H.
  destruct (Report.lookup g 50) as [v50|]; [|discriminate].
  cbn [obind] in H.
  destruct (Report.np_interp _ _ _) as [y|]; [|discriminate].
  cbn [obind] in H.
  destruct (Report.lookup g 5) as [v5|]; [|discriminate].
  cbn [obind] in H.
  destruct (Report.lookup g 1) as [v1|]; [|discriminate].
  cbn [obind] in H.
  destruct (getitem (Report.returns g) (length (Report.returns g) - 1))
    as [vlast|]; [|discriminate].
  cbn [obind] in H.
  destruct (getitem (Report.returns g) 0) as [vfirst|]; [|discriminate].
  cbn [obind] in H.
  destruct (Report.lookup g 75) as [v75|]; [|discriminate].
  cbn [obind] in H.
  destruct (Report.lookup g 25) as [v25|]; [|discriminate].
  cbn [obind] in H.
  injection H as <-.
  exists v50, y, v5, v1, vlast, vfirst, v75, v25.
  repeat split; reflexivity.
Qed.

Lemma interp_from_range (x lo hi : R) (rest : list (R * R)) :
  forall x0 y0,
    x0 <= x -> lo <= y0 <= hi ->
    (forall p, In p rest -> lo <= snd p <= hi) ->
    lo <= Report.interp_from x x0 y0 rest <= hi.
Proof.
  induction rest as [|[x1 y1] rest IH]; intros x0 y0 Hx Hy Hall;
    cbn [Report.interp_from].
  - exact Hy.
  - pose proof (Hall (x1, y1) (or_introl eq_refl)) as Hy1. cbn [snd] in Hy1.
    destruct (Rle_dec x1 x) as [Hle|Hgt].
    + apply IH; [exact Hle|exact Hy1|].
      intros p Hp. apply Hall. right. exact Hp.
    + destruct (Req_dec_T x0 x) as [_|Hne]; [exact Hy|].
      assert (Hd : 0 < x1 - x0) by lra.
      assert (Ht : 0 <= (x - x0) / (x1 - x0) <= 1).
      { split.
        - apply Rmult_le_pos; [lra|]. left. apply Rinv_0_lt_compat. exact Hd.
        - apply Rmult_le_reg_r with (x1 - x0); [exact Hd|].
          replace ((x - x0) / (x1 - x0) * (x1 - x0)) with (x - x0)
            by (field; lra).
          lra. }
      replace ((y1 - y0) / (x1 - x0) * (x - x0) + y0)
        with (y0 + (y1 - y0) * ((x - x0) / (x1 - x0))) by (field; lra).
      nra.
Qed.

Lemma np_interp_range (x lo hi y : R) (xp fp : list R) :
  (forall v, In v fp -> lo <= v <= hi) ->
  Report.np_interp x xp fp = Ok y -> lo <= y <= hi.
Proof.
  intros Hfp. unfold Report.np_interp.
  destruct (combine xp fp) as [|[x0 y0] rest] eqn:Hc; [discriminate|].
  assert (Hall : forall p, In p ((x0, y0) :: rest) -> lo <= snd p <= hi).
  { intros [a b] Hp. rewrite <- Hc in Hp. apply in_combine_r in Hp.
    apply Hfp. exact Hp. }
  pose proof (Hall (x0, y0) (or_introl eq_refl)) as Hy0. cbn [snd] in Hy0.
  destruct (Rlt_dec x x0) as [Hlt|Hge]; intro H; injection H as <-.
  - exact Hy0.
  - apply interp_from_range; [lra|exact Hy0|].
    intros p Hp. apply Hall. right. exact Hp.
Qed.





Lemma np_percentile_defined (returns : list R) (q : R) :
  (1 <= length returns)%nat -> exists x, np_percentile returns q = Some x.
Proof.
  intro Hn. unfold np_percentile. rewrite np_sort_length.
  destruct (Nat.eqb_spec (length returns) 0) as [H0|_]; [lia|].
  eexists. reflexivity.
Qed.

(** X24.  The report generator accepts every table the engine exports:
    for a non-empty returns array the exported rows are read back, all
    lookups succeed, the median of the report is the 50% row of the table
    (the interpolated 50th percentile of the returns), the report's worst
    and best case are the interpolated 1st and 99th percentiles (not the
    extreme returns), its 99% VaR equals its worst case, and its
    probability of loss lies between 1 and 99. *)
Theorem report_reads_export (res : results) (V0 : R) :
  (1 <= length (returns_of res))%nat ->
  exists rows m p50 p1 p99,
    Report.rows_of_export (export_results res) = Some rows /\
    Report.calculate_metrics (Report.init rows V0) = Ok m /\
    np_percentile (returns_of res) (INR 50) = Some p50 /\
    Report.median_return m = p50 * 100 /\
    Report.median_final_value m = V0 * (1 + p50) /\
    np_percentile (returns_of res) (INR 1) = Some p1 /\
    np_percentile (returns_of res) (INR 99) = Some p99 /\
    Report.worst_case m = p1 * 100 /\
    Report.var_99 m = p1 * 100 /\
    Report.best_case m = p99 * 100 /\
    1 <= Report.prob_loss m <= 99.
Proof.
  intro Hn. set (rets := returns_of res) in *.
  destruct (np_percentile_defined rets (INR 1) Hn) as [x1 E1].
  destruct (np_percentile_defined rets (INR 5) Hn) as [x5 E5].
  destruct (np_percentile_defined rets (INR 10) Hn) as [x10 E10].
  destruct (np_percentile_defined rets (INR 25) Hn) as [x25 E25].
  destruct (np_percentile_defined rets (INR 50) Hn) as [x50 E50].
  destruct (np_percentile_defined rets (INR 75) Hn) as [x75 E75].
  destruct (np_percentile_defined rets (INR 90) Hn) as [x90 E90].
  destruct (np_percentile_defined rets (INR 95) Hn) as [x95 E95].
  destruct (np_percentile_defined rets (INR 99) Hn) as [x99 E99].
  set (rows := [(1%Z, x1); (5%Z, x5); (10%Z, x10); (25%Z, x25); (50%Z, x50);
                (75%Z, x75); (90%Z, x90); (95%Z, x95); (99%Z, x99)]).
  assert (Hrows : Report.rows_of_export (export_results res) = Some rows).
  { unfold export_results. fold rets. cbn [map].
    rewrite E1, E5, E10, E25, E50, E75, E90, E95, E99.
    reflexivity. }
  pose proof (report_calculate_cases rows V0) as Hc.
  destruct (Report.calculate_metrics (Report.init rows V0)) as [m|e] eqn:Hm.
  2:{ exfalso. destruct Hc as (_ & k & Hk & Hmiss). apply Hmiss.
      cbn [In] in Hk. unfold rows. cbn [map fst In].
      repeat (destruct Hk as [<-|Hk]; [tauto|]). contradiction. }
  destruct (report_calculate_inv _ _ Hm)
    as (v50 & y & v5 & v1 & vl & vf & v75 & v25 & L50 & Hy & _ & L1 & Ll & Lf
        & _ & _ & Hmed & Hmfv & Hpl & _ & _ & Hv99 & Hbest & Hworst & _).
  assert (Hv50 : v50 = x50) by (cbv in L50; congruence).
  assert (Hv1 : v1 = x1) by (cbv in L1; congruence).
  assert (Hvl : vl = x99) by (cbv in Ll; congruence).
  assert (Hvf : vf = x1) by (cbv in Lf; congruence).
  subst v50 v1 vl vf.
  exists rows, m, x50, x1, x99.
  split; [exact Hrows|]. split; [exact Hm|].
  split; [exact E50|].
  split; [exact Hmed|]. split; [exact Hmfv|].
  split; [exact E1|]. split; [exact E99|].
  split; [exact Hworst|]. split; [exact Hv99|]. split; [exact Hbest|].
  rewrite Hpl.
  apply (np_interp_range 0 1 99 y _ _) with (2 := Hy).
  intros v Hv.
  change (Report.percentiles (Report.init rows V0))
    with [1; 5; 10; 25; 50; 75; 90; 95; 99]%Z in Hv.
  cbn [map In] in Hv.
  repeat (destruct Hv as [<-|Hv]; [lra|]). contradiction.
Qed.

Lemma report_reads_export_witness :
  exists m0 rows m,
    _calculate_metrics [0; 1] = Ok m0 /\
    Report.rows_of_export
      (export_results (mk_results [75; 150] [0; 1] m0 cfg_two [])) = Some rows /\
    Report.calculate_metrics (Report.init rows 75) = Ok m /\
    1 <= Report.prob_loss m <= 99.
Proof.
  destruct (calculate_metrics_ok [0; 1]) as (m0 & Hm0 & _); [simpl; lia|].
  destruct (report_reads_export (mk_results [75; 150] [0; 1] m0 cfg_two []) 75)
    as (rows & m & med & p1 & p99 & Hrows & Hm & _ & _ & _ & _ & _ & _ & _ & _
        & Hpl).
  - simpl. lia.
  - exists m0, rows, m. repeat split; try assumption; apply Hpl.
Defined.
